(** * Nested-structure utilities of [rllib/utils/spaces/space_utils.py]

    A shallow embedding of the space utilities of RLlib:
    [get_original_space], [flatten_space], [get_base_struct_from_space],
    [get_dummy_batch_for_space], [flatten_to_single_ndarray], [batch],
    [unbatch], [clip_action], [unsquash_action] and [normalize_action],
    together with the parts of [numpy] and [dm_tree] these functions call,
    and of the environment [ParrotEnv] of
    [rllib/examples/_docs/rllib_on_rllib_readme.py].

    Modelling decisions.
    - Python exceptions are values of [exn]; a computation that may raise
      has type [result A].
    - Array elements are idealised numbers [xq]: exact rationals extended
      with [+inf], [-inf] and [nan].  Rounding and integer wrap-around are
      outside the model; the IEEE rules for infinities, [nan] and division
      by zero are kept, since [gym] uses [-inf]/[+inf] as the bounds of an
      unbounded [Box].  What is proved of the floating-point formulas of
      [unsquash_action] and [normalize_action] is therefore only what
      holds whatever the intermediate results are rounded to: which
      branch is taken, shapes, the results that IEEE prescribes for
      infinities and [nan], what [np.clip] (a minimum and a maximum,
      computed without rounding) guarantees of a result, and that the
      same operations on the same elements give the same results.
      Module [f32] evaluates the two formulas in IEEE binary32
      arithmetic where a statement about rounding is needed.
    - An [ndarray] is its shape, its dtype tag and its elements in row-major
      order.  Python and numpy scalars are identified with 0-d arrays.
    - A Python [dict] is a [gmap string]; a Python [tuple] is a [list].
      Keys are strings, ordered as Python orders them (lexicographically
      by character code).
    - Of the spaces of [gym], the primitive [Box], [Discrete] and
      [MultiDiscrete] and the composite [Tuple] and [Dict] are modelled;
      [FlexDict], which [flatten_space] treats as a [Dict], is not.
    - [space.sample()] draws from a random generator: its state is
      threaded through [get_dummy_batch_for_space]. *)

From Stdlib Require Import QArith Qabs Qminmax Qround Lia Lqa.
From Stdlib Require Floats.SpecFloat.
From stdpp Require Import gmap strings list fin_maps sorting.

Set Warnings "-register-all".
#[local] Open Scope nat_scope.

(** ** Exceptions and the error monad *)

Inductive exn : Type :=
  | ValueError (msg : string)
  | TypeError (msg : string)
  | IndexError (msg : string)
  | AssertionError.

Inductive result (A : Type) : Type :=
  | Ok (a : A)
  | Raise (e : exn).
Arguments Ok {A} a.
Arguments Raise {A} e.

Definition bind {A B} (r : result A) (k : A -> result B) : result B :=
  match r with
  | Ok a => k a
  | Raise e => Raise e
  end.

Notation "'let*' x ':=' c1 'in' c2" := (bind c1 (fun x => c2))
  (at level 10, x name, c1 at level 100, c2 at level 200).

(** [[f(x) for x in l]] where [f] may raise: the first exception wins. *)
Fixpoint mapM {A B} (f : A -> result B) (l : list A) : result (list B) :=
  match l with
  | [] => Ok []
  | x :: l' => let* y := f x in let* ys := mapM f l' in Ok (y :: ys)
  end.

Definition is_ok {A} (r : result A) : bool :=
  match r with Ok _ => true | Raise _ => false end.

(** ** Idealised numbers *)

Inductive xq : Type :=
  | Fin (q : Q)
  | PInf
  | NInf
  | NaN.

Definition xq_of_Z (z : Z) : xq := Fin (inject_Z z).

(** Equality of values: rationals up to [Qeq]. *)
Definition xeq (x y : xq) : Prop :=
  match x, y with
  | Fin p, Fin q => (p == q)%Q
  | PInf, PInf | NInf, NInf | NaN, NaN => True
  | _, _ => False
  end.

Definition is_finite (x : xq) : bool :=
  match x with Fin _ => true | _ => false end.

Definition xneg (x : xq) : xq :=
  match x with
  | Fin q => Fin (Qred (- q)%Q)
  | PInf => NInf
  | NInf => PInf
  | NaN => NaN
  end.

Definition xadd (x y : xq) : xq :=
  match x, y with
  | NaN, _ | _, NaN => NaN
  | PInf, NInf | NInf, PInf => NaN
  | PInf, _ | _, PInf => PInf
  | NInf, _ | _, NInf => NInf
  | Fin p, Fin q => Fin (Qred (p + q)%Q)
  end.

Definition xsub (x y : xq) : xq := xadd x (xneg y).

(** The sign of a value, [Eq] for zero and for [nan]. *)
Definition xsign (x : xq) : comparison :=
  match x with
  | Fin q => (q ?= 0)%Q
  | PInf => Gt
  | NInf => Lt
  | NaN => Eq
  end.

Definition inf_of_sign (c : comparison) : xq :=
  match c with Gt => PInf | Lt => NInf | Eq => NaN end.

Definition sign_mul (c d : comparison) : comparison :=
  match c, d with
  | Eq, _ | _, Eq => Eq
  | Gt, Gt | Lt, Lt => Gt
  | _, _ => Lt
  end.

Definition xmul (x y : xq) : xq :=
  match x, y with
  | NaN, _ | _, NaN => NaN
  | Fin p, Fin q => Fin (Qred (p * q)%Q)
  | _, _ => inf_of_sign (sign_mul (xsign x) (xsign y))
  end.

(** True division.  A zero divisor is a positive zero: [x / 0] is [+inf],
    [-inf] or [nan] as [x] is positive, negative or zero. *)
Definition xdiv (x y : xq) : xq :=
  match x, y with
  | NaN, _ | _, NaN => NaN
  | Fin p, Fin q =>
      if Qeq_bool q 0 then inf_of_sign (p ?= 0)%Q else Fin (Qred (p / q)%Q)
  | Fin _, _ => Fin 0%Q
  | _, Fin q =>
      if Qeq_bool q 0 then x else inf_of_sign (sign_mul (xsign x) (q ?= 0)%Q)
  | _, _ => NaN
  end.

(** [x <= y]; false when either side is [nan]. *)
Definition xleb (x y : xq) : bool :=
  match x, y with
  | NaN, _ | _, NaN => false
  | NInf, _ | _, PInf => true
  | Fin p, Fin q => Qle_bool p q
  | _, _ => false
  end.

Definition xltb (x y : xq) : bool :=
  match x, y with
  | NaN, _ | _, NaN => false
  | Fin p, Fin q => negb (Qle_bool q p)
  | NInf, NInf | PInf, PInf => false
  | NInf, _ | _, PInf => true
  | _, _ => false
  end.

(** [np.maximum] and [np.minimum] propagate [nan]. *)
Definition xmax (x y : xq) : xq :=
  match x, y with
  | NaN, _ | _, NaN => NaN
  | _, _ => if xleb x y then y else x
  end.

Definition xmin (x y : xq) : xq :=
  match x, y with
  | NaN, _ | _, NaN => NaN
  | _, _ => if xleb x y then x else y
  end.

(** ** The parts of numpy the utilities use *)

Module np.

(** dtype tags.  Conversion of element values between dtypes (rounding,
    truncation, overflow) is not modelled: a dtype only labels an array. *)
Inductive dtype : Type := int32 | int64 | float32 | float64.

#[global] Instance dtype_eq_dec : EqDecision dtype.
Proof. solve_decision. Defined.

(** [np.issubdtype(dt, np.integer)] *)
Definition is_integer (dt : dtype) : bool :=
  match dt with int32 | int64 => true | _ => false end.

(** [np.promote_types] *)
Definition promote_types (d1 d2 : dtype) : dtype :=
  match d1, d2 with
  | int32, int32 => int32
  | int32, int64 | int64, int32 | int64, int64 => int64
  | float32, float32 => float32
  | _, _ => float64
  end.

Record ndarray : Type := NdArray {
  shape : list nat;
  adtype : dtype;
  data : list xq;
  (** instance of the marker subclass [BatchedNdArray] *)
  batched : bool
}.

(** Number of elements of an array of shape [sh]. *)
Definition numel (sh : list nat) : nat := foldr Nat.mul 1 sh.

(** The elements fill the shape. *)
Definition wf (a : ndarray) : Prop := length (data a) = numel (shape a).

(** A 0-d array holding one value (a Python or numpy scalar). *)
Definition scalar (dt : dtype) (x : xq) : ndarray :=
  NdArray [] dt [x] false.

(** [len(a)] *)
Definition len (a : ndarray) : result nat :=
  match shape a with
  | [] => Raise (TypeError "len() of unsized object")
  | n :: _ => Ok n
  end.

(** [a[i]] for a non-negative integer [i]: the [i]-th slice along the
    leading axis.  A scalar result is not an instance of the subclass. *)
Definition getitem (a : ndarray) (i : nat) : result ndarray :=
  match shape a with
  | [] => Raise (IndexError "invalid index to scalar variable.")
  | n :: sh =>
      if decide (i < n) then
        Ok (NdArray sh (adtype a)
              (take (numel sh) (drop (i * numel sh) (data a)))
              (match sh with [] => false | _ => batched a end))
      else Raise (IndexError "index is out of bounds for axis 0")
  end.

Definition result_type (l : list ndarray) (d : dtype) : dtype :=
  foldr (fun a acc => promote_types (adtype a) acc) d l.

(** [np.stack(arrays, axis=0)] *)
Definition stack (arrays : list ndarray) : result ndarray :=
  match arrays with
  | [] => Raise (ValueError "need at least one array to stack")
  | a0 :: rest =>
      if forallb (fun a => bool_decide (shape a = shape a0)) rest then
        Ok (NdArray (length arrays :: shape a0)
              (result_type rest (adtype a0))
              (concat (map data arrays)) false)
      else Raise (ValueError "all input arrays must have the same shape")
  end.

(** [np.concatenate(arrays, axis=0)] *)
Definition concatenate (arrays : list ndarray) : result ndarray :=
  match arrays with
  | [] => Raise (ValueError "need at least one array to concatenate")
  | a0 :: rest =>
      if existsb (fun a => bool_decide (shape a = [])) arrays then
        Raise (ValueError "zero-dimensional arrays cannot be concatenated")
      else if forallb (fun a => bool_decide (tail (shape a) = tail (shape a0)))
                rest then
        Ok (NdArray
              (foldr Nat.add 0 (map (fun a => hd 0 (shape a)) arrays)
                 :: tail (shape a0))
              (result_type rest (adtype a0))
              (concat (map data arrays)) false)
      else Raise (ValueError
        "all the input array dimensions except for the concatenation axis must match exactly")
  end.

(** [np.ascontiguousarray(a)]: the memory layout is not modelled; the
    result has at least one dimension and is a base-class array. *)
Definition ascontiguousarray (a : ndarray) : ndarray :=
  NdArray (match shape a with [] => [1] | sh => sh end)
    (adtype a) (data a) false.

(** [np.full(shape, fill_value, dtype)] *)
Definition full (sh : list nat) (fill_value : xq) (dt : dtype) : ndarray :=
  NdArray sh dt (replicate (numel sh) fill_value) false.

(** *** Broadcasting *)

(** Shapes are aligned at their last axis; [broadcast_rev] works on the
    reversed shapes. *)
Fixpoint broadcast_rev (s t : list nat) : option (list nat) :=
  match s, t with
  | [], _ => Some t
  | _, [] => Some s
  | n :: s', m :: t' =>
      r ← broadcast_rev s' t';
      if decide (n = m) then Some (n :: r)
      else if decide (n = 1) then Some (m :: r)
      else if decide (m = 1) then Some (n :: r)
      else None
  end.

(** [np.broadcast_shapes(s, t)] *)
Definition broadcast_shapes (s t : list nat) : option (list nat) :=
  reverse <$> broadcast_rev (reverse s) (reverse t).

(** [d] cut into [n] consecutive pieces of [size] elements. *)
Fixpoint chunks (size n : nat) (d : list xq) : list (list xq) :=
  match n with
  | 0 => []
  | S n' => take size d :: chunks size n' (drop size d)
  end.

(** The elements of an array of shape [s] repeated to fill shape [t],
    for [s] and [t] of the same length with each axis of [s] equal to
    that of [t] or of size 1. *)
Fixpoint broadcast_data (s t : list nat) (d : list xq) : list xq :=
  match s, t with
  | n :: s', m :: t' =>
      if decide (n = m) then
        concat (map (broadcast_data s' t') (chunks (numel s') n d))
      else concat (replicate m (broadcast_data s' t' d))
  | _, _ => d
  end.

(** [np.broadcast_to(a, t)] on the elements: missing leading axes of
    [a] count as axes of size 1. *)
Definition broadcast_to (a : ndarray) (t : list nat) : list xq :=
  broadcast_data
    (replicate (length t - length (shape a)) 1 ++ shape a) t (data a).

(** A binary ufunc [f] with result dtype [rdt]. *)
Definition ufunc2 (f : xq -> xq -> xq) (rdt : dtype -> dtype -> dtype)
    (a b : ndarray) : result ndarray :=
  match broadcast_shapes (shape a) (shape b) with
  | None => Raise (ValueError "operands could not be broadcast together")
  | Some t =>
      Ok (NdArray t (rdt (adtype a) (adtype b))
            (zip_with f (broadcast_to a t) (broadcast_to b t))
            (batched a || batched b))
  end.

Definition divide_type (d1 d2 : dtype) : dtype :=
  let d := promote_types d1 d2 in if is_integer d then float64 else d.

Definition add := ufunc2 xadd promote_types.
Definition subtract := ufunc2 xsub promote_types.
Definition multiply := ufunc2 xmul promote_types.
Definition true_divide := ufunc2 xdiv divide_type.
Definition maximum := ufunc2 xmax promote_types.
Definition minimum := ufunc2 xmin promote_types.

(** An operation between an array and a Python float, such as
    [a + 1.0]: applied to every element; an integer array becomes
    [float64]. *)
Definition with_pyfloat (f : xq -> xq) (a : ndarray) : ndarray :=
  NdArray (shape a) (if is_integer (adtype a) then float64 else adtype a)
    (map f (data a)) (batched a).

(** [np.clip(a, a_min, a_max)], that is
    [np.minimum(a_max, np.maximum(a, a_min))]. *)
Definition clip (a a_min a_max : ndarray) : result ndarray :=
  let* m := maximum a a_min in minimum m a_max.

(** [np.all(c)] for an array [c] of booleans given elementwise. *)
Definition all (c : list bool) : bool := forallb id c.

(** [np.sum(a)] *)
Definition sum (a : ndarray) : xq := foldr xadd (Fin 0%Q) (data a).

(** [np.array(a, dtype=dt)] for an array [a]. *)
Definition astype (a : ndarray) (dt : dtype) : ndarray :=
  NdArray (shape a) dt (data a) false.

(** [np.array(items, dtype=dt)] for a list of arrays. *)
Definition array (items : list ndarray) (dt : dtype) : result ndarray :=
  match items with
  | [] => Ok (NdArray [0] dt [] false)
  | a0 :: rest =>
      if forallb (fun a => bool_decide (shape a = shape a0)) rest then
        Ok (NdArray (length items :: shape a0) dt
              (concat (map data items)) false)
      else Raise (ValueError
        "setting an array element with a sequence. The requested array has an inhomogeneous shape")
  end.

(** [np.array(rows, dtype=dt)] for a list of lists of arrays. *)
Definition array2 (rows : list (list ndarray)) (dt : dtype)
    : result ndarray :=
  let* items := mapM (fun r => array r dt) rows in array items dt.

(** [np.reshape(a, [-1])]: the elements on one axis. *)
Definition reshape_1d (a : ndarray) : ndarray :=
  NdArray [numel (shape a)] (adtype a) (data a) (batched a).

(** [a.flatten()]: a copy of the elements on one axis. *)
Definition ndarray_flatten (a : ndarray) : ndarray :=
  NdArray [numel (shape a)] (adtype a) (data a) (batched a).

(** [abs(a)] and [-a], element by element. *)
Definition xabs (x : xq) : xq :=
  match x with
  | Fin q => Fin (Qred (Qabs q))
  | PInf | NInf => PInf
  | NaN => NaN
  end.

Definition absolute (a : ndarray) : ndarray :=
  NdArray (shape a) (adtype a) (map xabs (data a)) (batched a).

Definition negative (a : ndarray) : ndarray :=
  NdArray (shape a) (adtype a) (map xneg (data a)) (batched a).

(** An operation between a Python integer and an array, such as
    [0 + a]: applied to every element; the dtype of the array is kept. *)
Definition with_pyint (f : xq -> xq) (a : ndarray) : ndarray :=
  NdArray (shape a) (adtype a) (map f (data a)) (batched a).

(** [np.expand_dims(a, 0)]: a new leading axis of size 1. *)
Definition expand_dims (a : ndarray) : ndarray :=
  NdArray (1 :: shape a) (adtype a) (data a) (batched a).

End np.

(** ** The parts of dm_tree the utilities use *)

Module tree.

(** A nested Python structure with leaves of type [A]: a leaf, a tuple
    or a dict with string keys. *)
Inductive struct (A : Type) : Type :=
  | Leaf (a : A)
  | Tup (l : list (struct A))
  | Dct (m : gmap string (struct A)).
Arguments Leaf {A} a.
Arguments Tup {A} l.
Arguments Dct {A} m.

(** [sorted(d)]: the keys of a dict in ascending order. *)
Definition sorted_keys {A} (m : gmap string A) : list string :=
  merge_sort String.le (elements (dom m)).

(** The structure with every leaf [a] replaced by [f a]. *)
Fixpoint smap {A B} (f : A -> B) (s : struct A) : struct B :=
  match s with
  | Leaf a => Leaf (f a)
  | Tup l => Tup (map (smap f) l)
  | Dct m => Dct (smap f <$> m)
  end.

(** The topology of a structure: its containers, keys and lengths, with
    the leaf values forgotten. *)
Definition topology {A} (s : struct A) : struct unit :=
  smap (fun _ => tt) s.

Definition is_nested {A} (s : struct A) : bool :=
  match s with Leaf _ => false | _ => true end.

(** [tree.flatten]: the leaves, tuples in positional order and dicts in
    sorted key order. *)
Fixpoint flatten {A} (s : struct A) : list A :=
  match s with
  | Leaf a => [a]
  | Tup l => concat (map flatten l)
  | Dct m =>
      let fm := flatten <$> m in
      concat (map (fun k => default [] (fm !! k)) (sorted_keys m))
  end.

Fixpoint all_ok (l : list (result unit)) : result unit :=
  match l with
  | [] => Ok tt
  | r :: l' => let* _ := r in all_ok l'
  end.

Definition structure_error : exn :=
  ValueError "The two structures don't have the same nested structure.".
Definition sequence_type_error : exn :=
  TypeError "The two structures don't have the same sequence type.".

(** [tree.assert_same_structure(s1, s2)] *)
Fixpoint assert_same_structure {A B} (s1 : struct A)
    : struct B -> result unit :=
  match s1 with
  | Leaf _ => fun s2 =>
      match s2 with
      | Leaf _ => Ok tt
      | _ => Raise structure_error
      end
  | Tup l1 =>
      let cs := map assert_same_structure l1 in
      fun s2 =>
      match s2 with
      | Leaf _ => Raise structure_error
      | Tup l2 =>
          if decide (length l1 = length l2)
          then all_ok (zip_with (fun c s => c s) cs l2)
          else Raise structure_error
      | Dct _ => Raise sequence_type_error
      end
  | Dct m1 =>
      let cm := assert_same_structure <$> m1 in
      fun s2 =>
      match s2 with
      | Leaf _ => Raise structure_error
      | Tup _ => Raise sequence_type_error
      | Dct m2 =>
          if decide (dom m1 = dom m2)
          then all_ok (map (fun k =>
                 match cm !! k, m2 !! k with
                 | Some c, Some s => c s
                 | _, _ => Ok tt
                 end) (sorted_keys m1))
          else Raise structure_error
      end
  end.

(** Children packed one after the other, each consuming its leaves from
    the front of the flat sequence. *)
Fixpoint pack_seq {B X} (ps : list (list B -> option (X * list B)))
    (flat : list B) : option (list X * list B) :=
  match ps with
  | [] => Some ([], flat)
  | p :: ps' =>
      '(c, r) ← p flat;
      '(cs, r') ← pack_seq ps' r;
      Some (c :: cs, r')
  end.

(** The packing step of [tree.unflatten_as]: the structure [s] refilled
    with the leaves of [flat], and the leaves left over. *)
Fixpoint pack {A B} (s : struct A)
    : list B -> option (struct B * list B) :=
  match s with
  | Leaf _ => fun flat =>
      match flat with
      | x :: r => Some (Leaf x, r)
      | [] => None
      end
  | Tup l =>
      let ps := map pack l in
      fun flat => '(cs, r) ← pack_seq ps flat; Some (Tup cs, r)
  | Dct m =>
      let pm := pack <$> m in
      let keys := sorted_keys m in
      fun flat =>
        '(cs, r) ← pack_seq
           (map (fun k => default (fun _ => None) (pm !! k)) keys) flat;
        Some (Dct (list_to_map (zip keys cs)), r)
  end.

(** [tree.unflatten_as(structure, flat_sequence)] *)
Definition unflatten_as {A B} (structure : struct A)
    (flat_sequence : list B) : result (struct B) :=
  match structure with
  | Leaf _ =>
      match flat_sequence with
      | [x] => Ok (Leaf x)
      | _ => Raise (ValueError
               "Structure is a scalar but len(flat_sequence) != 1")
      end
  | _ =>
      if decide (length (flatten structure) = length flat_sequence) then
        match pack structure flat_sequence with
        | Some (r, _) => Ok r
        | None => Raise (ValueError "Could not pack sequence.")
        end
      else Raise (ValueError "Could not pack sequence.")
  end.

(** Python's [zip] applied to the unpacked [rows]: the columns. *)
Fixpoint zip_star {A} (rows : list (list A)) : list (list A) :=
  match rows with
  | [] => []
  | [r] => map (fun x => [x]) r
  | r :: rs => zip_with cons r (zip_star rs)
  end.

(** [tree.map_structure(func, *structures)]: [func] receives the
    co-located leaves of all structures. *)
Definition map_structure {A B} (func : list A -> result B)
    (structures : list (struct A)) : result (struct B) :=
  match structures with
  | [] => Raise (ValueError "Must provide at least one structure")
  | s0 :: others =>
      let* _ := mapM (assert_same_structure s0) others in
      let* rs := mapM func (zip_star (map flatten structures)) in
      unflatten_as s0 rs
  end.

(** [tree.map_structure(func, s1, s2)] for two structures whose leaves
    have different types. *)
Definition map_structure2 {A B C} (func : A -> B -> result C)
    (s1 : struct A) (s2 : struct B) : result (struct C) :=
  let* _ := assert_same_structure s1 s2 in
  let* rs := mapM (fun p => func p.1 p.2) (zip (flatten s1) (flatten s2)) in
  unflatten_as s1 rs.

End tree.

Import tree.

(** ** Spaces *)

(** A [gym.Space]: the primitive spaces [Box], [Discrete] and
    [MultiDiscrete], and the composite spaces [Tuple] and [Dict]. *)
Inductive Space : Type :=
  | Box (low high : np.ndarray) (shape : list nat) (dtype : np.dtype)
  | Discrete (n start : Z)
  | MultiDiscrete (nvec start : np.ndarray)
  | Tuple (spaces : list Space)
  | Dict (spaces : gmap string Space).

(** [space.shape] *)
Definition Space_shape (space : Space) : list nat :=
  match space with
  | Box _ _ shape _ => shape
  | Discrete _ _ => []
  | MultiDiscrete nvec _ => np.shape nvec
  | _ => []
  end.

(** [space.dtype] *)
Definition Space_dtype (space : Space) : np.dtype :=
  match space with
  | Box _ _ _ dtype => dtype
  | _ => np.int64
  end.

(** [Box.bounded_below], computed by [gym] as [-inf < low], and
    [Box.bounded_above], computed as [inf > high]. *)
Definition bounded_below (low : np.ndarray) : list bool :=
  map (fun l => xltb NInf l) (np.data low).
Definition bounded_above (high : np.ndarray) : list bool :=
  map (fun h => xltb h PInf) (np.data high).

(** [isinstance(space, (Tuple, Dict))] *)
Definition is_composite (space : Space) : bool :=
  match space with
  | Tuple _ | Dict _ => true
  | _ => false
  end.

(** ** [flatten_space] *)

(** The inner helper appends to the list [return_list], which is threaded
    through the calls. *)
Fixpoint _helper_flatten (space_ : Space) : list Space -> list Space :=
  match space_ with
  | Tuple spaces =>
      fun return_list =>
        fold_left (fun acc s => _helper_flatten s acc) spaces return_list
  | Dict spaces =>
      let calls := _helper_flatten <$> spaces in
      fun return_list =>
        fold_left (fun acc k => default id (calls !! k) acc)
          (sorted_keys spaces) return_list
  | _ => fun return_list => return_list ++ [space_]
  end.

Definition flatten_space (space : Space) : list Space :=
  let ret := [] in
  _helper_flatten space ret.

(** ** [get_base_struct_from_space] *)

Fixpoint get_base_struct_from_space (space : Space) : struct Space :=
  match space with
  | Tuple spaces => Tup (map get_base_struct_from_space spaces)
  | Dict spaces => Dct (get_base_struct_from_space <$> spaces)
  | _ => Leaf space
  end.

(** ** [batch] and [unbatch] *)

(** The argument [individual_items_already_have_batch_dim]: a boolean or
    the string ["auto"]. *)
Inductive batch_dim_flag : Type :=
  | Flag (b : bool)
  | Auto.

Definition empty_batch_error : exn :=
  ValueError "Input `list_of_structs` does not contain any items.".

Definition batch (list_of_structs : list (struct np.ndarray))
    (individual_items_already_have_batch_dim : batch_dim_flag)
    : result (struct np.ndarray) :=
  match list_of_structs with
  | [] => Raise empty_batch_error
  | first :: _ =>
      let* already :=
        match individual_items_already_have_batch_dim with
        | Auto =>
            match flatten first with
            | [] => Raise (IndexError "list index out of range")
            | leaf :: _ => Ok (np.batched leaf)
            end
        | Flag b => Ok b
        end in
      let np_func := if already then np.concatenate else np.stack in
      map_structure
        (fun s => let* r := np_func s in Ok (np.ascontiguousarray r))
        list_of_structs
  end.

Definition unbatch (batches_struct : struct np.ndarray)
    : result (list (struct np.ndarray)) :=
  let flat_batches := flatten batches_struct in
  match flat_batches with
  | [] => Raise (IndexError "list index out of range")
  | first :: _ =>
      let* n := np.len first in
      mapM (fun batch_pos =>
              let* items :=
                mapM (fun b => np.getitem b batch_pos) flat_batches in
              unflatten_as batches_struct items)
        (seq 0 n)
  end.

(** ** [clip_action], [unsquash_action] and [normalize_action] *)

(** The leaf function [map_] of [clip_action]. *)
Definition clip_map_ (a : np.ndarray) (s : Space) : result np.ndarray :=
  match s with
  | Box low high _ _ => np.clip a low high
  | _ => Ok a
  end.

Definition clip_action (action : struct np.ndarray)
    (action_space : struct Space) : result (struct np.ndarray) :=
  map_structure2 clip_map_ action action_space.

(** The leaf function [map_] of [unsquash_action].  The branches and the
    order of the operations are those of the source; the operations are
    computed on idealised numbers, without the rounding and the overflow
    of [float32] and [float64] (for these see [f32.unsquash]). *)
Definition unsquash_map_ (a : np.ndarray) (s : Space) : result np.ndarray :=
  match s with
  | Box low high _ dtype =>
      if np.all (bounded_below low) && np.all (bounded_above high) then
        if bool_decide (dtype = np.float32) || bool_decide (dtype = np.float64)
        then
          let* d := np.subtract high low in
          let* p := np.multiply (np.with_pyfloat (fun x => xadd x (Fin 1)) a) d in
          let* a' := np.add low (np.with_pyfloat (fun x => xdiv x (Fin 2)) p) in
          np.clip a' low high
        else if np.is_integer dtype then np.add low a
        else Ok a
      else Ok a
  | _ => Ok a
  end.

Definition unsquash_action (action : struct np.ndarray)
    (action_space_struct : struct Space) : result (struct np.ndarray) :=
  map_structure2 unsquash_map_ action action_space_struct.

(** The leaf function [map_] of [normalize_action], on idealised numbers
    like [unsquash_map_] (for [float32] see [f32.normalize]). *)
Definition normalize_map_ (a : np.ndarray) (s : Space) : result np.ndarray :=
  match s with
  | Box low high _ dtype =>
      if bool_decide (dtype = np.float32) || bool_decide (dtype = np.float64)
      then
        let* n := np.subtract a low in
        let* d := np.subtract high low in
        let* q := np.true_divide
                    (np.with_pyfloat (fun x => xmul x (Fin 2)) n) d in
        Ok (np.with_pyfloat (fun x => xsub x (Fin 1)) q)
      else Ok a
  | _ => Ok a
  end.

Definition normalize_action (action : struct np.ndarray)
    (action_space_struct : struct Space) : result (struct np.ndarray) :=
  map_structure2 normalize_map_ action action_space_struct.

(** ** [get_dummy_batch_for_space] *)

(** The argument [fill_value]: a number, or the string ["random"]. *)
Inductive fill : Type :=
  | FillValue (v : xq)
  | Random.

(** The shape entry for Python integer [z] (used only when positive). *)
Definition dim (z : Z) : nat := Z.to_nat z.

Definition xq_to_nat (x : xq) : nat :=
  match x with
  | Fin q => Z.to_nat (Qfloor q)
  | _ => 0
  end.

Section DummyBatch.

(** [space.sample()] draws from the random generator of the space: the
    generator state [rng] is threaded through the calls. *)
Variable rng : Type.
Variable sample : Space -> rng -> np.ndarray * rng.

(** Computations that may raise and that use the generator. *)
Definition M (A : Type) : Type := rng -> result A * rng.

Definition retM {A} (a : A) : M A := fun g => (Ok a, g).
Definition raiseM {A} (e : exn) : M A := fun g => (Raise e, g).
Definition liftM {A} (r : result A) : M A := fun g => (r, g).
Definition bindM {A B} (m : M A) (k : A -> M B) : M B :=
  fun g =>
    match m g with
    | (Ok a, g') => k a g'
    | (Raise e, g') => (Raise e, g')
    end.

#[local] Notation "'do*' x ':=' c1 'in' c2" := (bindM c1 (fun x => c2))
  (at level 10, x name, c1 at level 100, c2 at level 200).

Definition sampleM (space : Space) : M np.ndarray :=
  fun g => let (a, g') := sample space g in (Ok a, g').

(** [[m for _ in range(n)]] *)
Fixpoint repeatM {A} (n : nat) (m : M A) : M (list A) :=
  match n with
  | 0 => retM []
  | S n' => do* x := m in do* xs := repeatM n' m in retM (x :: xs)
  end.

Fixpoint mapM_st {A B} (f : A -> M B) (l : list A) : M (list B) :=
  match l with
  | [] => retM []
  | x :: l' => do* y := f x in do* ys := mapM_st f l' in retM (y :: ys)
  end.

(** [tree.map_structure(func, structure)] for a [func] that uses the
    generator. *)
Definition map_structure_st {A B} (func : A -> M B)
    (structure : struct A) : M (struct B) :=
  do* rs := mapM_st func (flatten structure) in
  liftM (unflatten_as structure rs).

(** The call on a primitive space: the part of the function below the
    composite case. *)
Definition dummy_batch_primitive (space : Space) (batch_size : Z)
    (fill_value : fill) (time_size : option Z) (time_major : bool)
    (one_hot_discrete : bool) : M np.ndarray :=
  let space :=
    if one_hot_discrete then
      match space with
      | Discrete n _ =>
          Box (np.full [dim n] (Fin 0) np.float32)
              (np.full [dim n] (Fin 1) np.float32) [dim n] np.float32
      | MultiDiscrete nvec _ =>
          let w := xq_to_nat (np.sum nvec) in
          Box (np.full [w] (Fin 0) np.float32)
              (np.full [w] (Fin 1) np.float32) [w] np.float32
      | _ => space
      end
    else space in
  match fill_value with
  | Random =>
      match time_size with
      | Some time_size =>
          if (0 <? batch_size)%Z && (0 <? time_size)%Z then
            if time_major then
              do* rows := repeatM (dim time_size)
                (repeatM (dim batch_size) (sampleM space)) in
              liftM (np.array2 rows (Space_dtype space))
            else
              do* rows := repeatM (dim batch_size)
                (repeatM (dim time_size) (sampleM space)) in
              liftM (np.array2 rows (Space_dtype space))
          else raiseM AssertionError
      | None =>
          if (0 <? batch_size)%Z then
            do* r := repeatM (dim batch_size) (sampleM space) in
            liftM (np.array r (Space_dtype space))
          else
            do* a := sampleM space in
            retM (np.astype a (Space_dtype space))
      end
  | FillValue v =>
      do* shape :=
        match time_size with
        | Some time_size =>
            if (0 <? batch_size)%Z && (0 <? time_size)%Z then
              if time_major then retM [dim time_size; dim batch_size]
              else retM [dim batch_size; dim time_size]
            else raiseM AssertionError
        | None => retM (if (0 <? batch_size)%Z then [dim batch_size] else [])
        end in
      retM (np.full (shape ++ Space_shape space) v (Space_dtype space))
  end.

(** A composite space is turned into its base struct, and the function
    is called again on every leaf, which is a primitive space. *)
Definition get_dummy_batch_for_space (space : Space) (batch_size : Z)
    (fill_value : fill) (time_size : option Z) (time_major : bool)
    (one_hot_discrete : bool) : M (struct np.ndarray) :=
  if is_composite space then
    let base_struct := get_base_struct_from_space space in
    map_structure_st
      (fun s => dummy_batch_primitive s batch_size fill_value time_size
                  time_major one_hot_discrete)
      base_struct
  else
    do* a := dummy_batch_primitive space batch_size fill_value time_size
               time_major one_hot_discrete in
    retM (Leaf a).

End DummyBatch.

(** ** [flatten_to_single_ndarray] *)

Definition flatten_to_single_ndarray (input_ : struct np.ndarray)
    : result np.ndarray :=
  match input_ with
  | Leaf a => Ok a
  | _ =>
      let expanded := map np.reshape_1d (flatten input_) in
      let* c := np.concatenate expanded in
      Ok (np.ndarray_flatten c)
  end.

(** ** [get_original_space] *)

(** A space object together with its attribute [original_space], when it
    has one. *)
Inductive SpaceObj : Type :=
  | mkSpaceObj (space : Space) (original_space : option SpaceObj).

Fixpoint get_original_space (space : SpaceObj) : SpaceObj :=
  match space with
  | mkSpaceObj _ (Some original_space) => get_original_space original_space
  | mkSpaceObj _ None => space
  end.

(** [hasattr(space, "original_space")] *)
Definition has_original_space (space : SpaceObj) : bool :=
  match space with
  | mkSpaceObj _ (Some _) => true
  | mkSpaceObj _ None => false
  end.

(** ** The environment [ParrotEnv] of [rllib_on_rllib_readme.py] *)

(** Python's builtin [sum] on an array: the items [a[0]], [a[1]], ... are
    added to the integer 0, one after the other. *)
Fixpoint add_all (acc : np.ndarray) (items : list np.ndarray)
    : result np.ndarray :=
  match items with
  | [] => Ok acc
  | x :: rest => let* acc' := np.add acc x in add_all acc' rest
  end.

Definition py_sum (a : np.ndarray) : result np.ndarray :=
  let* n :=
    match np.shape a with
    | [] => Raise (TypeError "iteration over a 0-d array")
    | n :: _ => Ok n
    end in
  let* items := mapM (np.getitem a) (seq 0 n) in
  match items with
  | [] => Ok (np.scalar np.int64 (Fin 0))
  | x :: rest => add_all (np.with_pyint (fun v => xadd (Fin 0) v) x) rest
  end.

Record ParrotEnv : Type := mkParrotEnv {
  action_space : Space;
  observation_space : Space;
  cur_obs : option np.ndarray;
  episode_len : Z
}.

(** [ParrotEnv(config)] *)
Definition ParrotEnv_init (config : gmap string Space) : ParrotEnv :=
  let action_space :=
    default (Box (np.full [1] (Fin (-1)) np.float32)
               (np.full [1] (Fin 1) np.float32) [1] np.float32)
      (config !! "parrot_shriek_range") in
  mkParrotEnv action_space action_space None 0.

(** [-sum(abs(self.cur_obs - action))] *)
Definition ParrotEnv_reward (cur_obs : option np.ndarray)
    (action : np.ndarray) : result np.ndarray :=
  match cur_obs with
  | None =>
      Raise (TypeError "unsupported operand type(s) for -: 'NoneType'")
  | Some obs =>
      let* d := np.subtract obs action in
      let* s := py_sum (np.absolute d) in
      Ok (np.negative s)
  end.

Section ParrotEnv.

Variable rng : Type.
Variable sample : Space -> rng -> np.ndarray * rng.

(** [env.reset()]: the observation, the environment after the call and
    the generator after the call. *)
Definition ParrotEnv_reset (self : ParrotEnv) (g : rng)
    : np.ndarray * ParrotEnv * rng :=
  let '(obs, g') := sample (observation_space self) g in
  (obs,
   mkParrotEnv (action_space self) (observation_space self) (Some obs) 0,
   g').

(** [env.step(action)]: the observation, the reward and the flags
    [terminated] and [truncated], or the exception raised; the
    environment and the generator after the call. *)
Definition ParrotEnv_step (self : ParrotEnv) (action : np.ndarray) (g : rng)
    : result (np.ndarray * np.ndarray * bool * bool) * ParrotEnv * rng :=
  let episode_len := (episode_len self + 1)%Z in
  let self1 :=
    mkParrotEnv (action_space self) (observation_space self) (cur_obs self)
      episode_len in
  let terminated := (10 <=? episode_len)%Z in
  let truncated := terminated in
  match ParrotEnv_reward (cur_obs self1) action with
  | Raise e => (Raise e, self1, g)
  | Ok reward =>
      let '(obs, g') := sample (observation_space self1) g in
      (Ok (obs, reward, terminated, truncated),
       mkParrotEnv (action_space self1) (observation_space self1) (Some obs)
         episode_len,
       g')
  end.

End ParrotEnv.

(** ** Definitions used by the specifications and the proofs *)

Fixpoint Space_size (s : Space) : nat :=
  match s with
  | Tuple l => S (foldr Nat.add 0 (map Space_size l))
  | Dict m => S (map_fold (fun _ n acc => n + acc) 0 (Space_size <$> m))
  | _ => 1
  end.

(** The entries of a dict in ascending key order. *)
Definition sorted_items {A} (m : gmap string A) : list (string * A) :=
  omap (fun k => (fun x => (k, x)) <$> m !! k) (sorted_keys m).

(** The specification: a depth-first traversal that emits the
    non-composite leaves, the elements of a [Tuple] in positional order
    and the entries of a [Dict] in ascending key order. *)
Inductive dfs_leaves : Space -> list Space -> Prop :=
  | dfs_leaf s :
      is_composite s = false -> dfs_leaves s [s]
  | dfs_tuple spaces ls :
      Forall2 dfs_leaves spaces ls ->
      dfs_leaves (Tuple spaces) (concat ls)
  | dfs_dict spaces entries ls :
      entries ≡ₚ map_to_list spaces ->
      StronglySorted String.le entries.*1 ->
      Forall2 dfs_leaves entries.*2 ls ->
      dfs_leaves (Dict spaces) (concat ls).

Fixpoint struct_size {A} (s : struct A) : nat :=
  match s with
  | Leaf _ => 1
  | Tup l => S (foldr Nat.add 0 (map struct_size l))
  | Dct m => S (map_fold (fun _ n acc => n + acc) 0 (struct_size <$> m))
  end.

(** What packing a structure [c] does to a flat sequence that is long
    enough. *)
Definition pack_ok {A} (B : Type) (c : struct A) : Prop :=
  forall flat : list B, length (flatten c) <= length flat ->
  exists t, pack c flat = Some (t, drop (length (flatten c)) flat)
    /\ flatten t = take (length (flatten c)) flat
    /\ topology t = topology c.

(** The leaf [a] conforms to its descriptor [s]: the bounds of a [Box]
    have the shape of the [Box], and the shape of the value can be
    broadcast with it (the value has the shape of the [Box], possibly
    with leading batch axes). *)
Definition conforms (a : np.ndarray) (s : Space) : Prop :=
  match s with
  | Box low high shape _ =>
      np.shape low = shape /\ np.shape high = shape
      /\ is_Some (np.broadcast_shapes (np.shape a) shape)
  | _ => True
  end.

(** An action with a batch of two values for the key ["a"], and its
    descriptor structure. *)
Definition ex_action : struct np.ndarray :=
  Dct (<["a" := Leaf (np.NdArray [2] np.float32 [Fin 3; Fin (1 # 2)] false)]>
       (<["b" := Tup [Leaf (np.scalar np.int64 (Fin 0))]]> ∅)).
Definition ex_space : struct Space :=
  Dct (<["a" := Leaf (Box (np.scalar np.float32 (Fin 0))
                         (np.scalar np.float32 (Fin 1)) [] np.float32)]>
       (<["b" := Tup [Leaf (Discrete 3 1)]]> ∅)).



(** The size of the leading axis; 0 for a 0-d array, which has none. *)
Definition leading_dim (a : np.ndarray) : nat := hd 0 (np.shape a).

(** A space and a source of samples for the examples: a [Box] of shape
    [(1,)], and a generator without state that always draws zeros. *)
Definition ex_box1 : Space :=
  Box (np.full [1] NInf np.float32) (np.full [1] PInf np.float32)
    [1] np.float32.

Definition ex_sample (s : Space) (g : unit) : np.ndarray * unit :=
  (np.full (Space_shape s) (Fin 0) (Space_dtype s), g).



Definition unsquash_value (l h x : xq) : xq :=
  xmin (xmax (xadd l (xdiv (xmul (xadd x (Fin 1)) (xsub h l)) (Fin 2))) l) h.

Definition normalize_value (l h x : xq) : xq :=
  xsub (xdiv (xmul (xsub x l) (Fin 2)) (xsub h l)) (Fin 1).

(** The elements of the value and of the two bounds, position by
    position. *)
Definition triples (a low high : np.ndarray) : list (xq * (xq * xq)) :=
  zip (np.data a) (zip (np.data low) (np.data high)).

Definition is_float (dt : np.dtype) : bool :=
  bool_decide (dt = np.float32) || bool_decide (dt = np.float64).

(** The bounds are finite with [low <= high]. *)
Definition ordered_bounds (l h : xq) : bool :=
  is_finite l && is_finite h && xleb l h.

(** The formulas of [unsquash_action] and of [normalize_action] on one
    element of a [float32] array, in IEEE binary32 arithmetic (24 bits of
    precision, rounding to nearest, ties to even): on arrays of dtype
    [float32] numpy computes every operation of
    [s.low + (a + 1.0) * (s.high - s.low) / 2.0], of [np.clip] and of
    [((a - s.low) * 2.0) / (s.high - s.low) - 1.0] in [float32], the
    Python constants being converted to it. *)
Module f32.

Definition prec : Z := 24.
Definition emax : Z := 128.


Definition add := SpecFloat.SFadd prec emax.
Definition mul := SpecFloat.SFmul prec emax.

(** [np.maximum] and [np.minimum] propagate [nan]. *)
Definition maximum (x y : SpecFloat.spec_float) : SpecFloat.spec_float :=
  match SpecFloat.SFcompare x y with
  | Some Lt => y
  | Some _ => x
  | None => SpecFloat.S754_nan
  end.

Definition minimum (x y : SpecFloat.spec_float) : SpecFloat.spec_float :=
  match SpecFloat.SFcompare x y with
  | Some Gt => y
  | Some _ => x
  | None => SpecFloat.S754_nan
  end.



End f32.

(** The arrays of a column: one shape, one dtype, well formed, not
    marked as batched. *)
Definition uniform (sh : list nat) (dt : np.dtype) (a : np.ndarray) : Prop :=
  np.shape a = sh /\ np.adtype a = dt /\ np.wf a /\ np.batched a = false.

(** The item [s] can be stacked with the item [first]: the same topology,
    co-located leaves of the same shape and dtype, and leaves that are
    well formed and not marked as batched. *)
Definition stackable (first s : struct np.ndarray) : Prop :=
  topology s = topology first
  /\ map np.shape (flatten s) = map np.shape (flatten first)
  /\ map np.adtype (flatten s) = map np.adtype (flatten first)
  /\ Forall (fun a => np.wf a /\ np.batched a = false) (flatten s).

(** The function mapped by [batch] over the columns, in stack mode. *)
Definition stack_leaves (s : list np.ndarray) : result np.ndarray :=
  let* r := np.stack s in Ok (np.ascontiguousarray r).

(** The leaves of the items, one row per item, and their columns: the
    co-located leaves that [batch] hands to the stacking function. *)
Definition leaf_rows (items : list (struct np.ndarray))
    : list (list np.ndarray) :=
  map flatten items.

Definition leaf_columns (items : list (struct np.ndarray))
    : list (list np.ndarray) :=
  zip_star (leaf_rows items).

(** The batch items of the example in the documentation of [batch]. *)
Definition ex_item (a b c : Z) : struct np.ndarray :=
  Dct (<["a" := Leaf (np.scalar np.int64 (xq_of_Z a))]>
       (<["b" := Tup [Leaf (np.scalar np.int64 (xq_of_Z b));
                      Leaf (np.scalar np.float64 (xq_of_Z c))]]> ∅)).

Definition ex_items : list (struct np.ndarray) :=
  [ex_item 1 4 7; ex_item 2 5 8; ex_item 3 6 9].

Definition ex_a : np.ndarray :=
  np.NdArray [2] np.float32 [Fin (1 # 2); Fin (-1)] false.
Definition ex_low : np.ndarray :=
  np.NdArray [2] np.float32 [Fin 0; Fin (-2)] false.
Definition ex_high : np.ndarray :=
  np.NdArray [2] np.float32 [Fin 1; Fin 2] false.

(** The batch of the example in the documentation of [batch]. *)
Definition ex_batch : struct np.ndarray :=
  Dct (<["a" := Leaf (np.NdArray [3] np.int64 [Fin 1; Fin 2; Fin 3] false)]>
       (<["b" := Tup [Leaf (np.NdArray [3] np.int64
                              [Fin 4; Fin 5; Fin 6] false);
                      Leaf (np.NdArray [3] np.float64
                              [Fin 7; Fin 8; Fin 9] false)]]> ∅)).

(** A leaf of a batch of size [n]: the leading dimension is [n], the
    elements fill the shape, and the array is not marked as batched. *)
Definition batch_leaf (n : nat) (a : np.ndarray) : Prop :=
  hd_error (np.shape a) = Some n /\ np.wf a /\ np.batched a = false.

(** The dimensions that [get_dummy_batch_for_space] puts in front of the
    shape of the space, for sizes that pass its assertion. *)
Definition batch_dims (batch_size : Z) (time_size : option Z)
    (time_major : bool) : list nat :=
  match time_size with
  | Some t =>
      if time_major then [dim t; dim batch_size] else [dim batch_size; dim t]
  | None => if (0 <? batch_size)%Z then [dim batch_size] else []
  end.

(** The space whose shape and dtype a leaf of the dummy batch has: with
    [one_hot_discrete] a discrete space counts as the [Box] of its one-hot
    vectors. *)
Definition dummy_space (one_hot_discrete : bool) (space : Space) : Space :=
  if one_hot_discrete then
    match space with
    | Discrete n _ =>
        Box (np.full [dim n] (Fin 0) np.float32)
            (np.full [dim n] (Fin 1) np.float32) [dim n] np.float32
    | MultiDiscrete nvec _ =>
        let w := xq_to_nat (np.sum nvec) in
        Box (np.full [w] (Fin 0) np.float32)
            (np.full [w] (Fin 1) np.float32) [w] np.float32
    | _ => space
    end
  else space.

(** [l <= x <= h] *)
Definition within (l h x : xq) : bool := xleb l x && xleb x h.

Section ParrotEnvEpisode.

Variable rng : Type.
Variable sample : Space -> rng -> np.ndarray * rng.

(** Calls of [env.step] one after the other, one per action of the list:
    what each call returns or raises, and the environment and the
    generator after the last call. *)
Fixpoint ParrotEnv_steps (self : ParrotEnv) (actions : list np.ndarray)
    (g : rng)
    : list (result (np.ndarray * np.ndarray * bool * bool))
      * ParrotEnv * rng :=
  match actions with
  | [] => ([], self, g)
  | action :: rest =>
      let '(out, self1, g1) := ParrotEnv_step rng sample self action g in
      let '(outs, self2, g2) := ParrotEnv_steps self1 rest g1 in
      (out :: outs, self2, g2)
  end.

(** An episode: [env.reset()] followed by the calls of [env.step]. *)
Definition ParrotEnv_episode (self : ParrotEnv) (actions : list np.ndarray)
    (g : rng)
    : list (result (np.ndarray * np.ndarray * bool * bool))
      * ParrotEnv * rng :=
  let '(_, self1, g1) := ParrotEnv_reset rng sample self g in
  ParrotEnv_steps self1 actions g1.

End ParrotEnvEpisode.

(** An array whose elements fill its shape and that is not marked as
    batched. *)
Definition plain (a : np.ndarray) : Prop := np.wf a /\ np.batched a = false.

(** A leaf of a batch of [n] actions conforms to its descriptor: its
    leading dimension is [n] and, for a [Box], the rest of its shape is
    the shape of the [Box] and of its bounds, with at least one axis (so
    that the rows are arrays, not scalars). *)
Definition batch_conforms (n : nat) (a : np.ndarray) (s : Space) : Prop :=
  batch_leaf n a
  /\ match s with
     | Box low high sh _ =>
         sh <> [] /\ np.shape a = n :: sh /\ np.shape low = sh
         /\ np.shape high = sh /\ plain low /\ plain high
     | _ => True
     end.

(** The leaf function [f] works row by row on the batch [a] of [n]
    rows: the rows of its result are its results on the rows. *)
Definition rows_commute (f : np.ndarray -> Space -> result np.ndarray)
    (n : nat) (a : np.ndarray) (s : Space) : Prop :=
  hd_error (np.shape a) = Some n
  /\ exists y, f a s = Ok y
       /\ hd_error (np.shape y) = Some n
       /\ forall i ai, np.getitem a i = Ok ai ->
            exists yi, f ai s = Ok yi /\ np.getitem y i = Ok yi.

(** * Proofs *)

(** ** Structural measure and induction for spaces *)

Lemma map_fold_add_lookup (m : gmap string nat) k n :
  m !! k = Some n -> n <= map_fold (fun _ n acc => n + acc) 0 m.
Proof.
  intros Hk. rewrite <- (insert_delete_id m k n Hk).
  rewrite map_fold_insert_L.
  - lia.
  - intros; lia.
  - apply lookup_delete_eq.
Qed.

Lemma Space_ind' (P : Space -> Prop) :
  (forall low high shape dtype, P (Box low high shape dtype)) ->
  (forall n start, P (Discrete n start)) ->
  (forall nvec start, P (MultiDiscrete nvec start)) ->
  (forall spaces, Forall P spaces -> P (Tuple spaces)) ->
  (forall spaces, map_Forall (fun _ => P) spaces -> P (Dict spaces)) ->
  forall s, P s.
Proof.
  intros HB HD HM HT HDi s.
  remember (Space_size s) as n eqn:Hn.
  revert s Hn. induction (lt_wf n) as [n _ IH]. intros s ->.
  destruct s as [| | |l|m]; auto.
  - apply HT. apply Forall_forall. intros x Hx.
    apply (IH (Space_size x)); [|done]. simpl.
    clear -Hx. induction Hx; simpl; lia.
  - apply HDi. intros k x Hk.
    apply (IH (Space_size x)); [|done]. simpl.
    assert ((Space_size <$> m) !! k = Some (Space_size x)) as H
      by (by rewrite lookup_fmap, Hk).
    apply map_fold_add_lookup in H. lia.
Qed.

(** ** Sorted keys *)

Section sorted_keys.
Context {A : Type} (m : gmap string A).

Lemma sorted_keys_Permutation : sorted_keys m ≡ₚ elements (dom m).
Proof. apply merge_sort_Permutation. Qed.

Lemma elem_of_sorted_keys k : k ∈ sorted_keys m <-> is_Some (m !! k).
Proof.
  rewrite sorted_keys_Permutation, elem_of_elements. apply elem_of_dom.
Qed.

Lemma NoDup_sorted_keys : NoDup (sorted_keys m).
Proof. rewrite sorted_keys_Permutation. apply NoDup_elements. Qed.

Lemma StronglySorted_sorted_keys : StronglySorted String.le (sorted_keys m).
Proof. apply (StronglySorted_merge_sort _). Qed.

Lemma sorted_keys_fmap {B} (f : A -> B) : sorted_keys (f <$> m) = sorted_keys m.
Proof. unfold sorted_keys. by rewrite dom_fmap_L. Qed.

(** Any ascending enumeration of the keys is [sorted_keys]. *)
Lemma sorted_keys_unique (ks : list string) :
  ks ≡ₚ (map_to_list m).*1 -> StronglySorted String.le ks ->
  ks = sorted_keys m.
Proof.
  intros Hp Hs. apply (StronglySorted_unique String.le); [done| |].
  - apply StronglySorted_sorted_keys.
  - rewrite Hp, sorted_keys_Permutation.
    apply NoDup_Permutation.
    + apply NoDup_fst_map_to_list.
    + apply NoDup_elements.
    + intros k. rewrite elem_of_elements, elem_of_dom.
      rewrite list_elem_of_fmap. split.
      * intros [[k' x] [-> Hx]]. apply elem_of_map_to_list in Hx. by exists x.
      * intros [x Hx]. exists (k, x). split; [done|]. by apply elem_of_map_to_list.
Qed.
End sorted_keys.

Lemma sorted_items_fst {A} (m : gmap string A) :
  (sorted_items m).*1 = sorted_keys m.
Proof.
  unfold sorted_items.
  assert (Forall (fun k => is_Some (m !! k)) (sorted_keys m)) as H.
  { apply Forall_forall. intros k. apply elem_of_sorted_keys. }
  induction H as [|k ks [x Hx] _ IH]; [done|]. simpl. rewrite Hx. simpl.
  by f_equal.
Qed.

Lemma elem_of_sorted_items {A} (m : gmap string A) k x :
  (k, x) ∈ sorted_items m <-> m !! k = Some x.
Proof.
  unfold sorted_items. rewrite list_elem_of_omap. split.
  - intros (k' & _ & Hk). destruct (m !! k') eqn:E; simplify_eq/=. done.
  - intros Hk. exists k. split; [apply elem_of_sorted_keys; eauto|].
    by rewrite Hk.
Qed.

Lemma sorted_items_Permutation {A} (m : gmap string A) :
  sorted_items m ≡ₚ map_to_list m.
Proof.
  apply NoDup_Permutation.
  - eapply NoDup_fmap_1 with (f := fst). rewrite sorted_items_fst.
    apply NoDup_sorted_keys.
  - apply NoDup_map_to_list.
  - intros [k x]. by rewrite elem_of_sorted_items, elem_of_map_to_list.
Qed.

(** An ascending enumeration of the entries is [sorted_items]. *)
Lemma sorted_items_unique {A} (m : gmap string A) (es : list (string * A)) :
  es ≡ₚ map_to_list m -> StronglySorted String.le es.*1 ->
  es = sorted_items m.
Proof.
  intros Hp Hs.
  assert (es.*1 = sorted_keys m) as Hk.
  { apply sorted_keys_unique; [by rewrite Hp|done]. }
  assert (forall k x, (k, x) ∈ es -> m !! k = Some x) as He.
  { intros k x Hx. rewrite Hp in Hx. by apply elem_of_map_to_list. }
  unfold sorted_items. rewrite <- Hk. clear Hk Hp Hs.
  induction es as [|[k x] es IH]; [done|]. simpl.
  rewrite (He k x) by left. simpl. f_equal. apply IH.
  intros k' x' H'. apply He. by right.
Qed.

(** ** [flatten_space] *)

Lemma fold_left_helper_tuple (l : list Space) (ret : list Space) :
  Forall (fun s => forall acc, _helper_flatten s acc = acc ++ flatten_space s) l ->
  fold_left (fun acc s => _helper_flatten s acc) l ret
  = ret ++ concat (map flatten_space l).
Proof.
  intros H. revert ret. induction H as [|s l Hs _ IH]; intros ret; simpl.
  - by rewrite app_nil_r.
  - rewrite IH, Hs. by rewrite <- app_assoc.
Qed.

Lemma fold_left_helper_dict (m : gmap string Space) ks (ret : list Space) :
  map_Forall (fun _ s => forall acc, _helper_flatten s acc = acc ++ flatten_space s) m ->
  fold_left (fun acc k => default id ((_helper_flatten <$> m) !! k) acc) ks ret
  = ret ++ concat (map (fun k => default [] (flatten_space <$> m !! k)) ks).
Proof.
  intros H. revert ret. induction ks as [|k ks IH]; intros ret; simpl.
  - by rewrite app_nil_r.
  - rewrite IH, lookup_fmap. destruct (m !! k) as [s|] eqn:E; simpl.
    + rewrite (H k s E). by rewrite <- app_assoc.
    + done.
Qed.

Lemma _helper_flatten_app s : forall acc,
  _helper_flatten s acc = acc ++ flatten_space s.
Proof.
  induction s as [| | |l IH|m IH] using Space_ind'; intros acc; try done.
  - unfold flatten_space. simpl.
    by rewrite !fold_left_helper_tuple.
  - unfold flatten_space. simpl.
    by rewrite !fold_left_helper_dict.
Qed.

Lemma flatten_space_Tuple l :
  flatten_space (Tuple l) = concat (map flatten_space l).
Proof.
  unfold flatten_space at 1. simpl. rewrite fold_left_helper_tuple; [done|].
  apply Forall_forall. intros. apply _helper_flatten_app.
Qed.

Lemma flatten_space_Dict m :
  flatten_space (Dict m) = concat (map (fun e => flatten_space e.2) (sorted_items m)).
Proof.
  unfold flatten_space at 1. simpl. rewrite fold_left_helper_dict.
  2:{ intros k s _. apply _helper_flatten_app. }
  simpl. f_equal. rewrite <- sorted_items_fst.
  assert (forall k x, (k, x) ∈ sorted_items m -> m !! k = Some x) as He.
  { intros k x. apply elem_of_sorted_items. }
  induction (sorted_items m) as [|[k x] es IH]; [done|]. simpl.
  rewrite (He k x) by left. simpl. f_equal. apply IH.
  intros k' x' H'. apply He. by right.
Qed.

Lemma flatten_space_leaf s : is_composite s = false -> flatten_space s = [s].
Proof. by destruct s. Qed.

Lemma dfs_leaves_flatten_space s : dfs_leaves s (flatten_space s).
Proof.
  induction s as [| | |l IH|m IH] using Space_ind';
    try (by apply dfs_leaf).
  - rewrite flatten_space_Tuple. apply dfs_tuple.
    induction IH; simpl; by constructor.
  - rewrite flatten_space_Dict.
    apply dfs_dict with (entries := sorted_items m).
    + apply sorted_items_Permutation.
    + rewrite sorted_items_fst. apply StronglySorted_sorted_keys.
    + assert (forall k x, (k, x) ∈ sorted_items m -> m !! k = Some x) as He.
      { intros k x. apply elem_of_sorted_items. }
      induction (sorted_items m) as [|[k x] es IHes]; simpl; constructor.
      * apply (IH k x), He. by left.
      * apply IHes. intros k' x' H'. apply He. by right.
Qed.

Lemma dfs_leaves_unique s : forall l, dfs_leaves s l -> l = flatten_space s.
Proof.
  induction s as [| | |l IH|m IH] using Space_ind'; intros out H;
    try (by inversion H).
  - inversion H as [? Hc| ? ls HF |]; subst; [done|].
    rewrite flatten_space_Tuple. f_equal.
    clear H. induction HF as [|s out l ls Hs _ IHF]; [done|].
    apply Forall_cons in IH as [IHs IHl]. simpl. f_equal; auto.
  - inversion H as [? Hc| | ? es ls Hp Hs HF]; subst; [done|].
    rewrite flatten_space_Dict. f_equal.
    rewrite <- (sorted_items_unique m es Hp Hs).
    assert (forall k x, (k, x) ∈ es -> m !! k = Some x) as He.
    { intros k x Hx. rewrite Hp in Hx. by apply elem_of_map_to_list. }
    clear H Hp Hs. revert ls HF.
    induction es as [|[k x] es IHes]; intros ls HF; inversion HF; subst; [done|].
    simpl. f_equal.
    + eapply IH; [|done]. apply He. by left.
    + apply IHes; [|done]. intros k' x' H'. apply He. by right.
Qed.

Lemma flatten_space_no_composite s :
  Forall (fun x => is_composite x = false) (flatten_space s).
Proof.
  induction s as [| | |l IH|m IH] using Space_ind';
    try (by repeat constructor).
  - rewrite flatten_space_Tuple. apply Forall_concat, Forall_fmap.
    eapply Forall_impl; [exact IH|]. done.
  - rewrite flatten_space_Dict. apply Forall_concat, Forall_fmap.
    apply Forall_forall. intros [k x] Hx. simpl.
    apply (IH k x). by apply elem_of_sorted_items.
Qed.

(** C9. [flatten_space] returns exactly the leaves of the depth-first
    traversal that visits [Tuple] elements in positional order and [Dict]
    entries in ascending key order, and none of them is a [Tuple] or a
    [Dict]. *)
Theorem flatten_space_dfs (s : Space) :
  dfs_leaves s (flatten_space s)
  /\ (forall l, dfs_leaves s l -> l = flatten_space s)
  /\ Forall (fun x => is_composite x = false) (flatten_space s).
Proof.
  split; [apply dfs_leaves_flatten_space|].
  split; [apply dfs_leaves_unique|apply flatten_space_no_composite].
Qed.

(** ** Dicts through their sorted entries *)

Lemma map_sorted_keys_lookup {A B} (m : gmap string A) (f : A -> B) (d : B) :
  map (fun k => default d (f <$> m !! k)) (sorted_keys m)
  = map f (sorted_items m).*2.
Proof.
  rewrite <- sorted_items_fst.
  assert (forall k x, (k, x) ∈ sorted_items m -> m !! k = Some x) as He.
  { intros k x. apply elem_of_sorted_items. }
  induction (sorted_items m) as [|[k x] es IH]; [done|]. simpl.
  rewrite (He k x) by left. simpl. f_equal. apply IH.
  intros k' x' H'. apply He. by right.
Qed.

Lemma sorted_items_zip {A} (m : gmap string A) :
  sorted_items m = zip (sorted_keys m) (sorted_items m).*2.
Proof. rewrite <- sorted_items_fst. by rewrite zip_fst_snd. Qed.

Lemma length_sorted_items_snd {A} (m : gmap string A) :
  length (sorted_items m).*2 = length (sorted_keys m).
Proof. by rewrite <- sorted_items_fst, !length_fmap. Qed.

Lemma list_to_map_sorted_items {A} (m : gmap string A) :
  list_to_map (sorted_items m) = m.
Proof.
  rewrite <- (list_to_map_to_list m) at 2.
  apply list_to_map_proper; [|apply sorted_items_Permutation].
  rewrite sorted_items_fst. apply NoDup_sorted_keys.
Qed.

(** A dict built from entries with ascending distinct keys has these
    entries as its sorted entries. *)
Lemma sorted_items_list_to_map {A} (es : list (string * A)) :
  NoDup es.*1 -> StronglySorted String.le es.*1 ->
  sorted_items (list_to_map es : gmap string A) = es.
Proof.
  intros Hnd Hs. symmetry. apply sorted_items_unique; [|done].
  symmetry. by apply map_to_list_to_map.
Qed.

Lemma sorted_items_of_zip {A B} (m : gmap string A) (vs : list B) :
  length vs = length (sorted_keys m) ->
  sorted_items (list_to_map (zip (sorted_keys m) vs) : gmap string B)
  = zip (sorted_keys m) vs.
Proof.
  intros Hl. apply sorted_items_list_to_map.
  - rewrite fst_zip by lia. apply NoDup_sorted_keys.
  - rewrite fst_zip by lia. apply StronglySorted_sorted_keys.
Qed.

Lemma sorted_keys_of_zip {A B} (m : gmap string A) (vs : list B) :
  length vs = length (sorted_keys m) ->
  sorted_keys (list_to_map (zip (sorted_keys m) vs) : gmap string B)
  = sorted_keys m.
Proof.
  intros Hl. rewrite <- sorted_items_fst, sorted_items_of_zip by done.
  apply fst_zip. lia.
Qed.

Lemma sorted_items_fmap {A B} (f : A -> B) (m : gmap string A) :
  sorted_items (f <$> m) = prod_map id f <$> sorted_items m.
Proof.
  symmetry. apply sorted_items_unique.
  - rewrite map_to_list_fmap. apply fmap_Permutation, sorted_items_Permutation.
  - rewrite <- list_fmap_compose.
    replace (fst ∘ prod_map id f) with (@fst string A) by done.
    rewrite sorted_items_fst. apply StronglySorted_sorted_keys.
Qed.

Lemma sorted_items_fmap_snd {A B} (f : A -> B) (m : gmap string A) :
  (sorted_items (f <$> m)).*2 = map f (sorted_items m).*2.
Proof.
  rewrite sorted_items_fmap, <- !list_fmap_compose. done.
Qed.

(** Two dicts with the same keys and the same values in key order are
    equal. *)
Lemma dict_eq {A} (m1 m2 : gmap string A) :
  sorted_keys m1 = sorted_keys m2 ->
  (sorted_items m1).*2 = (sorted_items m2).*2 ->
  m1 = m2.
Proof.
  intros Hk Hv. rewrite <- (list_to_map_sorted_items m1),
    <- (list_to_map_sorted_items m2).
  by rewrite (sorted_items_zip m1), (sorted_items_zip m2), Hk, Hv.
Qed.

(** ** Structural induction for nested structures *)

Lemma struct_ind' {A} (P : struct A -> Prop) :
  (forall a, P (Leaf a)) ->
  (forall l, Forall P l -> P (Tup l)) ->
  (forall m, Forall P (sorted_items m).*2 -> P (Dct m)) ->
  forall s, P s.
Proof.
  intros HL HT HD s.
  remember (struct_size s) as n eqn:Hn.
  revert s Hn. induction (lt_wf n) as [n _ IH]. intros s ->.
  destruct s as [a|l|m]; auto.
  - apply HT. apply Forall_forall. intros x Hx.
    apply (IH (struct_size x)); [|done]. simpl.
    clear -Hx. induction Hx; simpl; lia.
  - apply HD. apply Forall_forall. intros x Hx.
    apply list_elem_of_fmap in Hx as [[k x'] [-> Hx]].
    apply elem_of_sorted_items in Hx. simpl.
    apply (IH (struct_size x')); [|done]. simpl.
    assert ((struct_size <$> m) !! k = Some (struct_size x')) as H
      by (by rewrite lookup_fmap, Hx).
    apply map_fold_add_lookup in H. lia.
Qed.

(** The functions of [tree] on a dict, through its sorted entries. *)

Lemma flatten_Dct {A} (m : gmap string (struct A)) :
  flatten (Dct m) = concat (map flatten (sorted_items m).*2).
Proof. simpl. f_equal. rewrite <- map_sorted_keys_lookup with (d := []).
  apply map_ext. intros k. by rewrite lookup_fmap. Qed.

Lemma pack_Dct {A B} (m : gmap string (struct A)) (flat : list B) :
  pack (Dct m) flat
  = '(cs, r) ← pack_seq (map pack (sorted_items m).*2) flat;
    Some (Dct (list_to_map (zip (sorted_keys m) cs)), r).
Proof.
  simpl. rewrite <- map_sorted_keys_lookup with (d := fun _ => None).
  do 2 f_equal. apply map_ext. intros k. by rewrite lookup_fmap.
Qed.

Lemma topology_Dct_inv {A B} (m1 : gmap string (struct A))
    (m2 : gmap string (struct B)) :
  topology (Dct m1) = topology (Dct m2) ->
  sorted_keys m1 = sorted_keys m2
  /\ map topology (sorted_items m1).*2 = map topology (sorted_items m2).*2.
Proof.
  intros H.
  assert (topology <$> m1 = topology <$> m2) as H' by (by injection H).
  split.
  - by rewrite <- (sorted_keys_fmap m1 topology), H', sorted_keys_fmap.
  - by rewrite <- !sorted_items_fmap_snd, H'.
Qed.

Lemma topology_Dct_intro {A B} (m1 : gmap string (struct A))
    (m2 : gmap string (struct B)) :
  sorted_keys m1 = sorted_keys m2 ->
  map topology (sorted_items m1).*2 = map topology (sorted_items m2).*2 ->
  topology (Dct m1) = topology (Dct m2).
Proof.
  intros Hk Hv.
  assert (topology <$> m1 = topology <$> m2) as H'.
  { apply dict_eq.
    - by rewrite !sorted_keys_fmap.
    - by rewrite !sorted_items_fmap_snd. }
  unfold topology in *. simpl. by f_equal.
Qed.

(** ** The error monad *)

Lemma bind_Ok {A B} (r : result A) (k : A -> result B) b :
  bind r k = Ok b <-> exists a, r = Ok a /\ k a = Ok b.
Proof. destruct r; simpl; split; [eauto| |done|]; intros (? & ? & ?); by simplify_eq. Qed.

Lemma bind_Raise {A B} (r : result A) (k : A -> result B) e :
  bind r k = Raise e <-> r = Raise e \/ exists a, r = Ok a /\ k a = Raise e.
Proof.
  destruct r; simpl; split; eauto.
  - intros [?|(? & ? & ?)]; by simplify_eq.
  - intros [= ->]. by left.
  - intros [?|(? & ? & ?)]; by simplify_eq.
Qed.

Lemma mapM_Ok {A B} (f : A -> result B) l rs :
  mapM f l = Ok rs <-> Forall2 (fun x y => f x = Ok y) l rs.
Proof.
  revert rs. induction l as [|x l IH]; intros rs; simpl.
  - split; [intros [= <-]; constructor|by inversion 1].
  - rewrite bind_Ok. split.
    + intros (y & Hy & H). apply bind_Ok in H as (ys & Hys & [= <-]).
      constructor; [done|by apply IH].
    + inversion 1 as [|? y ? ys Hy Hys]; subst. exists y. split; [done|].
      apply IH in Hys. by rewrite Hys.
Qed.

Lemma mapM_Raise {A B} (f : A -> result B) l e :
  mapM f l = Raise e -> exists x, x ∈ l /\ f x = Raise e.
Proof.
  induction l as [|x l IH]; simpl; [done|].
  rewrite bind_Raise. intros [H|(y & Hy & H)].
  - exists x. split; [left|done].
  - apply bind_Raise in H as [H|(? & ? & ?)]; [|done].
    destruct (IH H) as (x' & ? & ?). exists x'. split; [by right|done].
Qed.

Lemma mapM_ext {A B} (f g : A -> result B) l :
  (forall x, x ∈ l -> f x = g x) -> mapM f l = mapM g l.
Proof.
  induction l as [|x l IH]; intros H; simpl; [done|].
  rewrite H by left. rewrite IH; [done|]. intros. apply H. by right.
Qed.

Lemma mapM_length {A B} (f : A -> result B) l rs :
  mapM f l = Ok rs -> length rs = length l.
Proof. rewrite mapM_Ok. intros H. symmetry. by eapply Forall2_length. Qed.

(** A failing element makes the whole comprehension fail, with the
    exception of the first failing element. *)
Lemma mapM_first_Raise {A B} (f : A -> result B) l1 x l2 e :
  Forall (fun y => is_ok (f y) = true) l1 -> f x = Raise e ->
  mapM f (l1 ++ x :: l2) = Raise e.
Proof.
  intros H Hx. induction H as [|y l1 Hy _ IH]; simpl.
  - by rewrite Hx.
  - destruct (f y); [|done]. simpl. by rewrite IH.
Qed.

(** ** Topology *)

Lemma topology_Tup_inv {A B} (l1 : list (struct A)) (l2 : list (struct B)) :
  topology (Tup l1) = topology (Tup l2) <->
  map topology l1 = map topology l2.
Proof.
  split; intros H; [by injection H|].
  unfold topology in *. simpl. by f_equal.
Qed.

Lemma map_eq_Forall2 {A B C} (f : A -> C) (g : B -> C) l1 l2 :
  map f l1 = map g l2 <-> Forall2 (fun x y => f x = g y) l1 l2.
Proof.
  revert l2. induction l1 as [|x l1 IH]; intros [|y l2]; simpl.
  - split; [constructor|done].
  - split; [done|inversion 1].
  - split; [done|inversion 1].
  - split.
    + intros [= ? ?]. constructor; [done|by apply IH].
    + inversion 1; subst. f_equal; [done|by apply IH].
Qed.

Lemma lookup_sorted_items_snd {A} (m : gmap string A) k x :
  m !! k = Some x -> x ∈ (sorted_items m).*2.
Proof.
  intros H. apply list_elem_of_fmap. exists (k, x). split; [done|].
  by apply elem_of_sorted_items.
Qed.

(** Structures of the same topology have the same number of leaves. *)
Lemma topology_flatten_length {A B} (s1 : struct A) : forall (s2 : struct B),
  topology s1 = topology s2 -> length (flatten s1) = length (flatten s2).
Proof.
  assert (forall (l1 : list (struct A)) (l2 : list (struct B)),
    Forall (fun s1 => forall s2 : struct B, topology s1 = topology s2 ->
      length (flatten s1) = length (flatten s2)) l1 ->
    map topology l1 = map topology l2 ->
    length (concat (map flatten l1)) = length (concat (map flatten l2))) as Hl.
  { intros l1 l2 IH H. apply map_eq_Forall2 in H.
    induction H as [|x y l1 l2 Hxy _ IHl]; [done|].
    apply Forall_cons in IH as [IHx IH]. simpl.
    rewrite !length_app. f_equal; auto. }
  induction s1 as [a|l1 IH|m1 IH] using struct_ind'; intros [b|l2|m2] H;
    try done.
  - simpl. apply Hl; [done|]. by apply topology_Tup_inv.
  - apply topology_Dct_inv in H as [_ H].
    rewrite !flatten_Dct. by apply Hl.
Qed.

(** ** [assert_same_structure] *)

Lemma all_ok_Ok l : Forall (fun r => r = Ok ()) l -> all_ok l = Ok ().
Proof. induction 1 as [|r l -> _ IH]; [done|]. done. Qed.

Lemma all_ok_Raise l e : all_ok l = Raise e -> Raise e ∈ l.
Proof.
  induction l as [|[[]|e'] l IH]; simpl; [done| |].
  - intros H. right. auto.
  - intros [= ->]. left.
Qed.

Lemma assert_same_structure_Ok {A B} (s1 : struct A) :
  forall (s2 : struct B),
  topology s1 = topology s2 -> assert_same_structure s1 s2 = Ok ().
Proof.
  induction s1 as [a|l1 IH|m1 IH] using struct_ind'; intros [b|l2|m2] H;
    try done.
  - apply topology_Tup_inv, map_eq_Forall2 in H. simpl.
    rewrite decide_True by (by eapply Forall2_length).
    apply all_ok_Ok.
    induction H as [|x y l1 l2 Hxy _ IHl]; [constructor|].
    apply Forall_cons in IH as [IHx IH]. simpl. constructor; auto.
  - assert (topology <$> m1 = topology <$> m2) as H' by (by injection H).
    simpl. rewrite decide_True.
    2:{ by rewrite <- (dom_fmap_L topology m1), H', dom_fmap_L. }
    apply all_ok_Ok, Forall_fmap, Forall_forall. intros k Hk. simpl.
    rewrite lookup_fmap.
    destruct (m1 !! k) as [c1|] eqn:E1; [|done]. simpl.
    destruct (m2 !! k) as [c2|] eqn:E2; [|done].
    rewrite Forall_forall in IH. apply IH.
    + by eapply lookup_sorted_items_snd.
    + assert ((topology <$> m1) !! k = (topology <$> m2) !! k) as Hkk
        by (by rewrite H').
      rewrite !lookup_fmap, E1, E2 in Hkk. by injection Hkk.
Qed.

Lemma assert_same_structure_Raise {A B} (s1 : struct A) :
  forall (s2 : struct B) e,
  assert_same_structure s1 s2 = Raise e ->
  e = structure_error \/ e = sequence_type_error.
Proof.
  induction s1 as [a|l1 IH|m1 IH] using struct_ind'; intros [b|l2|m2] e;
    simpl; try (intros [= <-]; auto; fail).
  - case_decide; [|intros [= <-]; auto].
    intros He%all_ok_Raise. clear H. revert l2 He.
    induction IH as [|x l1 Hx _ IHl]; intros [|y l2]; simpl;
      try (by intros ?%elem_of_nil).
    intros [He|He]%elem_of_cons; [by eapply Hx|by eapply IHl].
  - case_decide; [|intros [= <-]; auto].
    intros He%all_ok_Raise. apply list_elem_of_fmap in He as (k & He & Hk).
    rewrite lookup_fmap in He.
    destruct (m1 !! k) as [c1|] eqn:E1; [|done]. simpl in He.
    destruct (m2 !! k) as [c2|] eqn:E2; [|done].
    rewrite Forall_forall in IH. eapply IH; [|by symmetry].
    by eapply lookup_sorted_items_snd.
Qed.

(** ** [pack] and [unflatten_as] *)

Lemma pack_seq_spec {A B} (cs : list (struct A)) :
  Forall (pack_ok B) cs ->
  forall flat : list B,
  length (concat (map flatten cs)) <= length flat ->
  exists ts,
    pack_seq (map pack cs) flat
      = Some (ts, drop (length (concat (map flatten cs))) flat)
    /\ concat (map flatten ts)
       = take (length (concat (map flatten cs))) flat
    /\ map topology ts = map topology cs.
Proof.
  induction 1 as [|c cs Hc _ IH]; intros flat Hlen; simpl in *.
  - exists []. by rewrite drop_0, take_0.
  - rewrite length_app in Hlen.
    destruct (Hc flat) as (t & Ht & Hft & Htt); [lia|].
    destruct (IH (drop (length (flatten c)) flat)) as (ts & Hts & Hfts & Htts).
    { rewrite length_drop. lia. }
    exists (t :: ts). rewrite Ht. simpl. rewrite Hts. simpl.
    rewrite length_app, drop_drop. split; [done|]. split.
    + rewrite Hft, Hfts. by rewrite take_take_drop.
    + by rewrite Htt, Htts.
Qed.

Lemma pack_spec {A B} (s : struct A) : pack_ok B s.
Proof.
  induction s as [a|l IH|m IH] using struct_ind'; intros flat Hlen.
  - destruct flat as [|x r]; simpl in *; [lia|].
    exists (Leaf x). by rewrite drop_0, take_0.
  - destruct (pack_seq_spec l IH flat Hlen) as (ts & Hts & Hfts & Htts).
    exists (Tup ts). simpl. rewrite Hts. simpl. split; [done|]. split; [done|].
    by apply topology_Tup_inv.
  - rewrite flatten_Dct in Hlen |- *.
    destruct (pack_seq_spec _ IH flat Hlen) as (ts & Hts & Hfts & Htts).
    assert (length ts = length (sorted_keys m)) as Hl.
    { rewrite <- length_sorted_items_snd.
      apply map_eq_Forall2 in Htts. by eapply Forall2_length. }
    exists (Dct (list_to_map (zip (sorted_keys m) ts))).
    rewrite pack_Dct, Hts. split; [done|]. split.
    + rewrite flatten_Dct, sorted_items_of_zip by done.
      rewrite snd_zip by lia. done.
    + apply topology_Dct_intro.
      * by apply sorted_keys_of_zip.
      * rewrite sorted_items_of_zip by done. rewrite snd_zip by lia. done.
Qed.

(** A structure is determined by its topology and its leaves. *)
Lemma struct_eq {A} (t : struct A) : forall t',
  topology t = topology t' -> flatten t = flatten t' -> t = t'.
Proof.
  assert (forall l l' : list (struct A),
    Forall (fun t => forall t', topology t = topology t' ->
      flatten t = flatten t' -> t = t') l ->
    map topology l = map topology l' ->
    concat (map flatten l) = concat (map flatten l') -> l = l') as Hl.
  { intros l l' IH H. apply map_eq_Forall2 in H.
    induction H as [|x y l l' Hxy _ IHl]; [done|].
    apply Forall_cons in IH as [IHx IH]. simpl. intros Hc.
    apply app_inj_1 in Hc as [Hx Hc]; [|by apply topology_flatten_length].
    f_equal; auto. }
  induction t as [a|l IH|m IH] using struct_ind'; intros [b|l'|m'] Ht Hf;
    try done.
  - simpl in Hf. by injection Hf as ->.
  - f_equal. apply Hl; [done| |done]. by apply topology_Tup_inv.
  - apply topology_Dct_inv in Ht as [Hk Hv]. rewrite !flatten_Dct in Hf.
    f_equal. apply dict_eq; [done|]. by apply Hl.
Qed.

Lemma unflatten_as_Ok {A B} (s : struct A) (flat : list B) :
  length (flatten s) = length flat ->
  exists r, unflatten_as s flat = Ok r
    /\ flatten r = flat /\ topology r = topology s.
Proof.
  intros Hlen.
  destruct (pack_spec (B:=B) s flat) as (t & Ht & Hft & Htt); [lia|].
  rewrite Hlen, firstn_all in Hft.
  destruct s as [a|l|m].
  - destruct flat as [|x [|]]; try done. exists (Leaf x). done.
  - exists t. unfold unflatten_as. rewrite decide_True by done.
    by rewrite Ht.
  - exists t. unfold unflatten_as. rewrite decide_True by done.
    by rewrite Ht.
Qed.

Lemma unflatten_as_inv {A B} (s : struct A) (flat : list B) r :
  unflatten_as s flat = Ok r ->
  flatten r = flat /\ topology r = topology s
  /\ length (flatten s) = length flat.
Proof.
  intros H.
  assert (length (flatten s) = length flat) as Hlen.
  { destruct s; simpl in H.
    - by destruct flat as [|x [|]].
    - by case_decide.
    - by case_decide. }
  destruct (unflatten_as_Ok s flat Hlen) as (r' & Hr' & ? & ?).
  rewrite H in Hr'. by injection Hr' as ->.
Qed.

(** Refilling a structure with the leaves of a structure of the same
    topology gives back the latter. *)
Lemma unflatten_as_flatten {A B} (s : struct A) (t : struct B) :
  topology s = topology t -> unflatten_as s (flatten t) = Ok t.
Proof.
  intros H.
  destruct (unflatten_as_Ok s (flatten t)) as (r & Hr & Hf & Ht).
  { by apply topology_flatten_length. }
  rewrite Hr. f_equal. apply struct_eq; [congruence|done].
Qed.

(** ** [map_structure2] *)

Lemma map_structure2_Ok {A B C} (f : A -> B -> result C) s1 s2 rs :
  topology s1 = topology s2 ->
  mapM (fun p => f p.1 p.2) (zip (flatten s1) (flatten s2)) = Ok rs ->
  exists r, map_structure2 f s1 s2 = Ok r
    /\ flatten r = rs /\ topology r = topology s1.
Proof.
  intros Ht Hrs. unfold map_structure2.
  rewrite (assert_same_structure_Ok s1 s2 Ht). simpl. rewrite Hrs. simpl.
  apply unflatten_as_Ok. apply mapM_length in Hrs. rewrite Hrs.
  rewrite length_zip. apply topology_flatten_length in Ht. lia.
Qed.

Lemma map_structure2_inv {A B C} (f : A -> B -> result C) s1 s2 r :
  map_structure2 f s1 s2 = Ok r ->
  mapM (fun p => f p.1 p.2) (zip (flatten s1) (flatten s2)) = Ok (flatten r)
  /\ topology r = topology s1.
Proof.
  unfold map_structure2. intros H.
  apply bind_Ok in H as (_ & _ & H). apply bind_Ok in H as (rs & Hrs & H).
  apply unflatten_as_inv in H as (<- & ? & _). done.
Qed.

(** ** Elementwise operations on arrays of the same shape *)

Lemma broadcast_rev_same s : np.broadcast_rev s s = Some s.
Proof.
  induction s as [|n s IH]; [done|]. simpl. rewrite IH. simpl.
  by rewrite decide_True.
Qed.

Lemma broadcast_shapes_same s : np.broadcast_shapes s s = Some s.
Proof.
  unfold np.broadcast_shapes. rewrite broadcast_rev_same. simpl.
  by rewrite reverse_involutive.
Qed.

Lemma length_chunks size n d : length (np.chunks size n d) = n.
Proof. revert d. induction n; intros d; simpl; auto. Qed.

Lemma concat_chunks size n d :
  length d = n * size -> concat (np.chunks size n d) = d.
Proof.
  revert d. induction n as [|n IH]; intros d Hd; simpl.
  - by destruct d.
  - rewrite IH; [apply take_drop|]. rewrite length_drop. lia.
Qed.

Lemma Forall_chunks_length size n d :
  length d = n * size ->
  Forall (fun c => length c = size) (np.chunks size n d).
Proof.
  revert d. induction n as [|n IH]; intros d Hd; simpl; constructor.
  - rewrite length_take. lia.
  - apply IH. rewrite length_drop. lia.
Qed.

Lemma broadcast_data_same s : forall d,
  length d = np.numel s -> np.broadcast_data s s d = d.
Proof.
  induction s as [|n s IH]; intros d Hd; [done|]. simpl in *.
  rewrite decide_True by done.
  rewrite <- (concat_chunks (np.numel s) n d) at 2 by done. f_equal.
  pose proof (Forall_chunks_length (np.numel s) n d Hd) as H.
  induction H as [|c cs Hc _ IHc]; [done|]. simpl. f_equal; auto.
Qed.

Lemma broadcast_to_same a : np.wf a -> np.broadcast_to a (np.shape a) = np.data a.
Proof.
  intros Hwf. unfold np.broadcast_to. rewrite Nat.sub_diag. simpl.
  by apply broadcast_data_same.
Qed.

(** A binary ufunc on operands of the same shape succeeds, and when the
    operands are well formed it combines the elements pairwise. *)
Lemma ufunc2_same_shape f rdt a b :
  np.shape a = np.shape b ->
  exists r, np.ufunc2 f rdt a b = Ok r /\ np.shape r = np.shape a
    /\ (np.wf a -> np.wf b ->
        np.data r = zip_with f (np.data a) (np.data b) /\ np.wf r).
Proof.
  intros Hs. unfold np.ufunc2. rewrite <- Hs, broadcast_shapes_same.
  eexists. split; [done|]. split; [done|]. simpl. intros Ha Hb.
  rewrite (broadcast_to_same a Ha).
  rewrite Hs, (broadcast_to_same b Hb). split; [done|].
  unfold np.wf in *. simpl. rewrite length_zip_with. rewrite Ha, Hb, Hs. lia.
Qed.

Lemma with_pyfloat_shape f a : np.shape (np.with_pyfloat f a) = np.shape a.
Proof. done. Qed.

Lemma with_pyfloat_wf f a : np.wf a -> np.wf (np.with_pyfloat f a).
Proof. unfold np.wf. simpl. by rewrite length_map. Qed.

(** ** The leaf functions of the action transforms *)

Lemma clip_same_shape a lo hi :
  np.shape a = np.shape lo -> np.shape a = np.shape hi ->
  exists r, np.clip a lo hi = Ok r /\ np.shape r = np.shape a
    /\ (np.wf a -> np.wf lo -> np.wf hi ->
        np.data r = zip_with xmin (zip_with xmax (np.data a) (np.data lo))
                      (np.data hi) /\ np.wf r).
Proof.
  intros H1 H2. unfold np.clip, np.maximum, np.minimum.
  destruct (ufunc2_same_shape xmax np.promote_types a lo H1)
    as (m & Hm & Hsm & Hdm).
  rewrite Hm. simpl.
  destruct (ufunc2_same_shape xmin np.promote_types m hi)
    as (r & Hr & Hsr & Hdr); [congruence|].
  exists r. split; [done|]. split; [congruence|].
  intros Ha Hl Hh. destruct (Hdm Ha Hl) as [Hd Hwm].
  destruct (Hdr Hwm Hh) as [Hd' Hwr]. by rewrite Hd', Hd.
Qed.

Lemma broadcast_rev_nil_r s : np.broadcast_rev s [] = Some s.
Proof. by destruct s. Qed.

(** The broadcast shape absorbs its operands, and broadcasting is
    symmetric. *)
Lemma broadcast_rev_absorb s : forall l t,
  np.broadcast_rev s l = Some t ->
  np.broadcast_rev t l = Some t /\ np.broadcast_rev l t = Some t
  /\ np.broadcast_rev l s = Some t.
Proof.
  induction s as [|n s IH]; intros [|m l] t H; simpl in H.
  - by injection H as <-.
  - injection H as <-. rewrite broadcast_rev_same. by rewrite broadcast_rev_nil_r.
  - injection H as <-. by rewrite broadcast_rev_nil_r.
  - destruct (np.broadcast_rev s l) as [r|] eqn:E; [|done]. simpl in H.
    destruct (IH l r E) as (H1 & H2 & H3).
    repeat case_decide; simplify_eq/=; rewrite ?H1, ?H2, ?H3; simpl;
      repeat case_decide; by simplify_eq.
Qed.

Lemma broadcast_shapes_absorb s l t :
  np.broadcast_shapes s l = Some t ->
  np.broadcast_shapes t l = Some t /\ np.broadcast_shapes l t = Some t
  /\ np.broadcast_shapes l s = Some t.
Proof.
  unfold np.broadcast_shapes. intros H.
  destruct (np.broadcast_rev (reverse s) (reverse l)) as [r|] eqn:E; [|done].
  injection H as <-. rewrite reverse_involutive.
  destruct (broadcast_rev_absorb _ _ _ E) as (-> & -> & ->). done.
Qed.

(** A binary ufunc on operands whose shapes can be broadcast succeeds,
    with the broadcast shape. *)
Lemma ufunc2_shape f rdt a b t :
  np.broadcast_shapes (np.shape a) (np.shape b) = Some t ->
  exists r, np.ufunc2 f rdt a b = Ok r /\ np.shape r = t.
Proof. intros H. unfold np.ufunc2. rewrite H. eauto. Qed.

Lemma clip_broadcast a lo hi sh t :
  np.shape lo = sh -> np.shape hi = sh ->
  np.broadcast_shapes (np.shape a) sh = Some t ->
  exists r, np.clip a lo hi = Ok r /\ np.shape r = t.
Proof.
  intros Hl Hh Hb. unfold np.clip, np.maximum, np.minimum.
  destruct (ufunc2_shape xmax np.promote_types a lo t) as (m & Hm & Hsm);
    [by rewrite Hl|].
  rewrite Hm. cbn [bind].
  apply ufunc2_shape. rewrite Hsm, Hh.
  by apply broadcast_shapes_absorb in Hb as (? & _).
Qed.

Lemma clip_map__total a s : conforms a s -> exists r, clip_map_ a s = Ok r.
Proof.
  destruct s as [low high sh dt| | | |]; simpl; eauto.
  intros (Hl & Hh & [t Ht]).
  destruct (clip_broadcast a low high sh t Hl Hh Ht) as (r & Hr & _). eauto.
Qed.

Lemma unsquash_map__total a s :
  conforms a s -> exists r, unsquash_map_ a s = Ok r.
Proof.
  destruct s as [low high sh dt| | | |]; simpl; eauto.
  intros (Hl & Hh & [t Ht]).
  destruct (broadcast_shapes_absorb _ _ _ Ht) as (Ht1 & Ht2 & Ht3).
  destruct (_ && _); eauto.
  destruct (_ || _).
  - destruct (ufunc2_shape xsub np.promote_types high low sh)
      as (d & Hd & Hsd); [rewrite Hl, Hh; apply broadcast_shapes_same|].
    unfold np.subtract. rewrite Hd. cbn [bind].
    destruct (ufunc2_shape xmul np.promote_types
      (np.with_pyfloat (fun x => xadd x (Fin 1)) a) d t)
      as (p & Hp & Hsp); [by rewrite Hsd|].
    unfold np.multiply. rewrite Hp. cbn [bind].
    destruct (ufunc2_shape xadd np.promote_types low
      (np.with_pyfloat (fun x => xdiv x (Fin 2)) p) t)
      as (a' & Ha' & Hsa'); [by rewrite Hl, with_pyfloat_shape, Hsp|].
    unfold np.add. rewrite Ha'. cbn [bind].
    destruct (clip_broadcast a' low high sh t Hl Hh) as (r & Hr & _);
      [by rewrite Hsa'|]. eauto.
  - destruct (np.is_integer dt); eauto.
    destruct (ufunc2_shape xadd np.promote_types low a t) as (r & Hr & _);
      [by rewrite Hl|]. eauto.
Qed.

Lemma normalize_map__total a s :
  conforms a s -> exists r, normalize_map_ a s = Ok r.
Proof.
  destruct s as [low high sh dt| | | |]; simpl; eauto.
  intros (Hl & Hh & [t Ht]).
  destruct (broadcast_shapes_absorb _ _ _ Ht) as (Ht1 & Ht2 & Ht3).
  destruct (_ || _); eauto.
  destruct (ufunc2_shape xsub np.promote_types a low t) as (n & Hn & Hsn);
    [by rewrite Hl|].
  unfold np.subtract at 1. rewrite Hn. cbn [bind].
  destruct (ufunc2_shape xsub np.promote_types high low sh)
    as (d & Hd & Hsd); [rewrite Hl, Hh; apply broadcast_shapes_same|].
  unfold np.subtract. rewrite Hd. cbn [bind].
  destruct (ufunc2_shape xdiv np.divide_type
    (np.with_pyfloat (fun x => xmul x (Fin 2)) n) d t)
    as (q & Hq & Hsq); [by rewrite with_pyfloat_shape, Hsn, Hsd|].
  unfold np.true_divide. rewrite Hq. cbn [bind]. eauto.
Qed.

Lemma mapM_zip_total {A B C} (f : A -> B -> result C) (P : A -> B -> Prop)
    l1 l2 :
  (forall a b, P a b -> exists r, f a b = Ok r) ->
  Forall2 P l1 l2 ->
  exists rs, mapM (fun p => f p.1 p.2) (zip l1 l2) = Ok rs.
Proof.
  intros Hf. induction 1 as [|a b l1 l2 Hab _ [rs IH]]; simpl; [eauto|].
  destruct (Hf a b Hab) as [r ->]. simpl. rewrite IH. simpl. eauto.
Qed.

Lemma map_structure2_total {A B C} (f : A -> B -> result C)
    (P : A -> B -> Prop) s1 s2 :
  (forall a b, P a b -> exists r, f a b = Ok r) ->
  topology s1 = topology s2 ->
  Forall2 P (flatten s1) (flatten s2) ->
  exists r, map_structure2 f s1 s2 = Ok r /\ topology r = topology s1.
Proof.
  intros Hf Ht HP.
  destruct (mapM_zip_total f P _ _ Hf HP) as [rs Hrs].
  destruct (map_structure2_Ok f s1 s2 rs Ht Hrs) as (r & Hr & _ & Htr).
  eauto.
Qed.

(** C10, refuted.  A leaf of three elements against a [Box] of shape
    [(2,)]: the two structures have the same topology, yet numpy cannot
    broadcast the value with the bounds, and each of the three transforms
    raises a [ValueError] instead of returning a structure. *)
Lemma action_transforms_shape_mismatch :
  let action :=
    Leaf (np.NdArray [3] np.float32 [Fin 0; Fin 0; Fin 0] false) in
  let action_space := Leaf (Box ex_low ex_high [2] np.float32) in
  topology action = topology action_space
  /\ clip_action action action_space
     = Raise (ValueError "operands could not be broadcast together")
  /\ normalize_action action action_space
     = Raise (ValueError "operands could not be broadcast together")
  /\ unsquash_action action action_space
     = Raise (ValueError "operands could not be broadcast together").
Proof. repeat split. Qed.

(** C10, amended.  For an action and a descriptor structure of identical
    topology, the leaves of the action conforming to their descriptors
    (so that numpy can broadcast them with the bounds), [clip_action],
    [normalize_action] and [unsquash_action] each return a structure of
    the topology of the action. *)
Theorem action_transforms_preserve_topology
    (action : struct np.ndarray) (action_space : struct Space) :
  topology action = topology action_space ->
  Forall2 conforms (flatten action) (flatten action_space) ->
  exists c n u,
    clip_action action action_space = Ok c
    /\ normalize_action action action_space = Ok n
    /\ unsquash_action action action_space = Ok u
    /\ topology c = topology action
    /\ topology n = topology action
    /\ topology u = topology action.
Proof.
  intros Ht Hc.
  destruct (map_structure2_total clip_map_ conforms action action_space
    clip_map__total Ht Hc) as (c & Hc' & Htc).
  destruct (map_structure2_total normalize_map_ conforms action action_space
    normalize_map__total Ht Hc) as (n & Hn & Htn).
  destruct (map_structure2_total unsquash_map_ conforms action action_space
    unsquash_map__total Ht Hc) as (u & Hu & Htu).
  exists c, n, u. done.
Qed.

(** Whenever a transform returns, the result has the topology of the
    action. *)
Lemma action_transforms_topology action action_space r :
  clip_action action action_space = Ok r
  \/ normalize_action action action_space = Ok r
  \/ unsquash_action action action_space = Ok r ->
  topology r = topology action.
Proof. intros [H|[H|H]]; by apply map_structure2_inv in H as [_ ?]. Qed.

Lemma action_transforms_preserve_topology_witness :
  exists c n u,
    clip_action ex_action ex_space = Ok c
    /\ normalize_action ex_action ex_space = Ok n
    /\ unsquash_action ex_action ex_space = Ok u
    /\ topology c = topology ex_action
    /\ topology n = topology ex_action
    /\ topology u = topology ex_action.
Proof.
  apply (action_transforms_preserve_topology ex_action ex_space).
  - vm_compute. reflexivity.
  - vm_compute. repeat constructor. by eexists.
Defined.

(** ** Leaves of a mapped structure *)

Lemma map_structure2_lookup {A B C} (f : A -> B -> result C) s1 s2 r i a b :
  map_structure2 f s1 s2 = Ok r ->
  flatten s1 !! i = Some a -> flatten s2 !! i = Some b ->
  exists c, f a b = Ok c /\ flatten r !! i = Some c.
Proof.
  intros H Ha Hb. apply map_structure2_inv in H as [H _].
  apply mapM_Ok in H.
  assert (zip (flatten s1) (flatten s2) !! i = Some (a, b)) as Hz.
  { rewrite lookup_zip_with. by rewrite Ha, Hb. }
  destruct (Forall2_lookup_l _ _ _ _ _ H Hz) as (c & Hc & Hf). eauto.
Qed.




(** For operands of the same shape [np.add] adds the elements pairwise. *)
Lemma np_add_same_shape a b :
  np.shape a = np.shape b -> np.wf a -> np.wf b ->
  exists r, np.add a b = Ok r /\ np.shape r = np.shape a
    /\ np.data r = zip_with xadd (np.data a) (np.data b).
Proof.
  intros Hs Ha Hb.
  destruct (ufunc2_same_shape xadd np.promote_types a b Hs)
    as (r & Hr & Hsr & Hd).
  exists r. destruct (Hd Ha Hb). done.
Qed.

(** C3.  For a floating [Box] that is unbounded on both sides,
    [normalize_action] does not return the leaf unchanged: it returns
    [nan]. *)
Theorem normalize_action_unbounded_Box :
  let a := np.scalar np.float32 (Fin 0) in
  let s := Box (np.scalar np.float32 NInf) (np.scalar np.float32 PInf)
             [] np.float32 in
  normalize_action (Leaf a) (Leaf s)
    = Ok (Leaf (np.scalar np.float32 NaN))
  /\ unsquash_action (Leaf a) (Leaf s) = Ok (Leaf a).
Proof. split; reflexivity. Qed.

(** What [normalize_action] does at a leaf: the formula is applied to
    every [Box] leaf of dtype [float32] or [float64], whatever its
    bounds; every other leaf is returned unchanged. *)
Lemma normalize_map__cases a s :
  match s with
  | Box low high _ dtype =>
      if bool_decide (dtype = np.float32) || bool_decide (dtype = np.float64)
      then normalize_map_ a s =
        (let* n := np.subtract a low in
         let* d := np.subtract high low in
         let* q := np.true_divide
                     (np.with_pyfloat (fun x => xmul x (Fin 2)) n) d in
         Ok (np.with_pyfloat (fun x => xsub x (Fin 1)) q))
      else normalize_map_ a s = Ok a
  | _ => normalize_map_ a s = Ok a
  end.
Proof. destruct s; try done. simpl. by destruct (_ || _). Qed.

(** ** [unbatch] on leaves of different leading dimensions *)

Lemma getitem_Raise a i e :
  np.getitem a i = Raise e -> exists msg, e = IndexError msg.
Proof.
  unfold np.getitem. destruct (np.shape a); [intros [= <-]; eauto|].
  case_decide; [done|]. intros [= <-]; eauto.
Qed.

Lemma getitem_is_ok a i : is_ok (np.getitem a i) = bool_decide (i < leading_dim a).
Proof.
  unfold np.getitem, leading_dim. destruct (np.shape a) as [|n sh]; simpl.
  - done.
  - case_decide; case_bool_decide; done || lia.
Qed.

Lemma mapM_is_ok {A B} (f : A -> result B) l :
  is_ok (mapM f l) = forallb (fun x => is_ok (f x)) l.
Proof.
  induction l as [|x l IH]; [done|]. simpl. destruct (f x); [|done]. simpl.
  rewrite <- IH. by destruct (mapM f l).
Qed.

Lemma not_ok_Raise {A} (r : result A) : is_ok r = false -> exists e, r = Raise e.
Proof. destruct r; [done|eauto]. Qed.

(** The body of the loop of [unbatch] fails only with an [IndexError]. *)
Lemma unbatch_body_Raise (bs : struct np.ndarray) pos e :
  (let* items := mapM (fun b => np.getitem b pos) (flatten bs) in
   unflatten_as bs items) = Raise e ->
  exists msg, e = IndexError msg.
Proof.
  intros [H|(items & Hi & H)]%bind_Raise.
  - apply mapM_Raise in H as (b & _ & H). by eapply getitem_Raise.
  - apply mapM_length in Hi.
    destruct (unflatten_as_Ok bs items) as (r & Hr & _); [done|].
    congruence.
Qed.

Lemma unbatch_unfold (bs : struct np.ndarray) first rest :
  flatten bs = first :: rest ->
  unbatch bs =
    (let* n := np.len first in
     mapM (fun batch_pos =>
             let* items := mapM (fun b => np.getitem b batch_pos) (flatten bs) in
             unflatten_as bs items) (seq 0 n)).
Proof. intros H. unfold unbatch. by rewrite H. Qed.

(** C4, refuted: two leaves with leading dimensions 2 and 3 are unbatched
    into two items; the third entry of the longer leaf is dropped and no
    exception is raised. *)
Lemma unbatch_truncates :
  let a := np.NdArray [2] np.int64 [Fin 1; Fin 2] false in
  let b := np.NdArray [3] np.int64 [Fin 4; Fin 5; Fin 6] false in
  leading_dim a <> leading_dim b
  /\ unbatch (Tup [Leaf a; Leaf b])
     = Ok [Tup [Leaf (np.scalar np.int64 (Fin 1));
                Leaf (np.scalar np.int64 (Fin 4))];
           Tup [Leaf (np.scalar np.int64 (Fin 2));
                Leaf (np.scalar np.int64 (Fin 5))]].
Proof. split; [by vm_compute|reflexivity]. Qed.

(** C4, amended.  When some leaf has a smaller leading dimension than the
    first leaf, [unbatch] raises an [IndexError] and returns nothing. *)
Theorem unbatch_short_leaf_raises (batches_struct : struct np.ndarray)
    (first b : np.ndarray) (rest : list np.ndarray) :
  flatten batches_struct = first :: rest ->
  b ∈ rest ->
  leading_dim b < leading_dim first ->
  exists msg, unbatch batches_struct = Raise (IndexError msg).
Proof.
  intros Hf Hb Hlt. rewrite (unbatch_unfold _ _ _ Hf).
  unfold leading_dim in Hlt at 2. unfold np.len.
  destruct (np.shape first) as [|n sh]; simpl in Hlt; [lia|].
  cbn [bind]. set (body := fun batch_pos : nat => _).
  assert (is_ok (mapM body (seq 0 n)) = false) as Hno.
  { rewrite mapM_is_ok. apply not_true_iff_false. intros Hall.
    rewrite forallb_forall in Hall.
    specialize (Hall (leading_dim b)).
    rewrite <- list_elem_of_In, elem_of_seq in Hall.
    specialize (Hall ltac:(lia)). unfold body in Hall.
    destruct (mapM _ (flatten batches_struct)) as [items|] eqn:E; [|done].
    apply mapM_Ok in E. rewrite Hf in E.
    apply Forall2_cons_inv_l in E as (? & ? & _ & E & _).
    apply list_elem_of_lookup in Hb as [j Hj].
    destruct (Forall2_lookup_l _ _ _ _ _ E Hj) as (? & _ & Hg).
    pose proof (getitem_is_ok b (leading_dim b)) as Hok.
    rewrite Hg in Hok. simpl in Hok. symmetry in Hok.
    apply bool_decide_eq_true in Hok. lia. }
  apply not_ok_Raise in Hno as [e He]. rewrite He.
  apply mapM_Raise in He as (pos & _ & He).
  apply unbatch_body_Raise in He as [msg ->]. eauto.
Qed.

Lemma unbatch_short_leaf_raises_witness :
  exists msg,
    unbatch (Tup [Leaf (np.NdArray [3] np.int64 [Fin 4; Fin 5; Fin 6] false);
                  Leaf (np.NdArray [2] np.int64 [Fin 1; Fin 2] false)])
    = Raise (IndexError msg).
Proof.
  apply (unbatch_short_leaf_raises _
    (np.NdArray [3] np.int64 [Fin 4; Fin 5; Fin 6] false)
    (np.NdArray [2] np.int64 [Fin 1; Fin 2] false)
    [np.NdArray [2] np.int64 [Fin 1; Fin 2] false]).
  - reflexivity.
  - apply list_elem_of_here.
  - vm_compute. lia.
Defined.

(** When no leaf is shorter than the first one, [unbatch] returns as many
    items as the leading dimension of the first leaf. *)
Lemma unbatch_long_leaves (batches_struct : struct np.ndarray)
    (first : np.ndarray) (rest : list np.ndarray) n sh :
  flatten batches_struct = first :: rest ->
  np.shape first = n :: sh ->
  Forall (fun b => n <= leading_dim b) rest ->
  exists out, unbatch batches_struct = Ok out /\ length out = n.
Proof.
  intros Hf Hs Hall. rewrite (unbatch_unfold _ _ _ Hf).
  unfold np.len. rewrite Hs. cbn [bind]. set (body := fun batch_pos : nat => _).
  destruct (mapM body (seq 0 n)) as [out|e] eqn:E.
  - exists out. split; [done|]. apply mapM_length in E.
    by rewrite length_seq in E.
  - exfalso. apply mapM_Raise in E as (pos & Hpos & E).
    apply elem_of_seq in Hpos. unfold body in E.
    apply bind_Raise in E as [E|(items & Hi & E)].
    + apply mapM_Raise in E as (b & Hb & E).
      pose proof (getitem_is_ok b pos) as Hok. rewrite E in Hok.
      simpl in Hok. symmetry in Hok. apply bool_decide_eq_false in Hok.
      rewrite Hf in Hb. apply elem_of_cons in Hb as [->|Hb].
      * unfold leading_dim in Hok. rewrite Hs in Hok. simpl in Hok. lia.
      * rewrite Forall_forall in Hall. specialize (Hall b Hb). lia.
    + apply mapM_length in Hi.
      destruct (unflatten_as_Ok batches_struct items) as (r & Hr & _);
        [done|]. congruence.
Qed.

(** ** [batch] on an empty list *)

Lemma stack_Raise l e :
  np.stack l = Raise e -> e <> empty_batch_error.
Proof.
  unfold np.stack. destruct l; [by intros [= <-]|].
  destruct (forallb _ _); [done|by intros [= <-]].
Qed.

Lemma concatenate_Raise l e :
  np.concatenate l = Raise e -> e <> empty_batch_error.
Proof.
  unfold np.concatenate. destruct l; [by intros [= <-]|].
  destruct (existsb _ _); [by intros [= <-]|].
  destruct (forallb _ _); [done|by intros [= <-]].
Qed.

Lemma unflatten_as_Raise {A B} (s : struct A) (flat : list B) e :
  unflatten_as s flat = Raise e -> e <> empty_batch_error.
Proof.
  unfold unflatten_as. destruct s.
  - destruct flat as [|? [|]]; try done; by intros [= <-].
  - case_decide; [|by intros [= <-]].
    destruct (pack _ _) as [[]|]; [done|by intros [= <-]].
  - case_decide; [|by intros [= <-]].
    destruct (pack _ _) as [[]|]; [done|by intros [= <-]].
Qed.

Lemma map_structure_Raise {A B} (f : list A -> result B) l e :
  (forall x e, f x = Raise e -> e <> empty_batch_error) ->
  map_structure f l = Raise e -> e <> empty_batch_error.
Proof.
  intros Hf. unfold map_structure. destruct l as [|s0 others];
    [by intros [= <-]|].
  intros [H|(? & _ & H)]%bind_Raise.
  - apply mapM_Raise in H as (s & _ & H).
    apply assert_same_structure_Raise in H as [-> | ->]; done.
  - apply bind_Raise in H as [H|(rs & _ & H)].
    + apply mapM_Raise in H as (col & _ & H). by eapply Hf.
    + by eapply unflatten_as_Raise.
Qed.

(** C7. [batch] raises the error for an empty input exactly when the
    input list is empty, and then no structure is returned. *)
Theorem batch_empty_iff (list_of_structs : list (struct np.ndarray))
    (flag : batch_dim_flag) :
  batch list_of_structs flag = Raise empty_batch_error
  <-> list_of_structs = [].
Proof.
  split; [|by intros ->].
  destruct list_of_structs as [|first rest]; [done|]. intros H. exfalso.
  unfold batch in H. apply bind_Raise in H as [H|(already & _ & H)].
  - destruct flag; [done|]. by destruct (flatten first).
  - eapply map_structure_Raise in H; [done|].
    intros x e' [He|(? & _ & ?)]%bind_Raise; [|done].
    destruct already; [by eapply concatenate_Raise|by eapply stack_Raise].
Qed.

(** ** [get_dummy_batch_for_space] *)

Lemma flatten_base_struct (space : Space) :
  flatten (get_base_struct_from_space space) = flatten_space space.
Proof.
  induction space as [| | |l IH|m IH] using Space_ind'; try done.
  - rewrite flatten_space_Tuple. simpl. f_equal.
    induction IH as [|s l Hs _ IHl]; [done|]. simpl. by f_equal.
  - rewrite flatten_space_Dict.
    change (get_base_struct_from_space (Dict m))
      with (Dct (get_base_struct_from_space <$> m)).
    rewrite flatten_Dct, sorted_items_fmap_snd. f_equal.
    assert (forall k x, (k, x) ∈ sorted_items m -> m !! k = Some x) as He.
    { intros k x. apply elem_of_sorted_items. }
    induction (sorted_items m) as [|[k x] es IHes]; [done|]. simpl. f_equal.
    + apply (IH k x), He. left.
    + apply IHes. intros k' x' H'. apply He. by right.
Qed.

Section DummyBatchProofs.
Context (rng : Type) (sample : Space -> rng -> np.ndarray * rng).

(** With a time size and no positive batch size, the call on a
    primitive space fails before anything is drawn or built. *)
Lemma primitive_time_without_batch space batch_size fill_value t
    time_major one_hot_discrete g :
  (batch_size <= 0)%Z ->
  dummy_batch_primitive rng sample space batch_size fill_value (Some t)
    time_major one_hot_discrete g = (Raise AssertionError, g).
Proof.
  intros Hb. unfold dummy_batch_primitive.
  assert ((0 <? batch_size)%Z = false) as -> by lia.
  by destruct fill_value.
Qed.

Lemma mapM_st_first_Raise {A B} (f : A -> M rng B) x l e g :
  f x g = (Raise e, g) -> mapM_st rng f (x :: l) g = (Raise e, g).
Proof. intros H. simpl. unfold bindM. by rewrite H. Qed.


End DummyBatchProofs.





(** C8, refuted: for a composite descriptor without leaves nothing
    fails, and an (empty) structure is returned. *)
Lemma dummy_batch_empty_Tuple :
  get_dummy_batch_for_space unit ex_sample (Tuple []) 0
    (FillValue (Fin 0)) (Some 3%Z) false false tt
  = (Ok (Tup []), tt)
  /\ get_dummy_batch_for_space unit ex_sample (Tuple []) 0
       Random (Some 3%Z) false false tt
     = (Ok (Tup []), tt).
Proof. split; reflexivity. Qed.

(** C8, amended.  For a descriptor with at least one leaf, a time size
    together with batch size 0 makes the call fail, for a literal fill
    value and for random filling alike; nothing is drawn and nothing is
    returned. *)
Theorem dummy_batch_time_without_batch (rng : Type)
    (sample : Space -> rng -> np.ndarray * rng) (space : Space)
    (fill_value : fill) (t : Z) (time_major one_hot_discrete : bool)
    (g : rng) :
  flatten_space space <> [] ->
  get_dummy_batch_for_space rng sample space 0 fill_value (Some t)
    time_major one_hot_discrete g
  = (Raise AssertionError, g).
Proof.
  intros Hne. unfold get_dummy_batch_for_space.
  destruct (is_composite space) eqn:Hc.
  - unfold map_structure_st, bindM. rewrite flatten_base_struct.
    destruct (flatten_space space) as [|s l]; [done|].
    erewrite mapM_st_first_Raise; [done|].
    by apply primitive_time_without_batch.
  - unfold bindM. by rewrite primitive_time_without_batch.
Qed.

Lemma dummy_batch_time_without_batch_witness :
  get_dummy_batch_for_space unit ex_sample
    (Tuple [Discrete 3 0; ex_box1]) 0 Random (Some 3%Z) false false tt
  = (Raise AssertionError, tt).
Proof.
  apply (dummy_batch_time_without_batch unit ex_sample
    (Tuple [Discrete 3 0; ex_box1]) Random 3%Z false false tt).
  vm_compute. discriminate.
Defined.

(** ** Arithmetic on finite values *)




(** ** The leaf functions on arrays of the shape of the [Box] *)

Lemma zip_with_map_same {T A B C} (f : A -> B -> C) (g : T -> A) (h : T -> B)
    (ts : list T) :
  zip_with f (map g ts) (map h ts) = map (fun t => f (g t) (h t)) ts.
Proof. induction ts; simpl; by f_equal. Qed.

Lemma triples_split a low high :
  length (np.data low) = length (np.data a) ->
  length (np.data high) = length (np.data a) ->
  np.data a = map (fun t => t.1) (triples a low high)
  /\ np.data low = map (fun t => t.2.1) (triples a low high)
  /\ np.data high = map (fun t => t.2.2) (triples a low high).
Proof.
  unfold triples. generalize (np.data a) (np.data low) (np.data high).
  induction l as [|x l IH]; intros [|y l0] [|z l1]; simpl; try done.
  intros [= H0] [= H1]. destruct (IH l0 l1 H0 H1) as (E1 & E2 & E3).
  by rewrite <- E1, <- E2, <- E3.
Qed.

Section leaf_arrays.
Context (a low high : np.ndarray) (sh : list nat) (dt : np.dtype).
Context (Ha : np.shape a = sh) (Hl : np.shape low = sh)
        (Hh : np.shape high = sh).
Context (Wa : np.wf a) (Wl : np.wf low) (Wh : np.wf high).

Lemma triples_data :
  np.data a = map (fun t => t.1) (triples a low high)
  /\ np.data low = map (fun t => t.2.1) (triples a low high)
  /\ np.data high = map (fun t => t.2.2) (triples a low high).
Proof.
  apply triples_split; unfold np.wf in *; congruence.
Qed.

Lemma normalize_map__data :
  is_float dt = true ->
  exists r, normalize_map_ a (Box low high sh dt) = Ok r
    /\ np.shape r = sh /\ np.wf r
    /\ np.data r = map (fun t => normalize_value t.2.1 t.2.2 t.1)
                     (triples a low high).
Proof.
  intros Hf. unfold is_float in Hf. simpl. rewrite Hf.
  destruct (ufunc2_same_shape xsub np.promote_types a low)
    as (n & Hn & Hsn & Hdn); [congruence|].
  destruct (Hdn Wa Wl) as [Dn Wn].
  unfold np.subtract at 1. rewrite Hn. simpl.
  destruct (ufunc2_same_shape xsub np.promote_types high low)
    as (d & Hd & Hsd & Hdd); [congruence|].
  destruct (Hdd Wh Wl) as [Dd Wd].
  unfold np.subtract. rewrite Hd. simpl.
  destruct (ufunc2_same_shape xdiv np.divide_type
    (np.with_pyfloat (fun x => xmul x (Fin 2)) n) d)
    as (q & Hq & Hsq & Hdq); [simpl; congruence|].
  destruct (Hdq (with_pyfloat_wf _ _ Wn) Wd) as [Dq Wq].
  unfold np.true_divide. rewrite Hq. simpl.
  eexists. split; [done|]. split; [simpl in *; congruence|].
  split; [by apply with_pyfloat_wf|]. simpl.
  rewrite Dq. simpl. rewrite Dn, Dd.
  destruct triples_data as (-> & -> & ->).
  rewrite !zip_with_map_same, List.map_map, zip_with_map_same.
  by rewrite List.map_map.
Qed.

Lemma unsquash_map__data :
  is_float dt = true ->
  np.all (bounded_below low) = true -> np.all (bounded_above high) = true ->
  exists r, unsquash_map_ a (Box low high sh dt) = Ok r
    /\ np.shape r = sh /\ np.wf r
    /\ np.data r = map (fun t => unsquash_value t.2.1 t.2.2 t.1)
                     (triples a low high).
Proof.
  intros Hf Hbl Hbh. unfold is_float in Hf. simpl. rewrite Hbl, Hbh, Hf.
  simpl.
  destruct (ufunc2_same_shape xsub np.promote_types high low)
    as (d & Hd & Hsd & Hdd); [congruence|].
  destruct (Hdd Wh Wl) as [Dd Wd].
  unfold np.subtract. rewrite Hd. simpl.
  destruct (ufunc2_same_shape xmul np.promote_types
    (np.with_pyfloat (fun x => xadd x (Fin 1)) a) d)
    as (p & Hp & Hsp & Hdp); [simpl; congruence|].
  destruct (Hdp (with_pyfloat_wf _ _ Wa) Wd) as [Dp Wp].
  unfold np.multiply. rewrite Hp. simpl.
  destruct (ufunc2_same_shape xadd np.promote_types low
    (np.with_pyfloat (fun x => xdiv x (Fin 2)) p))
    as (a' & Ha' & Hsa' & Hda'); [simpl in *; congruence|].
  destruct (Hda' Wl (with_pyfloat_wf _ _ Wp)) as [Da' Wa'].
  unfold np.add. rewrite Ha'. simpl.
  destruct (clip_same_shape a' low high) as (r & Hr & Hsr & Hdr);
    [congruence..|].
  destruct (Hdr Wa' Wl Wh) as [Dr Wr].
  exists r. split; [done|]. split; [congruence|]. split; [done|].
  rewrite Dr, Da'. simpl. rewrite Dp. simpl. rewrite Dd.
  destruct triples_data as (-> & -> & ->).
  rewrite !zip_with_map_same, !List.map_map, !zip_with_map_same.
  rewrite List.map_map, !zip_with_map_same. done.
Qed.
End leaf_arrays.


Lemma Forall_triples (P : xq -> Prop) (Q : xq -> xq -> Prop) a low high :
  Forall P (np.data a) -> Forall2 Q (np.data low) (np.data high) ->
  Forall (fun t => P t.1 /\ Q t.2.1 t.2.2) (triples a low high).
Proof.
  unfold triples. generalize (np.data a). intros la Ha Hlh. revert la Ha.
  induction Hlh as [|l h ll lh Hq _ IH]; intros la Ha.
  - destruct la; constructor.
  - destruct Ha as [|x la Hx Ha]; simpl; constructor; auto.
Qed.


(** ** What [np.clip] guarantees of a result *)

Lemma Qle_bool_false p q : Qle_bool p q = false -> (q < p)%Q.
Proof.
  intros E. apply Qnot_le_lt. intros H. apply Qle_bool_iff in H. congruence.
Qed.

Ltac xq_cases :=
  unfold within; simpl;
  repeat match goal with
  | |- context [Qle_bool ?a ?b] =>
      let E := fresh "E" in destruct (Qle_bool a b) eqn:E; simpl
  end;
  repeat match goal with
  | H : Qle_bool _ _ = true |- _ => apply Qle_bool_iff in H
  | H : Qle_bool _ _ = false |- _ => apply Qle_bool_false in H
  end;
  try done; try (intros; lra).

Lemma xclip_within x l h :
  x <> NaN -> xleb l h = true -> within l h (xmin (xmax x l) h) = true.
Proof.
  destruct x as [x| | |], l as [l| | |], h as [h| | |]; xq_cases.
Qed.

Lemma xclip_id x l h :
  within l h x = true -> xeq (xmin (xmax x l) h) x.
Proof.
  destruct x as [x| | |], l as [l| | |], h as [h| | |]; xq_cases.
Qed.

(** Whatever is clipped to ordered finite bounds is [nan] or lies within
    them. *)
Lemma xclip_nan_or_within v l h :
  ordered_bounds l h = true ->
  xmin (xmax v l) h = NaN \/ within l h (xmin (xmax v l) h) = true.
Proof.
  unfold ordered_bounds. intros H.
  apply andb_true_iff in H as [_ Hlh].
  destruct v as [q| | |]; [right|right|right|left; by destruct l];
    by apply xclip_within.
Qed.

Lemma unsquash_value_NaN l h : unsquash_value l h NaN = NaN.
Proof. unfold unsquash_value. by destruct l, h. Qed.

Lemma normalize_value_NaN l h : normalize_value l h NaN = NaN.
Proof. unfold normalize_value. by destruct l, h. Qed.

Lemma Forall2_map_triples (g : xq * (xq * xq) -> xq)
    (P : xq -> xq * (xq * xq) -> Prop) (ts : list (xq * (xq * xq))) :
  Forall (fun t => P (g t) t) ts -> Forall2 P (map g ts) ts.
Proof. induction 1; simpl; by constructor. Qed.

Lemma bounded_of_ordered_bounds low high :
  Forall2 (fun l h => ordered_bounds l h = true) (np.data low) (np.data high) ->
  np.all (bounded_below low) = true /\ np.all (bounded_above high) = true.
Proof.
  unfold np.all, bounded_below, bounded_above.
  generalize (np.data low) (np.data high).
  induction 1 as [|l h ll lh H _ [IH1 IH2]]; [done|].
  cbn [map forallb]. rewrite IH1, IH2. unfold ordered_bounds in H.
  by destruct l, h.
Qed.

(** [unsquash_action] at a float [Box] leaf with ordered finite bounds:
    the formula is applied and its result is clipped, so that every
    element of the result is [nan] or lies within its bounds, whatever
    the formula gave; a [nan] element stays [nan]. *)
Lemma unsquash_map__within a low high sh dt :
  is_float dt = true ->
  np.shape a = sh -> np.shape low = sh -> np.shape high = sh ->
  np.wf a -> np.wf low -> np.wf high ->
  Forall2 (fun l h => ordered_bounds l h = true) (np.data low) (np.data high) ->
  exists r, unsquash_map_ a (Box low high sh dt) = Ok r
    /\ np.shape r = sh /\ np.wf r
    /\ Forall2 (fun y '(x, (l, h)) =>
         (y = NaN \/ within l h y = true) /\ (x = NaN -> y = NaN))
       (np.data r) (triples a low high).
Proof.
  intros Hf Ha Hl Hh Wa Wl Wh Hb.
  destruct (bounded_of_ordered_bounds low high Hb) as [Hbl Hbh].
  destruct (unsquash_map__data a low high sh dt Ha Hl Hh Wa Wl Wh Hf Hbl Hbh)
    as (r & Hr & Hsr & Wr & Dr).
  exists r. split; [done|]. split; [done|]. split; [done|]. rewrite Dr.
  apply Forall2_map_triples.
  assert (Forall (fun _ : xq => True) (np.data a)) as Htrue
    by (by apply Forall_true).
  eapply Forall_impl; [exact (Forall_triples _ _ a low high Htrue Hb)|].
  intros [x [l h]] [_ Hlh]. simpl in *. split.
  - by apply xclip_nan_or_within.
  - intros ->. apply unsquash_value_NaN.
Qed.





(** ** Columns of a list of rows *)

Lemma zip_star_spec {A} (rows : list (list A)) (L : nat) :
  rows <> [] -> Forall (fun r => length r = L) rows ->
  length (zip_star rows) = L
  /\ forall j c, zip_star rows !! j = Some c ->
       Forall2 (fun r x => r !! j = Some x) rows c.
Proof.
  induction rows as [|r rows IH]; [done|]. intros _ Hall.
  apply Forall_cons in Hall as [Hr Hall].
  destruct rows as [|r' rows].
  - simpl. rewrite length_map. split; [done|]. intros j c Hc.
    change (map (fun x => [x]) r) with ((fun x => [x]) <$> r) in Hc.
    rewrite list_lookup_fmap in Hc.
    destruct (r !! j) as [x|] eqn:E; [|done]. injection Hc as <-.
    by repeat constructor.
  - assert (r' :: rows <> []) as Hne by done.
    destruct (IH Hne Hall) as [IHl IHc].
    change (zip_star (r :: r' :: rows))
      with (zip_with cons r (zip_star (r' :: rows))).
    split; [rewrite length_zip_with; lia|].
    intros j c Hc. rewrite lookup_zip_with in Hc.
    destruct (r !! j) as [x|] eqn:E; [|done].
    destruct (zip_star (r' :: rows) !! j) as [c'|] eqn:E'; [|done].
    injection Hc as <-. constructor; [done|]. by apply IHc.
Qed.

Lemma take_drop_concat {A} (ls : list (list A)) n i l :
  Forall (fun l => length l = n) ls -> ls !! i = Some l ->
  take n (drop (i * n) (concat ls)) = l.
Proof.
  intros Hall. revert i. induction Hall as [|l0 ls Hl0 _ IH]; intros i Hi;
    [done|].
  destruct i as [|i]; simpl in *.
  - injection Hi as ->. rewrite drop_0. by rewrite take_app_length'.
  - rewrite drop_app_add'; [by apply IH|]. done.
Qed.

Lemma mapM_seq {A} (f : nat -> result A) (l : list A) :
  (forall i x, l !! i = Some x -> f i = Ok x) ->
  mapM f (seq 0 (length l)) = Ok l.
Proof.
  intros H. apply mapM_Ok. apply Forall2_same_length_lookup_2.
  - by rewrite length_seq.
  - intros i j x Hj Hx. apply lookup_seq in Hj as [-> _]. by apply H.
Qed.

Lemma mapM_total {A B} (f : A -> result B) l :
  Forall (fun x => exists y, f x = Ok y) l -> exists rs, mapM f l = Ok rs.
Proof.
  induction 1 as [|x l [y Hy] _ [rs IH]]; simpl; [eauto|].
  rewrite Hy. simpl. rewrite IH. simpl. eauto.
Qed.

(** ** Stacking and slicing *)

Lemma promote_types_idem dt : np.promote_types dt dt = dt.
Proof. by destruct dt. Qed.

Lemma result_type_uniform sh dt l :
  Forall (uniform sh dt) l -> np.result_type l dt = dt.
Proof.
  induction 1 as [|a l (_ & Ha & _) _ IH]; [done|]. simpl.
  by rewrite IH, Ha, promote_types_idem.
Qed.

Lemma stack_uniform sh dt c :
  c <> [] -> Forall (uniform sh dt) c ->
  np.stack c = Ok (np.NdArray (length c :: sh) dt (concat (map np.data c)) false).
Proof.
  intros Hne Hall. destruct c as [|a0 rest]; [done|].
  apply Forall_cons in Hall as [(Hs0 & Hd0 & _) Hall]. unfold np.stack.
  assert (forallb (fun a => bool_decide (np.shape a = np.shape a0)) rest = true)
    as ->.
  { apply forallb_forall. intros a Ha%list_elem_of_In.
    rewrite Forall_forall in Hall. destruct (Hall a Ha) as (Hs & _).
    apply bool_decide_eq_true. congruence. }
  rewrite Hd0, Hs0. by rewrite (result_type_uniform sh dt rest Hall).
Qed.

Lemma getitem_stack sh dt c st pos x :
  Forall (uniform sh dt) c -> np.stack c = Ok st -> c !! pos = Some x ->
  np.getitem (np.ascontiguousarray st) pos = Ok x.
Proof.
  intros Hall Hst Hx.
  assert (c <> []) as Hne by (by destruct c).
  rewrite (stack_uniform sh dt c Hne Hall) in Hst. injection Hst as <-.
  unfold np.getitem, np.ascontiguousarray. simpl.
  rewrite decide_True by (by eapply lookup_lt_Some).
  rewrite Forall_forall in Hall.
  destruct (Hall x) as (Hs & Hd & Hw & Hb); [by eapply list_elem_of_lookup_2|].
  f_equal. destruct x as [xs xd xdata xb]. simpl in *. subst.
  f_equal.
  - apply take_drop_concat.
    + apply Forall_fmap, Forall_forall. intros a Ha.
      destruct (Hall a Ha) as (Hsa & _ & Hwa & _). unfold np.wf in Hwa.
      simpl. congruence.
    + change (map np.data c) with (np.data <$> c).
      by rewrite list_lookup_fmap, Hx.
  - by repeat case_match.
Qed.

(** ** The round trip of [batch] and [unbatch] *)

Lemma Forall2_Forall_r_impl {A B} (P : A -> Prop) (R : A -> B -> Prop)
    (Q : B -> Prop) l k :
  Forall P l -> Forall2 R l k -> (forall x y, P x -> R x y -> Q y) ->
  Forall Q k.
Proof.
  intros HP HR Himp. induction HR as [|x y l k Hxy _ IH]; [constructor|].
  apply Forall_cons in HP as [Hx HP]. constructor; eauto.
Qed.

Section roundtrip.
Context (first : struct np.ndarray) (rest : list (struct np.ndarray)).
Context (Hleaf : flatten first <> []).
Context (Hall : Forall (stackable first) (first :: rest)).

Lemma rows_length :
  Forall (fun r => length r = length (flatten first))
    (leaf_rows (first :: rest)).
Proof.
  unfold leaf_rows. apply Forall_fmap. eapply Forall_impl; [exact Hall|].
  intros s (Ht & _). simpl. by apply topology_flatten_length.
Qed.

Lemma cols_length :
  length (leaf_columns (first :: rest)) = length (flatten first).
Proof.
  unfold leaf_columns. by apply zip_star_spec; [|apply rows_length].
Qed.

Lemma cols_lookup j c :
  leaf_columns (first :: rest) !! j = Some c ->
  Forall2 (fun r x => r !! j = Some x) (leaf_rows (first :: rest)) c.
Proof.
  revert j c.
  by apply (zip_star_spec (leaf_rows (first :: rest))
              (length (flatten first))); [|apply rows_length].
Qed.

Lemma column_uniform j c :
  leaf_columns (first :: rest) !! j = Some c ->
  exists x0, flatten first !! j = Some x0
    /\ Forall (uniform (np.shape x0) (np.adtype x0)) c
    /\ length c = length (first :: rest).
Proof.
  intros Hc.
  destruct (lookup_lt_is_Some_2 (flatten first) j) as [x0 Hx0].
  { rewrite <- cols_length. by eapply lookup_lt_Some. }
  exists x0. split; [done|]. pose proof (cols_lookup j c Hc) as HF.
  split.
  - eapply (Forall2_Forall_r_impl
      (fun r => exists s, r = flatten s /\ stackable first s)); [|exact HF|].
    + unfold leaf_rows. apply Forall_fmap.
      eapply Forall_impl; [exact Hall|]. intros s Hs. simpl. eauto.
    + intros r x (s & -> & _ & Hsh & Hdt & Hwf) Hx.
      change (np.shape <$> flatten s = np.shape <$> flatten first) in Hsh.
      change (np.adtype <$> flatten s = np.adtype <$> flatten first) in Hdt.
      assert (np.shape x = np.shape x0) as Es.
      { assert ((np.shape <$> flatten s) !! j = (np.shape <$> flatten first) !! j)
          as E by (by rewrite Hsh).
        rewrite !list_lookup_fmap, Hx, Hx0 in E. by injection E. }
      assert (np.adtype x = np.adtype x0) as Ed.
      { assert ((np.adtype <$> flatten s) !! j = (np.adtype <$> flatten first) !! j)
          as E by (by rewrite Hdt).
        rewrite !list_lookup_fmap, Hx, Hx0 in E. by injection E. }
      rewrite Forall_forall in Hwf.
      destruct (Hwf x) as [? ?]; [by eapply list_elem_of_lookup_2|].
      done.
  - apply Forall2_length in HF. unfold leaf_rows in HF.
    by rewrite length_map in HF.
Qed.

Lemma stack_leaves_cols :
  exists stacked,
    mapM stack_leaves (leaf_columns (first :: rest)) = Ok stacked.
Proof.
  apply mapM_total, Forall_lookup. intros j c Hc.
  destruct (column_uniform j c Hc) as (x0 & _ & Hu & Hl).
  unfold stack_leaves.
  rewrite (stack_uniform (np.shape x0) (np.adtype x0) c);
    [simpl; eauto| |done].
  by destruct c.
Qed.

Lemma batch_stack b :
  batch (first :: rest) (Flag false) = Ok b <->
  exists stacked,
    mapM stack_leaves (leaf_columns (first :: rest)) = Ok stacked
    /\ unflatten_as first stacked = Ok b.
Proof.
  unfold batch. cbn [bind]. unfold map_structure.
  assert (mapM (assert_same_structure first) rest = Ok (map (fun _ => ()) rest))
    as ->.
  { apply mapM_Ok. apply Forall_cons in Hall as [_ Hr].
    clear -Hr. induction Hr as [|s l (Hs & _) _ IH]; simpl; constructor;
      [|done]. by apply assert_same_structure_Ok. }
  cbn [bind]. fold (leaf_rows (first :: rest)).
  fold (leaf_columns (first :: rest)). fold stack_leaves.
  split.
  - intros (stacked & Hs & Hb)%bind_Ok. eauto.
  - intros (stacked & Hs & Hb). by rewrite Hs.
Qed.

Lemma unbatch_stacked b stacked :
  mapM stack_leaves (leaf_columns (first :: rest)) = Ok stacked ->
  unflatten_as first stacked = Ok b ->
  unbatch b = Ok (first :: rest).
Proof.
  intros Hst Hb.
  apply unflatten_as_inv in Hb as (Hfb & Htb & Hlen).
  apply mapM_Ok in Hst.
  assert (length stacked = length (flatten first)) as Ls by done.
  destruct stacked as [|st0 stacked'] eqn:Est.
  { destruct (flatten first); done. }
  rewrite <- Est in *.
  rewrite (unbatch_unfold b st0 stacked') by congruence.
  (* the leading dimension of the first batch *)
  assert (np.len st0 = Ok (length (first :: rest))) as ->.
  { assert (stacked !! 0 = Some st0) as H0 by (by rewrite Est).
    destruct (Forall2_lookup_r _ _ _ _ _ Hst H0) as (c & Hc & Hsc).
    destruct (column_uniform 0 c Hc) as (x0 & _ & Hu & Hl).
    unfold stack_leaves in Hsc.
    rewrite (stack_uniform (np.shape x0) (np.adtype x0) c) in Hsc;
      [|by destruct c|done].
    simpl in Hsc. injection Hsc as <-. unfold np.len. simpl. by rewrite Hl. }
  cbn [bind]. apply mapM_seq. intros pos s Hs.
  assert (stackable first s) as (Hts & _).
  { rewrite Forall_forall in Hall. apply Hall.
    by eapply list_elem_of_lookup_2. }
  assert (mapM (fun b0 => np.getitem b0 pos) (flatten b) = Ok (flatten s))
    as ->.
  { rewrite Hfb. apply mapM_Ok, Forall2_same_length_lookup_2.
    - rewrite Ls. symmetry. by apply topology_flatten_length.
    - intros j st x Hj Hx.
      destruct (Forall2_lookup_r _ _ _ _ _ Hst Hj) as (c & Hc & Hsc).
      destruct (column_uniform j c Hc) as (x0 & _ & Hu & Hl).
      pose proof (cols_lookup j c Hc) as HF.
      assert (leaf_rows (first :: rest) !! pos = Some (flatten s)) as Hr.
      { unfold leaf_rows.
        change (map flatten (first :: rest))
          with (flatten <$> first :: rest).
        by rewrite list_lookup_fmap, Hs. }
      destruct (Forall2_lookup_l _ _ _ _ _ HF Hr) as (x' & Hx' & Hxx).
      assert (x' = x) as -> by congruence.
      unfold stack_leaves in Hsc.
      apply bind_Ok in Hsc as (st' & Hst' & [= <-]).
      by eapply getitem_stack. }
  cbn [bind]. apply unflatten_as_flatten. congruence.
Qed.

End roundtrip.

(** Counterexample to C1.  Two items that are single leaves of shapes
    [(2,)] and [(3,)] have the same topology, but [batch] fails on them;
    two empty tuples are batched into an empty tuple, on which [unbatch]
    fails. *)
Lemma unbatch_batch_not_roundtrip :
  let a := Leaf (np.NdArray [2] np.int64 [Fin 1; Fin 2] false) in
  let b := Leaf (np.NdArray [3] np.int64 [Fin 4; Fin 5; Fin 6] false) in
  topology a = topology b
  /\ (let* s := batch [a; b] (Flag false) in unbatch s)
     = Raise (ValueError "all input arrays must have the same shape")
  /\ (let* s := batch [Tup []; Tup []] (Flag false) in unbatch s)
     = Raise (IndexError "list index out of range").
Proof. repeat split. Qed.

(** C1, amended.  For a non-empty list of items of one topology with at
    least one leaf, whose co-located leaves have the same shape and
    dtype and carry no batch marker, [unbatch] after [batch] in stack
    mode returns the list of the items. *)
Theorem unbatch_batch_roundtrip
    (first : struct np.ndarray) (rest : list (struct np.ndarray)) :
  flatten first <> [] ->
  Forall (stackable first) (first :: rest) ->
  (let* b := batch (first :: rest) (Flag false) in unbatch b)
  = Ok (first :: rest).
Proof.
  intros Hleaf Hall.
  (* the batch: the stacked columns, packed as the first item *)
  destruct (stack_leaves_cols first rest Hall) as [stacked Hst].
  destruct (unflatten_as_Ok first stacked) as (b & Hb & _).
  { apply mapM_length in Hst. rewrite Hst. symmetry.
    by apply cols_length. }
  assert (batch (first :: rest) (Flag false) = Ok b) as ->
    by (apply batch_stack; eauto).
  (* slicing it position by position gives back the items *)
  cbn [bind]. by eapply unbatch_stacked.
Qed.

Lemma unbatch_batch_roundtrip_witness :
  (let* b := batch ex_items (Flag false) in unbatch b) = Ok ex_items.
Proof.
  apply (unbatch_batch_roundtrip (ex_item 1 4 7) [ex_item 2 5 8; ex_item 3 6 9]).
  - vm_compute. discriminate.
  - repeat constructor; vm_compute; reflexivity.
Defined.

(** ** Structure mismatch *)

Lemma all_ok_inv l : all_ok l = Ok () -> Forall (fun r => r = Ok ()) l.
Proof.
  induction l as [|[[]|e] l IH]; simpl; [constructor| |done].
  intros H. constructor; auto.
Qed.

Lemma assert_same_structure_inv {A B} (s1 : struct A) :
  forall (s2 : struct B),
  assert_same_structure s1 s2 = Ok () -> topology s1 = topology s2.
Proof.
  induction s1 as [a|l1 IH|m1 IH] using struct_ind'; intros [b|l2|m2];
    simpl; try done.
  - case_decide as Hlen; [|done]. intros H%all_ok_inv.
    apply topology_Tup_inv, map_eq_Forall2.
    revert l2 Hlen H. induction IH as [|x l1 Hx _ IHl]; intros [|y l2] Hlen H;
      simpl in *; try done; try (by constructor).
    apply Forall_cons in H as [Hxy H]. constructor; [by apply Hx|].
    apply IHl; [lia|done].
  - case_decide as Hdom; [|done]. intros H%all_ok_inv.
    assert (topology <$> m1 = topology <$> m2) as H'.
    { apply map_eq. intros k. rewrite !lookup_fmap.
      destruct (m1 !! k) as [c1|] eqn:E1.
      - assert (is_Some (m2 !! k)) as [c2 E2].
        { apply elem_of_dom. rewrite <- Hdom. apply elem_of_dom. eauto. }
        rewrite E2. simpl. f_equal.
        rewrite Forall_forall in IH. apply IH.
        { by eapply lookup_sorted_items_snd. }
        rewrite Forall_fmap, Forall_forall in H.
        specialize (H k). simpl in H. rewrite lookup_fmap, E1, E2 in H.
        apply H. apply elem_of_sorted_keys. eauto.
      - assert (m2 !! k = None) as ->; [|done].
        apply not_elem_of_dom. rewrite <- Hdom. by apply not_elem_of_dom. }
    unfold topology in *. simpl. by f_equal.
Qed.

Lemma assert_same_structure_iff {A B} (s1 : struct A) (s2 : struct B) :
  assert_same_structure s1 s2 = Ok () <-> topology s1 = topology s2.
Proof.
  split; [apply assert_same_structure_inv|apply assert_same_structure_Ok].
Qed.

Lemma map_structure2_mismatch {A B C} (f : A -> B -> result C) s1 s2 :
  topology s1 <> topology s2 ->
  exists e, (e = structure_error \/ e = sequence_type_error)
    /\ assert_same_structure s1 s2 = Raise e
    /\ map_structure2 f s1 s2 = Raise e.
Proof.
  intros Hne. unfold map_structure2.
  destruct (assert_same_structure s1 s2) as [[]|e] eqn:E.
  - by apply assert_same_structure_inv in E.
  - exists e. split; [by eapply assert_same_structure_Raise|done].
Qed.

(** X1.  When the action and the descriptor structure differ in topology,
    [clip_action], [normalize_action] and [unsquash_action] all raise the
    same structure error of dm_tree, before any leaf is looked at. *)
Theorem action_transforms_structure_mismatch
    (action : struct np.ndarray) (action_space : struct Space) :
  topology action <> topology action_space ->
  exists e,
    (e = structure_error \/ e = sequence_type_error)
    /\ clip_action action action_space = Raise e
    /\ normalize_action action action_space = Raise e
    /\ unsquash_action action action_space = Raise e.
Proof.
  intros Hne. unfold clip_action, normalize_action, unsquash_action.
  destruct (map_structure2_mismatch clip_map_ _ _ Hne) as (e & He & Ha & Hc).
  exists e. split; [done|]. split; [done|].
  unfold map_structure2. by rewrite Ha.
Qed.

Lemma action_transforms_structure_mismatch_witness :
  exists e,
    (e = structure_error \/ e = sequence_type_error)
    /\ clip_action (Tup [Leaf (np.scalar np.float32 (Fin 0))])
         (Leaf (Discrete 2 0)) = Raise e
    /\ normalize_action (Tup [Leaf (np.scalar np.float32 (Fin 0))])
         (Leaf (Discrete 2 0)) = Raise e
    /\ unsquash_action (Tup [Leaf (np.scalar np.float32 (Fin 0))])
         (Leaf (Discrete 2 0)) = Raise e.
Proof.
  apply (action_transforms_structure_mismatch
    (Tup [Leaf (np.scalar np.float32 (Fin 0))]) (Leaf (Discrete 2 0))).
  vm_compute. discriminate.
Defined.

(** ** The columns of items of one topology *)

Lemma leaf_columns_spec (first : struct np.ndarray) rest :
  Forall (fun s => topology s = topology first) rest ->
  length (leaf_columns (first :: rest)) = length (flatten first)
  /\ forall j c, leaf_columns (first :: rest) !! j = Some c ->
       Forall2 (fun s x => flatten s !! j = Some x) (first :: rest) c.
Proof.
  intros Ht.
  assert (Forall (fun r => length r = length (flatten first))
            (leaf_rows (first :: rest))) as Hrows.
  { unfold leaf_rows. apply Forall_fmap. constructor; [done|].
    eapply Forall_impl; [exact Ht|]. intros s Hs. simpl.
    by apply topology_flatten_length. }
  destruct (zip_star_spec (leaf_rows (first :: rest))
              (length (flatten first))) as [Hl Hc]; [done|done|].
  split; [done|]. intros j c Hj. specialize (Hc j c Hj).
  unfold leaf_rows in Hc. by apply Forall2_fmap_l in Hc.
Qed.

Lemma batch_Ok_inv first rest flag b :
  batch (first :: rest) flag = Ok b ->
  exists already : bool,
    Forall (fun s => topology s = topology first) rest
    /\ mapM (fun s => let* r := (if already then np.concatenate else np.stack) s
                      in Ok (np.ascontiguousarray r))
         (leaf_columns (first :: rest)) = Ok (flatten b)
    /\ topology b = topology first
    /\ match flag with
       | Flag f => already = f
       | Auto => exists leaf, head (flatten first) = Some leaf
                   /\ already = np.batched leaf
       end.
Proof.
  unfold batch. intros (already & Hal & H)%bind_Ok. exists already.
  unfold map_structure in H.
  apply bind_Ok in H as (us & Hus & H). apply bind_Ok in H as (rs & Hrs & H).
  apply unflatten_as_inv in H as (<- & Htb & _).
  split; [|split; [done|split; [done|]]].
  - apply mapM_Ok in Hus. clear -Hus. revert us Hus.
    induction rest as [|s rest IH]; intros us Hus; [constructor|].
    inversion Hus as [|? [] ? ? H1 H2]; subst. constructor.
    + symmetry. by apply assert_same_structure_inv.
    + by eapply IH.
  - destruct flag as [f|]; [by injection Hal|].
    destruct (flatten first) as [|leaf ?]; [done|].
    injection Hal as <-. eauto.
Qed.

Lemma stack_Ok_inv l r :
  np.stack l = Ok r ->
  exists a0 rest, l = a0 :: rest
    /\ Forall (fun a => np.shape a = np.shape a0) rest
    /\ r = np.NdArray (length l :: np.shape a0)
             (np.result_type rest (np.adtype a0))
             (concat (map np.data l)) false.
Proof.
  unfold np.stack. destruct l as [|a0 rest]; [done|].
  destruct (forallb _ rest) eqn:E; [|done]. intros [= <-].
  exists a0, rest. split; [done|]. split; [|done].
  apply Forall_forall. intros a Ha. rewrite forallb_forall in E.
  specialize (E a). rewrite <- list_elem_of_In in E.
  by apply bool_decide_eq_true in E.
Qed.

Lemma concatenate_Ok_inv l r :
  np.concatenate l = Ok r ->
  exists a0 rest, l = a0 :: rest
    /\ r = np.NdArray
             (foldr Nat.add 0 (map (fun a => hd 0 (np.shape a)) l)
                :: tail (np.shape a0))
             (np.result_type rest (np.adtype a0))
             (concat (map np.data l)) false.
Proof.
  unfold np.concatenate. destruct l as [|a0 rest]; [done|].
  destruct (existsb _ _); [done|]. destruct (forallb _ rest); [|done].
  intros [= <-]. eauto.
Qed.

(** X2.  Whenever [batch] returns, in any mode, every item has the
    topology of the result.  In stack mode every leaf of the result has
    the number of items as its leading dimension; in concat mode the
    leading dimension of a leaf is the sum of the leading dimensions of
    the co-located leaves of the items. *)
Theorem batch_result_invariants
    (list_of_structs : list (struct np.ndarray)) (flag : batch_dim_flag)
    (b : struct np.ndarray) :
  batch list_of_structs flag = Ok b ->
  Forall (fun s => topology s = topology b) list_of_structs
  /\ (flag = Flag false ->
      Forall (fun leaf => hd_error (np.shape leaf)
                          = Some (length list_of_structs)) (flatten b))
  /\ (flag = Flag true ->
      Forall2 (fun col leaf =>
                 hd_error (np.shape leaf)
                 = Some (foldr Nat.add 0
                           (map (fun a => hd 0 (np.shape a)) col)))
        (leaf_columns list_of_structs) (flatten b)).
Proof.
  intros H. destruct list_of_structs as [|first rest]; [done|].
  destruct (batch_Ok_inv _ _ _ _ H) as (already & Ht & Hm & Htb & Hf).
  destruct (leaf_columns_spec first rest Ht) as [Hlen Hcols].
  apply mapM_Ok in Hm. split; [|split].
  - constructor; [done|]. eapply Forall_impl; [exact Ht|].
    intros s Hs. simpl in Hs. congruence.
  - intros ->. subst already. apply Forall_lookup. intros j leaf Hj.
    destruct (Forall2_lookup_r _ _ _ _ _ Hm Hj) as (col & Hcol & Hs).
    apply bind_Ok in Hs as (r & Hr & [= <-]).
    apply stack_Ok_inv in Hr as (a0 & rest' & -> & _ & ->). simpl.
    apply Hcols, Forall2_length in Hcol. simpl in Hcol. by rewrite Hcol.
  - intros ->. subst already. eapply Forall2_impl; [exact Hm|].
    intros col leaf Hs. simpl in Hs.
    apply bind_Ok in Hs as (r & Hr & [= <-]).
    apply concatenate_Ok_inv in Hr as (a0 & rest' & -> & ->). done.
Qed.

Lemma batch_result_invariants_witness :
  Forall (fun s => topology s = topology ex_batch) ex_items
  /\ Forall (fun leaf => hd_error (np.shape leaf) = Some (length ex_items))
       (flatten ex_batch).
Proof.
  destruct (batch_result_invariants ex_items (Flag false) ex_batch)
    as (H1 & H2 & _); [vm_compute; reflexivity|].
  split; [exact H1|]. apply H2. reflexivity.
Defined.

(** ** What [unbatch] returns *)

Lemma unbatch_Ok_inv (bs : struct np.ndarray) first rest out :
  flatten bs = first :: rest ->
  unbatch bs = Ok out ->
  np.len first = Ok (length out)
  /\ forall i item, out !! i = Some item ->
       unflatten_as bs (flatten item) = Ok item
       /\ mapM (fun b => np.getitem b i) (flatten bs) = Ok (flatten item).
Proof.
  intros Hf H. rewrite (unbatch_unfold _ _ _ Hf) in H.
  apply bind_Ok in H as (n & Hn & H).
  pose proof (mapM_length _ _ _ H) as Hlen. rewrite length_seq in Hlen.
  split; [congruence|]. intros i item Hi. apply mapM_Ok in H.
  destruct (Forall2_lookup_r _ _ _ _ _ H Hi) as (pos & Hpos & Hb).
  apply lookup_seq in Hpos as [-> _]. simpl in Hb.
  apply bind_Ok in Hb as (items & Hitems & Hu).
  pose proof (unflatten_as_inv _ _ _ Hu) as (<- & _ & _). done.
Qed.

(** X3.  Whenever [unbatch] returns, it returns as many items as the
    leading dimension of the first leaf; every item has the topology of
    the input, and the leaves of the [i]-th item are the [i]-th slices of
    the leaves of the input. *)
Theorem unbatch_items (batches_struct : struct np.ndarray)
    (out : list (struct np.ndarray)) :
  unbatch batches_struct = Ok out ->
  exists first,
    head (flatten batches_struct) = Some first
    /\ hd_error (np.shape first) = Some (length out)
    /\ forall i item, out !! i = Some item ->
         topology item = topology batches_struct
         /\ Forall2 (fun b x => np.getitem b i = Ok x)
              (flatten batches_struct) (flatten item).
Proof.
  intros H. destruct (flatten batches_struct) as [|first rest] eqn:Hf.
  { unfold unbatch in H. by rewrite Hf in H. }
  destruct (unbatch_Ok_inv _ _ _ _ Hf H) as [Hn Hitems].
  exists first. split; [done|]. split.
  - unfold np.len in Hn. destruct (np.shape first); [done|].
    simpl. congruence.
  - intros i item Hi. destruct (Hitems i item Hi) as [Hu Hg].
    apply unflatten_as_inv in Hu as (_ & Ht & _). split; [done|].
    rewrite <- Hf. by apply mapM_Ok.
Qed.

Lemma unbatch_items_witness :
  exists first,
    head (flatten ex_batch) = Some first
    /\ hd_error (np.shape first) = Some (length ex_items)
    /\ forall i item, ex_items !! i = Some item ->
         topology item = topology ex_batch
         /\ Forall2 (fun b x => np.getitem b i = Ok x)
              (flatten ex_batch) (flatten item).
Proof.
  apply (unbatch_items ex_batch ex_items). vm_compute. reflexivity.
Defined.

(** ** [batch] after [unbatch] *)

Lemma concat_slices {A} (d : list A) k n :
  length d = n * k ->
  concat (map (fun i => take k (drop (i * k) d)) (seq 0 n)) = d.
Proof.
  revert d. induction n as [|n IH]; intros d Hd.
  - by destruct d.
  - cbn [seq map concat]. rewrite drop_0.
    transitivity (take k d ++ drop k d); [|apply take_drop]. f_equal.
    etrans; [|apply (IH (drop k d)); rewrite length_drop; lia].
    f_equal. rewrite <- fmap_S_seq.
    change (map ?f (S <$> ?l)) with (f <$> (S <$> l)).
    rewrite <- list_fmap_compose. apply list_fmap_ext.
    intros _ i _. simpl. rewrite drop_drop. repeat f_equal; lia.
Qed.

Lemma Forall2_functional {A B} (f : A -> result B) (g : A -> B) l k :
  (forall x, x ∈ l -> f x = Ok (g x)) ->
  Forall2 (fun x y => f x = Ok y) l k -> k = map g l.
Proof.
  intros Hf H. induction H as [|x y l k Hxy _ IH]; [done|]. simpl.
  rewrite Hf in Hxy by left. injection Hxy as <-. f_equal.
  apply IH. intros. apply Hf. by right.
Qed.

(** Stacking the slices of an array gives the array back. *)
Lemma stack_slices n leaf col :
  0 < n -> batch_leaf n leaf ->
  Forall2 (fun i x => np.getitem leaf i = Ok x) (seq 0 n) col ->
  stack_leaves col = Ok leaf.
Proof.
  intros Hn (Hs & Hw & Hb) Hcol.
  destruct leaf as [shape dt d b]. simpl in *. subst b.
  destruct shape as [|n' sh]; [done|]. injection Hs as ->.
  unfold np.wf in Hw. simpl in Hw.
  set (slice := fun i => np.NdArray sh dt
                  (take (np.numel sh) (drop (i * np.numel sh) d)) false).
  assert (col = map slice (seq 0 n)) as ->.
  { eapply Forall2_functional; [|exact Hcol]. intros i Hi%elem_of_seq.
    unfold np.getitem. simpl. rewrite decide_True by lia. unfold slice.
    by destruct sh. }
  unfold stack_leaves.
  rewrite (stack_uniform sh dt).
  - cbn [bind]. unfold np.ascontiguousarray. simpl. f_equal.
    rewrite length_map, length_seq, List.map_map. simpl.
    by rewrite concat_slices by lia.
  - destruct n; [lia|done].
  - apply Forall_fmap, Forall_forall. intros i Hi%elem_of_seq.
    unfold uniform, np.wf. simpl. repeat split.
    rewrite length_take, length_drop. nia.
Qed.

(** X4.  For a structure with at least one leaf whose leaves all have the
    same positive leading dimension (well formed, not marked as batched),
    [batch] in stack mode after [unbatch] gives the structure back. *)
Theorem batch_unbatch_roundtrip (batches_struct : struct np.ndarray)
    (n : nat) :
  0 < n ->
  flatten batches_struct <> [] ->
  Forall (batch_leaf n) (flatten batches_struct) ->
  (let* out := unbatch batches_struct in batch out (Flag false))
  = Ok batches_struct.
Proof.
  intros Hn Hne Hall.
  destruct (flatten batches_struct) as [|first rest] eqn:Hf; [done|].
  assert (exists sh, np.shape first = n :: sh) as [sh Hsh].
  { apply Forall_cons in Hall as [(H & _) _].
    destruct (np.shape first) as [|? sh]; [done|]. injection H as ->. eauto. }
  destruct (unbatch_long_leaves batches_struct first rest n sh Hf Hsh)
    as (out & Hout & Hlen).
  { apply Forall_cons in Hall as [_ Hall]. eapply Forall_impl; [exact Hall|].
    intros a (H & _). unfold leading_dim.
    destruct (np.shape a); [done|]. injection H as ->. done. }
  rewrite Hout. cbn [bind].
  destruct (unbatch_Ok_inv _ _ _ _ Hf Hout) as [_ Hitems].
  destruct out as [|item0 items]; [simpl in Hlen; lia|].
  assert (forall i item, (item0 :: items) !! i = Some item ->
            topology item = topology batches_struct) as Htops.
  { intros i item Hi. destruct (Hitems i item Hi) as [Hu _].
    by apply unflatten_as_inv in Hu as (_ & Ht & _). }
  pose proof (Htops 0 item0 eq_refl) as Ht0.
  assert (Forall (fun s => topology s = topology item0) items) as Htop.
  { apply Forall_lookup. intros i s Hi.
    pose proof (Htops (S i) s Hi). congruence. }
  destruct (leaf_columns_spec item0 items Htop) as [Hcl Hcols].
  unfold batch. cbn [bind]. unfold map_structure.
  assert (mapM (assert_same_structure item0) items
          = Ok (map (fun _ => ()) items)) as ->.
  { apply mapM_Ok. clear -Htop.
    induction Htop as [|s l Hs _ IH]; simpl; constructor; [|done].
    by apply assert_same_structure_Ok. }
  cbn [bind]. fold (leaf_rows (item0 :: items)).
  fold (leaf_columns (item0 :: items)). fold stack_leaves.
  assert (mapM stack_leaves (leaf_columns (item0 :: items))
          = Ok (flatten batches_struct)) as ->.
  { apply mapM_Ok, Forall2_same_length_lookup_2.
    - rewrite Hcl. by apply topology_flatten_length.
    - intros j col leaf Hcol Hleaf.
      apply (stack_slices n); [done| |].
      + rewrite Hf in Hleaf. rewrite Forall_forall in Hall. apply Hall.
        by eapply list_elem_of_lookup_2.
      + specialize (Hcols j col Hcol).
        apply Forall2_same_length_lookup_2.
        * rewrite length_seq. apply Forall2_length in Hcols. lia.
        * intros i pos x Hpos Hx. apply lookup_seq in Hpos as [-> _].
          destruct (Forall2_lookup_r _ _ _ _ _ Hcols Hx) as (s & Hs & Hsj).
          destruct (Hitems i s Hs) as [_ Hg]. apply mapM_Ok in Hg.
          destruct (Forall2_lookup_r _ _ _ _ _ Hg Hsj) as (leaf' & Hl' & Hgi).
          change (0 + i) with i. congruence. }
  cbn [bind]. by apply unflatten_as_flatten.
Qed.

Lemma batch_unbatch_roundtrip_witness :
  (let* out := unbatch ex_batch in batch out (Flag false)) = Ok ex_batch.
Proof.
  apply (batch_unbatch_roundtrip ex_batch 3).
  - lia.
  - vm_compute. discriminate.
  - repeat constructor.
Defined.

(** ** When [unbatch] and [batch] return *)

(** X5.  [unbatch] returns exactly when the structure has a leaf, its
    first leaf has a leading dimension, and no other leaf has a smaller
    leading dimension (a leaf without dimensions counts as 0). *)
Theorem unbatch_returns_iff (batches_struct : struct np.ndarray) :
  (exists out, unbatch batches_struct = Ok out)
  <-> exists first rest n sh,
        flatten batches_struct = first :: rest
        /\ np.shape first = n :: sh
        /\ Forall (fun b => n <= leading_dim b) rest.
Proof.
  split.
  - intros [out Hout].
    destruct (flatten batches_struct) as [|first rest] eqn:Hf.
    { unfold unbatch in Hout. by rewrite Hf in Hout. }
    destruct (unbatch_Ok_inv _ _ _ _ Hf Hout) as [Hn Hitems].
    unfold np.len in Hn. destruct (np.shape first) as [|n sh] eqn:Hs; [done|].
    injection Hn as ->. exists first, rest, (length out), sh.
    split; [done|]. split; [done|].
    destruct out as [|item0 out'] using rev_ind.
    { apply Forall_forall. intros; simpl; lia. }
    clear IHout'. rewrite length_app. simpl.
    destruct (Hitems (length out') item0) as [_ Hg].
    { rewrite lookup_app_r by lia. by rewrite Nat.sub_diag. }
    rewrite Hf in Hg. cbn [mapM] in Hg.
    apply bind_Ok in Hg as (y0 & Hy0 & Hg).
    apply bind_Ok in Hg as (ys & Hg & _). apply mapM_Ok in Hg.
    apply Forall_forall. intros b Hb.
    apply list_elem_of_lookup in Hb as [j Hj].
    destruct (Forall2_lookup_l _ _ _ _ _ Hg Hj) as (y & _ & Hy).
    pose proof (getitem_is_ok b (length out')) as Hok.
    rewrite Hy in Hok. simpl in Hok. symmetry in Hok.
    apply bool_decide_eq_true in Hok. lia.
  - intros (first & rest & n & sh & Hf & Hs & Hall).
    destruct (unbatch_long_leaves _ _ _ _ _ Hf Hs Hall) as (out & Hout & _).
    eauto.
Qed.

Lemma stack_Ok_iff (col : list np.ndarray) :
  (exists r, np.stack col = Ok r)
  <-> exists a0 rest, col = a0 :: rest
        /\ Forall (fun a => np.shape a = np.shape a0) rest.
Proof.
  split.
  - intros [r Hr]. apply stack_Ok_inv in Hr as (a0 & rest & -> & H & _).
    eauto.
  - intros (a0 & rest & -> & H). unfold np.stack.
    assert (forallb (fun a => bool_decide (np.shape a = np.shape a0)) rest
            = true) as ->; [|eauto].
    apply forallb_forall. intros a Ha. apply bool_decide_eq_true.
    rewrite Forall_forall in H. apply H. by apply list_elem_of_In.
Qed.

(** X6.  In stack mode, [batch] returns exactly when the list is not
    empty and every item has the topology of the first item and, leaf by
    leaf, its shapes. *)
Theorem batch_stack_returns_iff (list_of_structs : list (struct np.ndarray)) :
  (exists b, batch list_of_structs (Flag false) = Ok b)
  <-> exists first rest,
        list_of_structs = first :: rest
        /\ Forall (fun s =>
             topology s = topology first
             /\ map np.shape (flatten s) = map np.shape (flatten first))
           rest.
Proof.
  split.
  - intros [b Hb]. destruct list_of_structs as [|first rest]; [done|].
    exists first, rest. split; [done|].
    destruct (batch_Ok_inv _ _ _ _ Hb) as (already & Ht & Hm & _ & ->).
    destruct (leaf_columns_spec first rest Ht) as [Hlen Hcols].
    apply mapM_Ok in Hm.
    apply Forall_lookup. intros i s Hi.
    pose proof (proj1 (Forall_lookup _ _) Ht i s Hi) as Hts. simpl in Hts.
    split; [done|]. apply map_eq_Forall2.
    apply Forall2_same_length_lookup_2.
    { by apply topology_flatten_length. }
    intros j x x0 Hx Hx0.
    assert (is_Some (leaf_columns (first :: rest) !! j)) as [col Hcol].
    { apply lookup_lt_is_Some. rewrite Hlen. by eapply lookup_lt_Some. }
    destruct (Forall2_lookup_l _ _ _ _ _ Hm Hcol) as (y & _ & Hy).
    apply bind_Ok in Hy as (st & Hst & _).
    apply stack_Ok_inv in Hst as (a0 & rest' & -> & Hsh & _).
    pose proof (Hcols j _ Hcol) as Hc.
    inversion Hc as [|? ? ? ? H0 Hrest]; subst.
    assert (a0 = x0) as -> by congruence.
    destruct (Forall2_lookup_l _ _ _ _ _ Hrest Hi) as (a & Ha & Hsa).
    assert (a = x) as -> by congruence.
    rewrite Forall_forall in Hsh. apply Hsh.
    by eapply list_elem_of_lookup_2.
  - intros (first & rest & -> & Hall).
    assert (Forall (fun s => topology s = topology first) rest) as Ht.
    { eapply Forall_impl; [exact Hall|]. by intros s [? _]. }
    destruct (leaf_columns_spec first rest Ht) as [Hlen Hcols].
    unfold batch. cbn [bind]. unfold map_structure.
    assert (mapM (assert_same_structure first) rest
            = Ok (map (fun _ => ()) rest)) as ->.
    { apply mapM_Ok. clear -Ht.
      induction Ht as [|s l Hs _ IH]; simpl; constructor; [|done].
      by apply assert_same_structure_Ok. }
    cbn [bind]. fold (leaf_rows (first :: rest)).
    fold (leaf_columns (first :: rest)). fold stack_leaves.
    destruct (mapM_total stack_leaves (leaf_columns (first :: rest)))
      as [stacked Hst].
    { apply Forall_lookup. intros j col Hcol.
      pose proof (Hcols j _ Hcol) as Hc.
      inversion Hc as [|? a0 ? col' H0 Hrest]; subst.
      destruct (proj2 (stack_Ok_iff (a0 :: col'))) as [st Hst].
      { exists a0, col'. split; [done|].
        apply Forall_lookup. intros i a Ha.
        destruct (Forall2_lookup_r _ _ _ _ _ Hrest Ha) as (s & Hs & Hsj).
        destruct (proj1 (Forall_lookup _ _) Hall i s Hs) as [_ Hsh].
        apply map_eq_Forall2 in Hsh.
        destruct (Forall2_lookup_l _ _ _ _ _ Hsh Hsj) as (a0' & Ha0 & E).
        congruence. }
      unfold stack_leaves. rewrite Hst. eauto. }
    rewrite Hst. cbn [bind].
    destruct (unflatten_as_Ok first stacked) as (b & Hb & _); [|eauto].
    apply mapM_length in Hst. congruence.
Qed.

(** ** Stack mode and concat mode of [batch] *)

Lemma topology_smap {A B} (f : A -> B) (s : struct A) :
  topology (smap f s) = topology s.
Proof.
  unfold topology.
  induction s as [a|l IH|m IH] using struct_ind'; simpl; [done| |].
  - f_equal. rewrite List.map_map. apply map_eq_Forall2.
    induction IH; constructor; done.
  - f_equal. rewrite <- map_fmap_compose. apply map_eq. intros k.
    rewrite !lookup_fmap. destruct (m !! k) as [c|] eqn:E; [|done].
    simpl. f_equal. rewrite Forall_forall in IH. apply IH.
    by eapply lookup_sorted_items_snd.
Qed.

Lemma flatten_smap {A B} (f : A -> B) (s : struct A) :
  flatten (smap f s) = map f (flatten s).
Proof.
  induction s as [a|l IH|m IH] using struct_ind'.
  - done.
  - cbn [smap flatten].
    induction IH as [|x l Hx _ IHl]; [done|]. cbn [map concat].
    rewrite List.map_app. by f_equal.
  - cbn [smap]. rewrite !flatten_Dct, sorted_items_fmap_snd.
    revert IH. generalize ((sorted_items m).*2). intros l IH.
    induction IH as [|x l Hx _ IHl]; [done|]. cbn [map concat].
    rewrite List.map_app. by f_equal.
Qed.

Lemma zip_star_map {A B} (f : A -> B) (rows : list (list A)) :
  zip_star (map (map f) rows) = map (map f) (zip_star rows).
Proof.
  induction rows as [|r rows IH]; [done|].
  destruct rows as [|r' rows'].
  - simpl. rewrite !List.map_map. done.
  - change (zip_star (map (map f) (r :: r' :: rows')))
      with (zip_with cons (map f r) (zip_star (map (map f) (r' :: rows')))).
    rewrite IH.
    change (zip_star (r :: r' :: rows'))
      with (zip_with cons r (zip_star (r' :: rows'))).
    generalize (zip_star (r' :: rows')). clear.
    induction r as [|x r IH]; intros [|c cs]; simpl; try done.
    by rewrite IH.
Qed.

Lemma unflatten_as_Ok_iff {A B} (s : struct A) (flat : list B) r :
  unflatten_as s flat = Ok r <-> flatten r = flat /\ topology r = topology s.
Proof.
  split.
  - intros H. by apply unflatten_as_inv in H as (? & ? & _).
  - intros [Hf Ht].
    destruct (unflatten_as_Ok s flat) as (r' & Hr' & Hf' & Ht').
    { rewrite <- Hf. symmetry. by apply topology_flatten_length. }
    rewrite Hr'. f_equal. apply struct_eq; congruence.
Qed.

Lemma batch_Ok_iff first rest (f : bool) b :
  batch (first :: rest) (Flag f) = Ok b
  <-> Forall (fun s => topology s = topology first) rest
      /\ topology b = topology first
      /\ mapM (fun s => let* r := (if f then np.concatenate else np.stack) s
                        in Ok (np.ascontiguousarray r))
           (leaf_columns (first :: rest)) = Ok (flatten b).
Proof.
  split.
  - intros H. destruct (batch_Ok_inv _ _ _ _ H) as (al & Ht & Hm & Htb & ->).
    done.
  - intros (Ht & Htb & Hm). unfold batch. cbn [bind]. unfold map_structure.
    assert (mapM (assert_same_structure first) rest
            = Ok (map (fun _ => ()) rest)) as ->.
    { apply mapM_Ok. clear -Ht.
      induction Ht as [|s l Hs _ IH]; simpl; constructor; [|done].
      by apply assert_same_structure_Ok. }
    cbn [bind]. fold (leaf_rows (first :: rest)).
    fold (leaf_columns (first :: rest)). rewrite Hm. cbn [bind].
    by apply unflatten_as_Ok_iff.
Qed.

Lemma concatenate_expanded (col : list np.ndarray) r :
  np.concatenate (map np.expand_dims col) = Ok r <-> np.stack col = Ok r.
Proof.
  destruct col as [|a0 rest]; [done|].
  unfold np.concatenate, np.stack. cbn [map].
  assert (existsb (fun a => bool_decide (np.shape a = []))
            (np.expand_dims a0 :: map np.expand_dims rest) = false) as ->.
  { change (np.expand_dims a0 :: map np.expand_dims rest)
      with (map np.expand_dims (a0 :: rest)).
    clear. induction (a0 :: rest) as [|x l IH]; [done|]. simpl. exact IH. }
  assert (forallb (fun a => bool_decide
                     (tail (np.shape a) = tail (np.shape (np.expand_dims a0))))
            (map np.expand_dims rest)
          = forallb (fun a => bool_decide (np.shape a = np.shape a0)) rest)
    as ->.
  { clear. induction rest as [|x l IH]; [done|]. cbn [forallb map].
    by rewrite IH. }
  destruct (forallb _ rest); [|done].
  assert (foldr Nat.add 0
            (hd 0 (np.shape (np.expand_dims a0))
               :: map (fun a => hd 0 (np.shape a)) (map np.expand_dims rest))
          = length (a0 :: rest)) as ->.
  { simpl. f_equal. clear. induction rest; simpl; congruence. }
  assert (np.result_type (map np.expand_dims rest)
            (np.adtype (np.expand_dims a0))
          = np.result_type rest (np.adtype a0)) as ->.
  { clear. unfold np.result_type.
    induction rest as [|x l IH]; [done|]. cbn [map foldr]. by rewrite IH. }
  assert (concat (np.data (np.expand_dims a0)
                    :: map np.data (map np.expand_dims rest))
          = concat (map np.data (a0 :: rest))) as ->.
  { simpl. by rewrite List.map_map. }
  done.
Qed.

(** X7.  Items that already carry a batch axis of size 1 are batched in
    concat mode into what the items without that axis are batched into in
    stack mode: one call returns a batch exactly when the other returns
    it. *)
Theorem batch_concat_of_expanded (list_of_structs : list (struct np.ndarray))
    (b : struct np.ndarray) :
  batch (map (smap np.expand_dims) list_of_structs) (Flag true) = Ok b
  <-> batch list_of_structs (Flag false) = Ok b.
Proof.
  destruct list_of_structs as [|first rest]; [done|]. cbn [map].
  rewrite !batch_Ok_iff. rewrite topology_smap.
  assert (Forall (fun s => topology s = topology first)
            (map (smap np.expand_dims) rest)
          <-> Forall (fun s => topology s = topology first) rest) as ->.
  { change (map ?f rest) with (f <$> rest). rewrite Forall_fmap.
    apply Forall_iff. intros s. simpl. by rewrite !topology_smap. }
  assert (leaf_columns (smap np.expand_dims first
                          :: map (smap np.expand_dims) rest)
          = map (map np.expand_dims) (leaf_columns (first :: rest))) as ->.
  { unfold leaf_columns, leaf_rows. rewrite <- zip_star_map. f_equal.
    cbn [map]. rewrite flatten_smap. f_equal.
    rewrite !List.map_map. apply map_eq_Forall2.
    induction rest; constructor; [apply flatten_smap|done]. }
  assert (forall cols rs,
    mapM (fun s => let* r := np.concatenate s in
                   Ok (np.ascontiguousarray r))
      (map (map np.expand_dims) cols) = Ok rs
    <-> mapM (fun s => let* r := np.stack s in Ok (np.ascontiguousarray r))
          cols = Ok rs) as Hcols.
  { intros cols rs. rewrite !mapM_Ok.
    change (map ?f cols) with (f <$> cols). rewrite Forall2_fmap_l.
    split; intros H; (eapply Forall2_impl; [exact H|]); intros col r;
      simpl; rewrite !bind_Ok; intros (x & Hx & E); exists x;
      (split; [by apply concatenate_expanded|done]). }
  by rewrite Hcols.
Qed.

(** ** [flatten_to_single_ndarray] *)

Lemma existsb_reshape_1d (l : list np.ndarray) :
  existsb (fun a => bool_decide (np.shape a = [])) (map np.reshape_1d l)
  = false.
Proof. induction l as [|x l IH]; [done|]. simpl. exact IH. Qed.

Lemma concatenate_1d (l : list np.ndarray) :
  l <> [] ->
  exists r, np.concatenate (map np.reshape_1d l) = Ok r
    /\ np.shape r
       = [foldr Nat.add 0 (map (fun a => np.numel (np.shape a)) l)]
    /\ np.data r = concat (map np.data l).
Proof.
  intros Hne. destruct l as [|a0 rest]; [done|].
  pose proof (existsb_reshape_1d (a0 :: rest)) as He.
  unfold np.concatenate. cbn [map] in *. rewrite He.
  match goal with
  | |- context [if ?c then _ else _] => assert (c = true) as ->
  end.
  { clear. induction rest as [|x l IH]; [done|]. simpl. exact IH. }
  eexists. split; [done|]. simpl. split.
  - do 2 f_equal. rewrite List.map_map. done.
  - f_equal. rewrite List.map_map. done.
Qed.

(** X8.  On a list, tuple or dict, [flatten_to_single_ndarray] raises the
    error of [np.concatenate] when the structure has no leaf; otherwise it
    returns a one-dimensional array that holds the elements of the leaves
    one leaf after the other, in the order of [tree.flatten]: its length
    is the sum of the sizes of the leaves. *)
Theorem flatten_to_single_ndarray_nested (input_ : struct np.ndarray) :
  is_nested input_ = true ->
  (flatten input_ = [] ->
   flatten_to_single_ndarray input_
   = Raise (ValueError "need at least one array to concatenate"))
  /\ (flatten input_ <> [] ->
      exists r, flatten_to_single_ndarray input_ = Ok r
        /\ np.shape r
           = [foldr Nat.add 0
                (map (fun a => np.numel (np.shape a)) (flatten input_))]
        /\ np.data r = concat (map np.data (flatten input_))
        /\ (Forall np.wf (flatten input_) -> np.wf r)).
Proof.
  intros Hn.
  assert (flatten_to_single_ndarray input_
          = let* c := np.concatenate (map np.reshape_1d (flatten input_)) in
            Ok (np.ndarray_flatten c)) as ->
    by (by destruct input_).
  split.
  - intros ->. done.
  - intros Hne. destruct (concatenate_1d _ Hne) as (c & -> & Hs & Hd).
    cbn [bind]. exists (np.ndarray_flatten c). split; [done|].
    unfold np.wf, np.ndarray_flatten. cbn [np.shape np.data].
    rewrite Hs, Hd. cbn [np.numel foldr]. rewrite Nat.mul_1_r.
    split; [done|]. split; [done|]. intros Hwf. clear -Hwf.
    induction Hwf as [|a l Ha _ IH]; [done|]. simpl.
    rewrite length_app, IH, Ha. lia.
Qed.

Lemma flatten_to_single_ndarray_nested_witness :
  exists r, flatten_to_single_ndarray ex_batch = Ok r
    /\ np.shape r = [9]
    /\ np.data r = [Fin 1; Fin 2; Fin 3; Fin 4; Fin 5; Fin 6;
                    Fin 7; Fin 8; Fin 9]
    /\ np.wf r.
Proof.
  destruct (flatten_to_single_ndarray_nested ex_batch) as [_ H];
    [reflexivity|].
  destruct H as (r & Hr & Hs & Hd & Hw); [vm_compute; discriminate|].
  exists r. split; [exact Hr|]. split; [exact Hs|]. split; [exact Hd|].
  apply Hw. repeat constructor.
Defined.

(** ** [get_original_space] *)

(** X9.  The space returned by [get_original_space] has no attribute
    [original_space], so that a second call returns it as it is. *)
Theorem get_original_space_fixpoint (space : SpaceObj) :
  has_original_space (get_original_space space) = false
  /\ get_original_space (get_original_space space)
     = get_original_space space.
Proof.
  revert space. fix IH 1. intros [s [original_space|]].
  - exact (IH original_space).
  - by split.
Qed.

(** ** [get_base_struct_from_space] *)

Lemma base_struct_Leaf_inv (space s : Space) :
  get_base_struct_from_space space = Leaf s ->
  space = s /\ is_composite s = false.
Proof. destruct space; simpl; intros [= <-]; done. Qed.

(** X10.  The leaves of the base struct of a space, in the order of
    [tree.flatten], are the spaces listed by [flatten_space]; none of them
    is a [Tuple] or a [Dict]; and different spaces have different base
    structs. *)
Theorem base_struct_flatten (space : Space) :
  flatten (get_base_struct_from_space space) = flatten_space space
  /\ Forall (fun s => is_composite s = false)
       (flatten (get_base_struct_from_space space))
  /\ forall space',
       get_base_struct_from_space space = get_base_struct_from_space space' ->
       space = space'.
Proof.
  split; [apply flatten_base_struct|]. split.
  { rewrite flatten_base_struct. apply flatten_space_no_composite. }
  induction space as [low high sh dt|n st|nvec st|l IH|m IH] using Space_ind';
    intros space' H.
  - symmetry in H. by apply base_struct_Leaf_inv in H as [-> _].
  - symmetry in H. by apply base_struct_Leaf_inv in H as [-> _].
  - symmetry in H. by apply base_struct_Leaf_inv in H as [-> _].
  - destruct space' as [| | |l'|m']; try done. simpl in H.
    injection H as H. f_equal. revert l' H.
    induction IH as [|x l Hx _ IHl]; intros [|y l'] H; simpl in *;
      try done.
    injection H as Hxy H. f_equal; [by apply Hx|by apply IHl].
  - destruct space' as [| | |l'|m']; try done. simpl in H.
    injection H as H. f_equal. apply map_eq. intros k.
    assert ((get_base_struct_from_space <$> m) !! k
            = (get_base_struct_from_space <$> m') !! k) as Hk by (by rewrite H).
    rewrite !lookup_fmap in Hk.
    destruct (m !! k) as [x|] eqn:Ex, (m' !! k) as [y|] eqn:Ey;
      simpl in Hk; try done.
    f_equal. injection Hk as Hk. by apply (IH k x Ex).
Qed.

(** ** [get_dummy_batch_for_space] on composite spaces *)

Section DummyBatchComposite.
Context (rng : Type) (sample : Space -> rng -> np.ndarray * rng).

Lemma primitive_fill_one_hot space batch_size v time_size time_major
    one_hot_discrete g :
  (forall t, time_size = Some t -> (0 < batch_size)%Z /\ (0 < t)%Z) ->
  dummy_batch_primitive rng sample space batch_size (FillValue v)
    time_size time_major one_hot_discrete g
  = (Ok (np.full
           (batch_dims batch_size time_size time_major
              ++ Space_shape (dummy_space one_hot_discrete space)) v
           (Space_dtype (dummy_space one_hot_discrete space))), g).
Proof.
  intros Hsz. unfold dummy_batch_primitive, batch_dims, dummy_space.
  destruct time_size as [t|].
  - destruct (Hsz t eq_refl) as [Hb Ht].
    apply Z.ltb_lt in Hb, Ht. rewrite Hb, Ht. simpl.
    by destruct time_major, one_hot_discrete, space.
  - by destruct one_hot_discrete, space.
Qed.

Lemma mapM_st_pure {A B} (f : A -> M rng B) (h : A -> B) l g :
  (forall x, f x g = (Ok (h x), g)) ->
  mapM_st rng f l g = (Ok (map h l), g).
Proof.
  intros Hf. induction l as [|x l IH]; [done|].
  simpl. unfold bindM at 1. rewrite Hf. unfold bindM at 1. rewrite IH. done.
Qed.

Lemma dummy_batch_fill_leaves space batch_size v time_size time_major
    one_hot_discrete g :
  (forall t, time_size = Some t -> (0 < batch_size)%Z /\ (0 < t)%Z) ->
  exists r,
    get_dummy_batch_for_space rng sample space batch_size (FillValue v)
      time_size time_major one_hot_discrete g = (Ok r, g)
    /\ topology r = topology (get_base_struct_from_space space)
    /\ flatten r
       = map (fun s =>
                np.full (batch_dims batch_size time_size time_major
                           ++ Space_shape (dummy_space one_hot_discrete s)) v
                  (Space_dtype (dummy_space one_hot_discrete s)))
           (flatten_space space).
Proof.
  intros Hsz.
  set (leaf := fun s : Space =>
    np.full (batch_dims batch_size time_size time_major
               ++ Space_shape (dummy_space one_hot_discrete s)) v
      (Space_dtype (dummy_space one_hot_discrete s))).
  unfold get_dummy_batch_for_space.
  destruct (is_composite space) eqn:Hc.
  - unfold map_structure_st, bindM.
    rewrite (mapM_st_pure _ leaf).
    2:{ intros s. by apply primitive_fill_one_hot. }
    rewrite flatten_base_struct. unfold liftM.
    destruct (unflatten_as_Ok (get_base_struct_from_space space)
                (map leaf (flatten_space space))) as (r & Hr & Hfl & Ht).
    { by rewrite length_map, flatten_base_struct. }
    exists r. rewrite Hr, Hfl. done.
  - unfold bindM. rewrite primitive_fill_one_hot by done.
    exists (Leaf (leaf space)). unfold retM.
    rewrite flatten_space_leaf by done.
    split; [done|]. split; [by destruct space|done].
Qed.

End DummyBatchComposite.

(** X11.  With a literal fill value and sizes that pass the assertion,
    [get_dummy_batch_for_space] returns, on any primitive or composite
    space, a structure with the topology of the base struct of the space;
    its leaves are, in the order of [flatten_space], arrays of the dtype
    of the sub-space whose shape is the batch (and time) dimensions
    followed by the shape of the sub-space, where with [one_hot_discrete]
    a discrete sub-space counts as the [Box] of its one-hot vectors.  No
    sample is drawn: the generator is left as it was. *)
Theorem dummy_batch_fill_structure (rng : Type)
    (sample : Space -> rng -> np.ndarray * rng) (space : Space)
    (batch_size : Z) (v : xq) (time_size : option Z)
    (time_major one_hot_discrete : bool) (g : rng) :
  (forall t, time_size = Some t -> (0 < batch_size)%Z /\ (0 < t)%Z) ->
  exists r,
    get_dummy_batch_for_space rng sample space batch_size (FillValue v)
      time_size time_major one_hot_discrete g = (Ok r, g)
    /\ topology r = topology (get_base_struct_from_space space)
    /\ Forall2 (fun a s =>
         np.shape a = batch_dims batch_size time_size time_major
                        ++ Space_shape (dummy_space one_hot_discrete s)
         /\ np.adtype a = Space_dtype (dummy_space one_hot_discrete s))
       (flatten r) (flatten_space space).
Proof.
  intros Hsz.
  destruct (dummy_batch_fill_leaves rng sample space batch_size v time_size
              time_major one_hot_discrete g Hsz) as (r & Hr & Ht & Hfl).
  exists r. split; [done|]. split; [done|]. rewrite Hfl. clear.
  induction (flatten_space space); simpl; constructor; done.
Qed.

Lemma dummy_batch_fill_structure_witness :
  exists r,
    get_dummy_batch_for_space unit ex_sample
      (Tuple [Discrete 3 0; ex_box1]) 2 (FillValue (Fin 0)) (Some 5%Z)
      false true tt = (Ok r, tt)
    /\ topology r
       = topology (get_base_struct_from_space (Tuple [Discrete 3 0; ex_box1]))
    /\ Forall2 (fun a s =>
         np.shape a = batch_dims 2 (Some 5%Z) false
                        ++ Space_shape (dummy_space true s)
         /\ np.adtype a = Space_dtype (dummy_space true s))
       (flatten r) (flatten_space (Tuple [Discrete 3 0; ex_box1])).
Proof.
  apply (dummy_batch_fill_structure unit ex_sample
           (Tuple [Discrete 3 0; ex_box1]) 2 (Fin 0) (Some 5%Z) false true tt).
  intros t [= <-]. lia.
Defined.

(** ** Random dummy batches *)

Lemma array_same_shape sh dt (items : list np.ndarray) :
  items <> [] -> Forall (fun a => np.shape a = sh) items ->
  exists r, np.array items dt = Ok r
    /\ np.shape r = length items :: sh /\ np.adtype r = dt.
Proof.
  intros Hne Hsh. destruct items as [|a0 rest]; [done|].
  apply Forall_cons in Hsh as [H0 Hrest]. unfold np.array.
  assert (forallb (fun a => bool_decide (np.shape a = np.shape a0)) rest
          = true) as ->.
  { apply forallb_forall. intros a Ha. apply bool_decide_eq_true.
    rewrite Forall_forall in Hrest. rewrite H0. apply Hrest.
    by apply list_elem_of_In. }
  eexists. split; [done|]. simpl. by rewrite H0.
Qed.

Section RandomDummyBatch.
Context (rng : Type) (sample : Space -> rng -> np.ndarray * rng).
Context (Hsample : forall s g, np.shape (sample s g).1 = Space_shape s).

Lemma repeatM_spec {A} (P : A -> Prop) (m : M rng A) n g :
  (forall g, exists a g', m g = (Ok a, g') /\ P a) ->
  exists l g', repeatM rng n m g = (Ok l, g')
    /\ length l = n /\ Forall P l.
Proof.
  intros Hm. revert g. induction n as [|n IH]; intros g.
  - exists [], g. done.
  - destruct (Hm g) as (a & g1 & Ha & HP).
    destruct (IH g1) as (l & g2 & Hl & Hlen & HPl).
    exists (a :: l), g2. simpl. unfold bindM at 1. rewrite Ha.
    unfold bindM at 1. rewrite Hl. split; [done|]. split.
    + simpl. by rewrite Hlen.
    + by constructor.
Qed.

Lemma sampleM_spec s g :
  exists a g', sampleM rng sample s g = (Ok a, g')
    /\ np.shape a = Space_shape s.
Proof.
  unfold sampleM. pose proof (Hsample s g) as H.
  destruct (sample s g) as [a g']. by exists a, g'.
Qed.

Lemma primitive_random space batch_size time_size time_major
    one_hot_discrete g :
  (forall t, time_size = Some t -> (0 < batch_size)%Z /\ (0 < t)%Z) ->
  exists a g',
    dummy_batch_primitive rng sample space batch_size Random
      time_size time_major one_hot_discrete g = (Ok a, g')
    /\ np.shape a = batch_dims batch_size time_size time_major
                      ++ Space_shape (dummy_space one_hot_discrete space)
    /\ np.adtype a = Space_dtype (dummy_space one_hot_discrete space).
Proof.
  intros Hsz. unfold dummy_batch_primitive.
  fold (dummy_space one_hot_discrete space).
  set (sp := dummy_space one_hot_discrete space).
  unfold batch_dims. destruct time_size as [t|].
  - destruct (Hsz t eq_refl) as [Hb Ht].
    pose proof Hb as Hb'. pose proof Ht as Ht'.
    apply Z.ltb_lt in Hb', Ht'. rewrite Hb', Ht'. cbn [andb].
    assert (forall n m, 0 < n -> 0 < m -> forall g,
      exists a g',
        bindM rng (repeatM rng n (repeatM rng m (sampleM rng sample sp)))
          (fun rows => liftM rng (np.array2 rows (Space_dtype sp))) g
        = (Ok a, g')
        /\ np.shape a = [n; m] ++ Space_shape sp
        /\ np.adtype a = Space_dtype sp) as Hgrid.
    { intros n m Hn Hm g0.
      destruct (repeatM_spec
        (fun row => length row = m
                    /\ Forall (fun a => np.shape a = Space_shape sp) row)
        (repeatM rng m (sampleM rng sample sp)) n g0)
        as (rows & g1 & Hrows & Hlen & Hall).
      { intros g2. destruct (repeatM_spec
          (fun a => np.shape a = Space_shape sp)
          (sampleM rng sample sp) m g2) as (l & g3 & Hl & ? & ?).
        { intros g4. apply sampleM_spec. }
        exists l, g3. done. }
      unfold bindM. rewrite Hrows. unfold liftM, np.array2.
      assert (exists items,
        mapM (fun r => np.array r (Space_dtype sp)) rows = Ok items
        /\ length items = n
        /\ Forall (fun a => np.shape a = m :: Space_shape sp) items)
        as (items & -> & Hli & Hit).
      { clear Hrows. subst n. clear Hn.
        induction Hall as [|row rows [Hrl Hrow] _ IH].
        - exists []. done.
        - destruct (array_same_shape (Space_shape sp) (Space_dtype sp) row)
            as (r & Hr & Hrs & _); [by destruct row; simpl in *; [lia|]|done|].
          destruct IH as (its & Hits & Hl & Hf).
          exists (r :: its). cbn [mapM]. rewrite Hr. cbn [bind].
          rewrite Hits. cbn [bind]. split; [done|]. split.
          + simpl. by rewrite Hl.
          + constructor; [congruence|done]. }
      cbn [bind].
      destruct (array_same_shape (m :: Space_shape sp) (Space_dtype sp) items)
        as (r & Hr & Hrs & Hrd); [by destruct items; simpl in *; [lia|]|done|].
      exists r, g1. rewrite Hr, Hrs, Hli. done. }
    destruct time_major; apply Hgrid; unfold dim; lia.
  - destruct (0 <? batch_size)%Z eqn:Hb.
    + apply Z.ltb_lt in Hb.
      destruct (repeatM_spec (fun a => np.shape a = Space_shape sp)
        (sampleM rng sample sp) (dim batch_size) g)
        as (l & g1 & Hl & Hlen & Hall).
      { intros g2. apply sampleM_spec. }
      unfold bindM. rewrite Hl. unfold liftM.
      destruct (array_same_shape (Space_shape sp) (Space_dtype sp) l)
        as (r & Hr & Hrs & Hrd); [|done|].
      { destruct l; [|done]. simpl in Hlen. unfold dim in Hlen. lia. }
      exists r, g1. rewrite Hr, Hrs, Hlen. done.
    + destruct (sampleM_spec sp g) as (a & g1 & Ha & Hs).
      unfold bindM. rewrite Ha. exists (np.astype a (Space_dtype sp)), g1.
      done.
Qed.

Lemma mapM_st_spec {A B} (P : A -> B -> Prop) (f : A -> M rng B) l g :
  (forall x g, exists y g', f x g = (Ok y, g') /\ P x y) ->
  exists ys g', mapM_st rng f l g = (Ok ys, g') /\ Forall2 P l ys.
Proof.
  intros Hf. revert g. induction l as [|x l IH]; intros g.
  - exists [], g. done.
  - destruct (Hf x g) as (y & g1 & Hy & HP).
    destruct (IH g1) as (ys & g2 & Hys & HPs).
    exists (y :: ys), g2. simpl. unfold bindM at 1. rewrite Hy.
    unfold bindM at 1. rewrite Hys. split; [done|]. by constructor.
Qed.

End RandomDummyBatch.

(** X12.  With [fill_value="random"], sizes that pass the assertion and a
    [sample] method that returns arrays of the shape of the space, the
    dummy batch has the same topology, leaf shapes and leaf dtypes as the
    dummy batch for a literal fill value: the batch (and time) dimensions
    followed by the shape of the sub-space. *)
Theorem dummy_batch_random_shapes (rng : Type)
    (sample : Space -> rng -> np.ndarray * rng) (space : Space)
    (batch_size : Z) (time_size : option Z)
    (time_major one_hot_discrete : bool) (g : rng) :
  (forall s g, np.shape (sample s g).1 = Space_shape s) ->
  (forall t, time_size = Some t -> (0 < batch_size)%Z /\ (0 < t)%Z) ->
  exists r g',
    get_dummy_batch_for_space rng sample space batch_size Random
      time_size time_major one_hot_discrete g = (Ok r, g')
    /\ topology r = topology (get_base_struct_from_space space)
    /\ Forall2 (fun a s =>
         np.shape a = batch_dims batch_size time_size time_major
                        ++ Space_shape (dummy_space one_hot_discrete s)
         /\ np.adtype a = Space_dtype (dummy_space one_hot_discrete s))
       (flatten r) (flatten_space space).
Proof.
  intros Hsample Hsz. unfold get_dummy_batch_for_space.
  destruct (is_composite space) eqn:Hc.
  - unfold map_structure_st.
    destruct (mapM_st_spec rng (fun s a =>
         np.shape a = batch_dims batch_size time_size time_major
                        ++ Space_shape (dummy_space one_hot_discrete s)
         /\ np.adtype a = Space_dtype (dummy_space one_hot_discrete s))
      (fun s => dummy_batch_primitive rng sample s batch_size Random
                  time_size time_major one_hot_discrete)
      (flatten (get_base_struct_from_space space)) g)
      as (ys & g1 & Hys & HP).
    { intros s g0. by apply primitive_random. }
    unfold bindM. rewrite Hys. unfold liftM.
    destruct (unflatten_as_Ok (get_base_struct_from_space space) ys)
      as (r & Hr & Hfl & Ht).
    { by apply Forall2_length in HP. }
    exists r, g1. rewrite Hr, Hfl. split; [done|]. split; [done|].
    rewrite <- flatten_base_struct. by apply Forall2_flip.
  - destruct (primitive_random rng sample Hsample space batch_size time_size
                time_major one_hot_discrete g Hsz) as (a & g1 & Ha & Hs & Hd).
    unfold bindM. rewrite Ha. exists (Leaf a), g1. unfold retM.
    rewrite flatten_space_leaf by done.
    split; [done|]. split; [by destruct space|]. by repeat constructor.
Qed.

Lemma dummy_batch_random_shapes_witness :
  exists r g',
    get_dummy_batch_for_space unit ex_sample
      (Tuple [Discrete 3 0; ex_box1]) 2 Random (Some 5%Z) true false tt
    = (Ok r, g')
    /\ topology r
       = topology (get_base_struct_from_space (Tuple [Discrete 3 0; ex_box1]))
    /\ Forall2 (fun a s =>
         np.shape a = batch_dims 2 (Some 5%Z) true
                        ++ Space_shape (dummy_space false s)
         /\ np.adtype a = Space_dtype (dummy_space false s))
       (flatten r) (flatten_space (Tuple [Discrete 3 0; ex_box1])).
Proof.
  apply (dummy_batch_random_shapes unit ex_sample
           (Tuple [Discrete 3 0; ex_box1]) 2 (Some 5%Z) true false tt).
  - intros s g. reflexivity.
  - intros t [= <-]. lia.
Defined.

(** ** [unbatch] of a dummy batch *)

Lemma getitem_full n sh v dt i :
  i < n -> np.getitem (np.full (n :: sh) v dt) i = Ok (np.full sh v dt).
Proof.
  intros Hi. unfold np.getitem, np.full. cbn [np.shape np.data np.adtype].
  rewrite decide_True by done. f_equal.
  assert (take (np.numel sh)
            (drop (i * np.numel sh) (replicate (np.numel (n :: sh)) v))
          = replicate (np.numel sh) v) as ->.
  { rewrite drop_replicate, take_replicate. f_equal. simpl. nia. }
  by destruct sh.
Qed.

(** X13.  For a space with at least one leaf, a literal fill value and a
    positive batch size without a time axis, [unbatch] of the dummy batch
    returns [batch_size] copies of the dummy value that
    [get_dummy_batch_for_space] returns for [batch_size=0] (a scalar
    being the same value as a 0-d array). *)
Theorem unbatch_dummy_batch (rng : Type)
    (sample : Space -> rng -> np.ndarray * rng) (space : Space)
    (batch_size : Z) (v : xq) (time_major one_hot_discrete : bool) (g : rng) :
  (0 < batch_size)%Z ->
  flatten_space space <> [] ->
  exists b item,
    get_dummy_batch_for_space rng sample space batch_size (FillValue v)
      None time_major one_hot_discrete g = (Ok b, g)
    /\ get_dummy_batch_for_space rng sample space 0 (FillValue v)
         None time_major one_hot_discrete g = (Ok item, g)
    /\ unbatch b = Ok (replicate (dim batch_size) item).
Proof.
  intros Hb Hne.
  destruct (dummy_batch_fill_leaves rng sample space batch_size v None
              time_major one_hot_discrete g) as (b & Hgb & Htb & Hfb);
    [done|].
  destruct (dummy_batch_fill_leaves rng sample space 0 v None
              time_major one_hot_discrete g) as (item & Hgi & Hti & Hfi);
    [done|].
  exists b, item. split; [done|]. split; [done|].
  unfold batch_dims in Hfb, Hfi.
  apply Z.ltb_lt in Hb. rewrite Hb in Hfb. simpl in Hfi.
  destruct (flatten_space space) as [|s0 sp] eqn:Hsp; [done|].
  rewrite (unbatch_unfold b _ _ Hfb). unfold np.len. cbn [np.full np.shape app].
  cbn [bind].
  rewrite <- (length_replicate (dim batch_size) item) at 1.
  apply mapM_seq. intros i x Hi.
  apply lookup_replicate in Hi as [-> Hi].
  assert (mapM (fun a => np.getitem a i) (flatten b) = Ok (flatten item))
    as ->.
  { apply mapM_Ok. rewrite Hfb, Hfi. clear -Hi.
    induction (s0 :: sp) as [|s l IH]; simpl; constructor; [|done].
    by apply getitem_full. }
  cbn [bind]. apply unflatten_as_flatten. congruence.
Qed.

Lemma unbatch_dummy_batch_witness :
  exists b item,
    get_dummy_batch_for_space unit ex_sample
      (Tuple [Discrete 3 0; ex_box1]) 2 (FillValue (Fin 0))
      None false false tt = (Ok b, tt)
    /\ get_dummy_batch_for_space unit ex_sample
         (Tuple [Discrete 3 0; ex_box1]) 0 (FillValue (Fin 0))
         None false false tt = (Ok item, tt)
    /\ unbatch b = Ok (replicate (dim 2) item).
Proof.
  apply (unbatch_dummy_batch unit ex_sample
           (Tuple [Discrete 3 0; ex_box1]) 2 (Fin 0) false false tt).
  - lia.
  - vm_compute. discriminate.
Defined.

(** ** The assertion of [get_dummy_batch_for_space] *)

Lemma primitive_assertion (rng : Type)
    (sample : Space -> rng -> np.ndarray * rng) space batch_size fill_value t
    time_major one_hot_discrete g :
  (batch_size <= 0 \/ t <= 0)%Z ->
  dummy_batch_primitive rng sample space batch_size fill_value (Some t)
    time_major one_hot_discrete g = (Raise AssertionError, g).
Proof.
  intros Hsz. unfold dummy_batch_primitive.
  assert ((0 <? batch_size)%Z && (0 <? t)%Z = false) as ->.
  { apply andb_false_iff. rewrite !Z.ltb_ge. done. }
  by destruct fill_value.
Qed.

(** X14.  With a time axis, [get_dummy_batch_for_space] fails its
    assertion on every space with at least one leaf as soon as the batch
    size or the time size is not positive, for a literal fill value as
    well as for random values, and before any sample is drawn. *)
Theorem dummy_batch_assertion (rng : Type)
    (sample : Space -> rng -> np.ndarray * rng) (space : Space)
    (batch_size : Z) (fill_value : fill) (t : Z)
    (time_major one_hot_discrete : bool) (g : rng) :
  flatten_space space <> [] ->
  (batch_size <= 0 \/ t <= 0)%Z ->
  get_dummy_batch_for_space rng sample space batch_size fill_value (Some t)
    time_major one_hot_discrete g
  = (Raise AssertionError, g).
Proof.
  intros Hne Hsz. unfold get_dummy_batch_for_space.
  destruct (is_composite space) eqn:Hc.
  - unfold map_structure_st, bindM. rewrite flatten_base_struct.
    destruct (flatten_space space) as [|s l]; [done|].
    erewrite mapM_st_first_Raise; [done|].
    by apply primitive_assertion.
  - unfold bindM. by rewrite primitive_assertion.
Qed.

Lemma dummy_batch_assertion_witness :
  get_dummy_batch_for_space unit ex_sample (Tuple [Discrete 3 0; ex_box1])
    2 Random (Some (-1)%Z) true false tt
  = (Raise AssertionError, tt).
Proof.
  apply (dummy_batch_assertion unit ex_sample (Tuple [Discrete 3 0; ex_box1])
           2 Random (-1) true false tt).
  - vm_compute. discriminate.
  - lia.
Defined.

(** ** Bounds of the action transforms *)



Lemma clip_map__data a low high sh dt :
  np.shape a = sh -> np.shape low = sh -> np.shape high = sh ->
  np.wf a -> np.wf low -> np.wf high ->
  exists r, clip_map_ a (Box low high sh dt) = Ok r
    /\ np.shape r = sh
    /\ np.data r = map (fun t => xmin (xmax t.1 t.2.1) t.2.2)
                     (triples a low high).
Proof.
  intros Ha Hl Hh Wa Wl Wh.
  destruct (clip_same_shape a low high) as (r & Hr & Hs & Hd);
    [congruence..|].
  destruct (Hd Wa Wl Wh) as [Hd' _].
  exists r. split; [done|]. split; [congruence|]. rewrite Hd'.
  destruct (triples_data a low high sh Ha Hl Hh Wa Wl Wh) as (Ea & El & Eh).
  rewrite Ea at 1. rewrite El at 1. rewrite Eh at 1.
  by rewrite !zip_with_map_same.
Qed.

(** X15.  Where [clip_action] returns, a leaf whose descriptor is not a
    [Box] is returned as it is.  For a [Box] leaf of the shape of the
    [Box], every element of the result whose bounds are ordered lies
    within them (unless the input element is nan), and an element that
    already lies within its bounds is returned with its value. *)
Theorem clip_action_within_bounds
    (action : struct np.ndarray) (action_space : struct Space)
    (r : struct np.ndarray) (i : nat) (a : np.ndarray) (s : Space) :
  clip_action action action_space = Ok r ->
  flatten action !! i = Some a ->
  flatten action_space !! i = Some s ->
  match s with
  | Box low high sh _ =>
      np.shape a = sh -> np.shape low = sh -> np.shape high = sh ->
      np.wf a -> np.wf low -> np.wf high ->
      exists y, flatten r !! i = Some y /\ np.shape y = sh
        /\ Forall2 (fun y '(x, (l, h)) =>
             (x <> NaN -> xleb l h = true -> within l h y = true)
             /\ (within l h x = true -> xeq y x))
           (np.data y) (triples a low high)
  | _ => flatten r !! i = Some a
  end.
Proof.
  intros Hr Ha Hs.
  destruct (map_structure2_lookup _ _ _ _ _ _ _ Hr Ha Hs) as (c & Hc & Hi).
  destruct s as [low high sh dt| | | |]; simpl in Hc;
    try (by injection Hc as <-).
  intros Hsa Hsl Hsh Wa Wl Wh.
  destruct (clip_map__data a low high sh dt Hsa Hsl Hsh Wa Wl Wh)
    as (y & Hy & Hys & Hyd).
  simpl in Hy. rewrite Hy in Hc. injection Hc as <-.
  exists y. split; [done|]. split; [done|]. rewrite Hyd.
  apply Forall2_map_triples, Forall_forall. intros [x [l h]] _. simpl.
  split; [apply xclip_within|apply xclip_id].
Qed.

Lemma clip_action_within_bounds_witness :
  exists y,
    flatten (Leaf (np.NdArray [2] np.float32 [Fin 1; Fin (-1)] false)) !! 0
    = Some y
    /\ np.shape y = [2]
    /\ Forall2 (fun y '(x, (l, h)) =>
         (x <> NaN -> xleb l h = true -> within l h y = true)
         /\ (within l h x = true -> xeq y x))
       (np.data y)
       (triples (np.NdArray [2] np.float32 [Fin 3; Fin (-1)] false)
          ex_low ex_high).
Proof.
  apply (clip_action_within_bounds
    (Leaf (np.NdArray [2] np.float32 [Fin 3; Fin (-1)] false))
    (Leaf (Box ex_low ex_high [2] np.float32))
    (Leaf (np.NdArray [2] np.float32 [Fin 1; Fin (-1)] false)) 0
    (np.NdArray [2] np.float32 [Fin 3; Fin (-1)] false)
    (Box ex_low ex_high [2] np.float32)); reflexivity.
Defined.

(** X16.  Where [unsquash_action] returns, for a leaf whose descriptor is
    a float [Box] with finite bounds [low <= high], value and bounds of
    the shape of the [Box]: every element of the result is [nan] or lies
    within its bounds, whatever the input element is (the last step
    clips), and a [nan] element of the input gives [nan]. *)
Theorem unsquash_action_within_bounds
    (action : struct np.ndarray) (action_space_struct : struct Space)
    (r : struct np.ndarray) (i : nat) (a low high : np.ndarray)
    (sh : list nat) (dt : np.dtype) :
  unsquash_action action action_space_struct = Ok r ->
  flatten action !! i = Some a ->
  flatten action_space_struct !! i = Some (Box low high sh dt) ->
  is_float dt = true ->
  np.shape a = sh -> np.shape low = sh -> np.shape high = sh ->
  np.wf a -> np.wf low -> np.wf high ->
  Forall2 (fun l h => ordered_bounds l h = true) (np.data low) (np.data high) ->
  exists y, flatten r !! i = Some y /\ np.shape y = sh
    /\ Forall2 (fun y '(x, (l, h)) =>
         (y = NaN \/ within l h y = true) /\ (x = NaN -> y = NaN))
       (np.data y) (triples a low high).
Proof.
  intros Hr Ha Hs Hdt Hsa Hsl Hsh Wa Wl Wh Hb.
  destruct (map_structure2_lookup _ _ _ _ _ _ _ Hr Ha Hs) as (c & Hc & Hi).
  destruct (unsquash_map__within a low high sh dt Hdt Hsa Hsl Hsh Wa Wl Wh Hb)
    as (y & Hy & Hys & _ & Hyd).
  rewrite Hy in Hc. injection Hc as <-.
  exists y. done.
Qed.

Lemma unsquash_action_within_bounds_witness :
  exists y,
    flatten (Leaf (np.NdArray [2] np.float32 [Fin 1; NaN] false)) !! 0
    = Some y
    /\ np.shape y = [2]
    /\ Forall2 (fun y '(x, (l, h)) =>
         (y = NaN \/ within l h y = true) /\ (x = NaN -> y = NaN))
       (np.data y)
       (triples (np.NdArray [2] np.float32 [Fin 3; NaN] false)
          ex_low ex_high).
Proof.
  apply (unsquash_action_within_bounds
    (Leaf (np.NdArray [2] np.float32 [Fin 3; NaN] false))
    (Leaf (Box ex_low ex_high [2] np.float32))
    (Leaf (np.NdArray [2] np.float32 [Fin 1; NaN] false)) 0
    (np.NdArray [2] np.float32 [Fin 3; NaN] false)
    ex_low ex_high [2] np.float32); try reflexivity; repeat constructor.
Defined.

(** X17.  [normalize_action] changes only the leaves whose descriptor is
    a [Box] of dtype [float32] or [float64]: where it returns, a leaf
    with any other descriptor (a [Box] of another dtype, a [Discrete], a
    [MultiDiscrete]) is returned as it is.  A leaf of a float [Box], with
    value and bounds of the shape of the [Box], gives an array of that
    shape in which a [nan] element of the input stays [nan]. *)
Theorem normalize_action_float_Box_only
    (action : struct np.ndarray) (action_space_struct : struct Space)
    (r : struct np.ndarray) (i : nat) (a : np.ndarray) (s : Space) :
  normalize_action action action_space_struct = Ok r ->
  flatten action !! i = Some a ->
  flatten action_space_struct !! i = Some s ->
  match s with
  | Box low high sh dt =>
      if is_float dt then
        np.shape a = sh -> np.shape low = sh -> np.shape high = sh ->
        np.wf a -> np.wf low -> np.wf high ->
        exists y, flatten r !! i = Some y /\ np.shape y = sh
          /\ Forall2 (fun y x => x = NaN -> y = NaN) (np.data y) (np.data a)
      else flatten r !! i = Some a
  | _ => flatten r !! i = Some a
  end.
Proof.
  intros Hr Ha Hs.
  destruct (map_structure2_lookup _ _ _ _ _ _ _ Hr Ha Hs) as (c & Hc & Hi).
  pose proof (normalize_map__cases a s) as Hcases.
  destruct s as [low high sh dt| | | |]; try congruence.
  change (bool_decide (dt = np.float32) || bool_decide (dt = np.float64))
    with (is_float dt) in Hcases.
  destruct (is_float dt) eqn:Hdt; [|congruence].
  intros Hsa Hsl Hsh Wa Wl Wh.
  destruct (normalize_map__data a low high sh dt Hsa Hsl Hsh Wa Wl Wh Hdt)
    as (y & Hy & Hys & _ & Hyd).
  rewrite Hy in Hc. injection Hc as <-.
  exists y. split; [done|]. split; [done|]. rewrite Hyd.
  destruct (triples_data a low high sh Hsa Hsl Hsh Wa Wl Wh) as (Ea & _ & _).
  rewrite Ea. apply Forall2_fmap, Forall_Forall2_diag, Forall_forall.
  intros [x [l h]] _. simpl. intros ->. apply normalize_value_NaN.
Qed.

Lemma normalize_action_float_Box_only_witness :
  exists y,
    flatten (Leaf (np.NdArray [2] np.float32 [Fin 0; Fin (-1 # 2)] false)) !! 0
    = Some y
    /\ np.shape y = [2]
    /\ Forall2 (fun y x => x = NaN -> y = NaN) (np.data y) (np.data ex_a).
Proof.
  apply (normalize_action_float_Box_only (Leaf ex_a)
    (Leaf (Box ex_low ex_high [2] np.float32))
    (Leaf (np.NdArray [2] np.float32 [Fin 0; Fin (-1 # 2)] false)) 0
    ex_a (Box ex_low ex_high [2] np.float32)); reflexivity.
Defined.

(** ** Elementwise operations between a batch and an array of the shape
    of its rows *)

Lemma broadcast_rev_app l n : np.broadcast_rev (l ++ [n]) l = Some (l ++ [n]).
Proof.
  induction l as [|x l IH]; simpl; [done|]. rewrite IH. simpl.
  by rewrite decide_True.
Qed.

Lemma broadcast_shapes_batch n sh :
  np.broadcast_shapes (n :: sh) sh = Some (n :: sh)
  /\ np.broadcast_shapes sh (n :: sh) = Some (n :: sh).
Proof.
  assert (np.broadcast_shapes (n :: sh) sh = Some (n :: sh)) as H.
  { unfold np.broadcast_shapes. rewrite reverse_cons, broadcast_rev_app.
    simpl. by rewrite reverse_app, reverse_singleton, reverse_involutive. }
  split; [done|]. by apply broadcast_shapes_absorb in H as (_ & _ & ?).
Qed.

Lemma broadcast_to_batch b n sh :
  np.shape b = sh -> np.wf b ->
  np.broadcast_to b (n :: sh) = concat (replicate n (np.data b)).
Proof.
  intros Hs Hw. unfold np.broadcast_to. rewrite Hs.
  replace (length (n :: sh) - length sh) with 1 by (simpl; lia).
  unfold np.wf in Hw. rewrite Hs in Hw.
  cbn [replicate app np.broadcast_data].
  destruct (decide (1 = n)) as [<-|Hn].
  - cbn [np.chunks map concat replicate]. rewrite take_ge by lia.
    by rewrite broadcast_data_same.
  - by rewrite broadcast_data_same.
Qed.

Lemma ufunc2_plain f rdt a b sh :
  np.shape a = sh -> np.shape b = sh -> plain a -> plain b ->
  np.ufunc2 f rdt a b
  = Ok (np.NdArray sh (rdt (np.adtype a) (np.adtype b))
          (zip_with f (np.data a) (np.data b)) false).
Proof.
  intros Ha Hb [Wa Ba] [Wb Bb].
  assert (np.broadcast_to a sh = np.data a) as Ea
    by (rewrite <- Ha; by apply broadcast_to_same).
  assert (np.broadcast_to b sh = np.data b) as Eb
    by (rewrite <- Hb; by apply broadcast_to_same).
  unfold np.ufunc2. rewrite Ha, Hb, broadcast_shapes_same. cbv beta iota.
  by rewrite Ea, Eb, Ba, Bb.
Qed.

Lemma ufunc2_batch_l f rdt a b n sh :
  np.shape a = n :: sh -> np.shape b = sh -> plain a -> plain b ->
  np.ufunc2 f rdt a b
  = Ok (np.NdArray (n :: sh) (rdt (np.adtype a) (np.adtype b))
          (zip_with f (np.data a) (concat (replicate n (np.data b)))) false).
Proof.
  intros Ha Hb [Wa Ba] [Wb Bb].
  assert (np.broadcast_to a (n :: sh) = np.data a) as Ea
    by (rewrite <- Ha; by apply broadcast_to_same).
  pose proof (broadcast_to_batch b n sh Hb Wb) as Eb.
  unfold np.ufunc2. rewrite Ha, Hb, (proj1 (broadcast_shapes_batch n sh)).
  cbv beta iota. by rewrite Ea, Eb, Ba, Bb.
Qed.

Lemma ufunc2_batch_r f rdt a b n sh :
  np.shape a = n :: sh -> np.shape b = sh -> plain a -> plain b ->
  np.ufunc2 f rdt b a
  = Ok (np.NdArray (n :: sh) (rdt (np.adtype b) (np.adtype a))
          (zip_with f (concat (replicate n (np.data b))) (np.data a)) false).
Proof.
  intros Ha Hb [Wa Ba] [Wb Bb].
  assert (np.broadcast_to a (n :: sh) = np.data a) as Ea
    by (rewrite <- Ha; by apply broadcast_to_same).
  pose proof (broadcast_to_batch b n sh Hb Wb) as Eb.
  unfold np.ufunc2. rewrite Ha, Hb, (proj2 (broadcast_shapes_batch n sh)).
  cbv beta iota. by rewrite Ea, Eb, Ba, Bb.
Qed.

(** The rows of a batch. *)
Lemma getitem_plain a n sh i ai :
  np.shape a = n :: sh -> plain a -> np.getitem a i = Ok ai ->
  i < n
  /\ ai = np.NdArray sh (np.adtype a)
            (take (np.numel sh) (drop (i * np.numel sh) (np.data a))) false
  /\ np.shape ai = sh /\ plain ai.
Proof.
  intros Hs [Hw Hb] Hg. unfold np.getitem in Hg. rewrite Hs in Hg.
  destruct (decide (i < n)) as [Hi|]; [|done]. injection Hg as <-.
  rewrite Hb. split; [done|]. split; [by destruct sh|].
  split; [done|]. split; [|by destruct sh]. unfold np.wf in *. simpl.
  rewrite Hs in Hw. simpl in Hw. rewrite length_take, length_drop. nia.
Qed.

Lemma getitem_explicit sh dt d i n :
  i < n ->
  np.getitem (np.NdArray (n :: sh) dt d false) i
  = Ok (np.NdArray sh dt (take (np.numel sh) (drop (i * np.numel sh) d))
          false).
Proof.
  intros Hi. unfold np.getitem. simpl. rewrite decide_True by done.
  by destruct sh.
Qed.

Lemma plain_zip_with f (da db : list xq) sh dt k :
  length da = k -> length db = k -> np.numel sh = k ->
  plain (np.NdArray sh dt (zip_with f da db) false).
Proof.
  intros Ha Hb Hk. split; [|done]. unfold np.wf. simpl.
  rewrite length_zip_with. lia.
Qed.

Lemma length_concat_replicate {A} n (l : list A) :
  length (concat (replicate n l)) = n * length l.
Proof. induction n as [|n IH]; simpl; [done|]. rewrite length_app. lia. Qed.

Lemma row_concat_replicate {A} n (l : list A) i :
  i < n ->
  take (length l) (drop (i * length l) (concat (replicate n l))) = l.
Proof.
  intros Hi. apply take_drop_concat.
  - by apply Forall_replicate.
  - by apply lookup_replicate_2.
Qed.

Lemma ufunc2_rows_l f rdt a b n sh :
  np.shape a = n :: sh -> np.shape b = sh -> plain a -> plain b ->
  exists y, np.ufunc2 f rdt a b = Ok y
    /\ np.shape y = n :: sh /\ plain y
    /\ forall i ai, np.getitem a i = Ok ai ->
         exists yi, np.ufunc2 f rdt ai b = Ok yi /\ np.getitem y i = Ok yi.
Proof.
  intros Ha Hb Pa Pb. rewrite (ufunc2_batch_l f rdt a b n sh) by done.
  pose proof Pa as [Wa _]. pose proof Pb as [Wb _].
  unfold np.wf in Wa, Wb. rewrite Ha in Wa. rewrite Hb in Wb. simpl in Wa.
  eexists. split; [done|]. split; [done|]. split.
  { apply (plain_zip_with _ _ _ _ _ (n * np.numel sh)); [done| |done].
    rewrite length_concat_replicate. by rewrite Wb. }
  intros i ai Hai.
  destruct (getitem_plain a n sh i ai Ha Pa Hai) as (Hi & -> & Hsi & Pi).
  rewrite (ufunc2_plain f rdt _ b sh) by done.
  eexists. split; [done|]. rewrite getitem_explicit by done.
  cbn [np.adtype np.data]. do 2 f_equal.
  rewrite zip_with_drop, zip_with_take. f_equal.
  rewrite <- Wb. by apply row_concat_replicate.
Qed.

Lemma ufunc2_rows_r f rdt a b n sh :
  np.shape a = n :: sh -> np.shape b = sh -> plain a -> plain b ->
  exists y, np.ufunc2 f rdt b a = Ok y
    /\ np.shape y = n :: sh /\ plain y
    /\ forall i ai, np.getitem a i = Ok ai ->
         exists yi, np.ufunc2 f rdt b ai = Ok yi /\ np.getitem y i = Ok yi.
Proof.
  intros Ha Hb Pa Pb. rewrite (ufunc2_batch_r f rdt a b n sh) by done.
  pose proof Pa as [Wa _]. pose proof Pb as [Wb _].
  unfold np.wf in Wa, Wb. rewrite Ha in Wa. rewrite Hb in Wb. simpl in Wa.
  eexists. split; [done|]. split; [done|]. split.
  { apply (plain_zip_with _ _ _ _ _ (n * np.numel sh)); [|done|done].
    rewrite length_concat_replicate. by rewrite Wb. }
  intros i ai Hai.
  destruct (getitem_plain a n sh i ai Ha Pa Hai) as (Hi & -> & Hsi & Pi).
  rewrite (ufunc2_plain f rdt b _ sh) by done.
  eexists. split; [done|]. rewrite getitem_explicit by done.
  cbn [np.adtype np.data]. do 2 f_equal.
  rewrite zip_with_drop, zip_with_take. f_equal.
  rewrite <- Wb. by apply row_concat_replicate.
Qed.

Lemma with_pyfloat_rows g a i ai :
  np.getitem a i = Ok ai ->
  np.getitem (np.with_pyfloat g a) i = Ok (np.with_pyfloat g ai).
Proof.
  unfold np.getitem, np.with_pyfloat. simpl.
  destruct (np.shape a) as [|n sh]; [done|].
  destruct (decide (i < n)); [|done]. intros [= <-]. simpl. do 2 f_equal.
  change (map g ?l) with (g <$> l). by rewrite fmap_take, fmap_drop.
Qed.

Lemma with_pyfloat_plain g a : plain a -> plain (np.with_pyfloat g a).
Proof. intros [Hw Hb]. split; [by apply with_pyfloat_wf|done]. Qed.

(** ** The leaf functions of the action transforms, row by row *)

Lemma clip_rows a low high n sh :
  np.shape a = n :: sh -> np.shape low = sh -> np.shape high = sh ->
  plain a -> plain low -> plain high ->
  exists y, np.clip a low high = Ok y
    /\ np.shape y = n :: sh /\ plain y
    /\ forall i ai, np.getitem a i = Ok ai ->
         exists yi, np.clip ai low high = Ok yi /\ np.getitem y i = Ok yi.
Proof.
  intros Ha Hl Hh Pa Pl Ph. unfold np.clip, np.maximum, np.minimum.
  destruct (ufunc2_rows_l xmax np.promote_types a low n sh)
    as (m & Hm & Hms & Pm & Rm); [done..|].
  destruct (ufunc2_rows_l xmin np.promote_types m high n sh)
    as (y & Hy & Hys & Py & Ry); [done..|].
  exists y. rewrite Hm. cbn [bind]. split; [done|]. split; [done|].
  split; [done|]. intros i ai Hai.
  destruct (Rm i ai Hai) as (mi & Hmi & Hgm).
  destruct (Ry i mi Hgm) as (yi & Hyi & Hgy).
  exists yi. rewrite Hmi. cbn [bind]. done.
Qed.

Lemma rows_commute_pass (f : np.ndarray -> Space -> result np.ndarray)
    n a s :
  (forall x, f x s = Ok x) -> hd_error (np.shape a) = Some n ->
  rows_commute f n a s.
Proof.
  intros Hf Hn. split; [done|]. exists a. split; [done|]. split; [done|].
  intros i ai Hai. exists ai. done.
Qed.

Lemma rows_commute_intro (f : np.ndarray -> Space -> result np.ndarray)
    n sh a s :
  np.shape a = n :: sh ->
  (exists y, f a s = Ok y /\ np.shape y = n :: sh /\ plain y
     /\ forall i ai, np.getitem a i = Ok ai ->
          exists yi, f ai s = Ok yi /\ np.getitem y i = Ok yi) ->
  rows_commute f n a s.
Proof.
  intros Ha (y & Hy & Hys & _ & R). split; [by rewrite Ha|].
  exists y. split; [done|]. split; [by rewrite Hys|done].
Qed.

Lemma clip_map__rows n a s :
  batch_conforms n a s -> rows_commute clip_map_ n a s.
Proof.
  intros [(Hn & Wa & Ba) Hs].
  destruct s as [low high sh dt| | | |];
    try (by apply rows_commute_pass).
  destruct Hs as (_ & Ha & Hl & Hh & Pl & Ph).
  apply (rows_commute_intro _ n sh); [done|]. simpl.
  by apply clip_rows.
Qed.

Lemma unsquash_map__rows n a s :
  batch_conforms n a s -> rows_commute unsquash_map_ n a s.
Proof.
  intros [(Hn & Wa & Ba) Hs].
  destruct s as [low high sh dt| | | |];
    try (by apply rows_commute_pass).
  destruct Hs as (_ & Ha & Hl & Hh & Pl & Ph).
  assert (plain a) as Pa by done.
  assert (forall x, unsquash_map_ x (Box low high sh dt)
            = if np.all (bounded_below low) && np.all (bounded_above high)
              then
                if bool_decide (dt = np.float32)
                   || bool_decide (dt = np.float64)
                then
                  let* d := np.subtract high low in
                  let* p := np.multiply
                              (np.with_pyfloat (fun x => xadd x (Fin 1)) x) d in
                  let* a' := np.add low
                               (np.with_pyfloat (fun x => xdiv x (Fin 2)) p) in
                  np.clip a' low high
                else if np.is_integer dt then np.add low x
                else Ok x
              else Ok x) as Hun by done.
  destruct (np.all (bounded_below low) && np.all (bounded_above high));
    [|by apply rows_commute_pass].
  destruct (bool_decide (dt = np.float32) || bool_decide (dt = np.float64)).
  - apply (rows_commute_intro _ n sh); [done|].
    assert (np.subtract high low
            = Ok (np.NdArray sh
                    (np.promote_types (np.adtype high) (np.adtype low))
                    (zip_with xsub (np.data high) (np.data low)) false))
      as Hsub by (by apply ufunc2_plain).
    set (d := np.NdArray sh _ (zip_with xsub _ _) false) in Hsub.
    assert (np.shape d = sh) as Hd by done.
    assert (plain d) as Pd.
    { apply (plain_zip_with _ _ _ _ _ (np.numel sh)); [| |done].
      - destruct Ph as [W _]. unfold np.wf in W. by rewrite Hh in W.
      - destruct Pl as [W _]. unfold np.wf in W. by rewrite Hl in W. }
    destruct (ufunc2_rows_l xmul np.promote_types
                (np.with_pyfloat (fun x => xadd x (Fin 1)) a) d n sh)
      as (p & Hp & Hps & Pp & Rp);
      [by rewrite with_pyfloat_shape|done|by apply with_pyfloat_plain|done|].
    destruct (ufunc2_rows_r xadd np.promote_types
                (np.with_pyfloat (fun x => xdiv x (Fin 2)) p) low n sh)
      as (a' & Ha' & Has' & Pa' & Ra');
      [by rewrite with_pyfloat_shape|done|by apply with_pyfloat_plain|done|].
    destruct (clip_rows a' low high n sh) as (y & Hy & Hys & Py & Ry);
      [done..|].
    change (np.ufunc2 xmul np.promote_types) with np.multiply in *.
    change (np.ufunc2 xadd np.promote_types) with np.add in *.
    exists y. rewrite Hun, Hsub. cbn [bind]. rewrite Hp. cbn [bind].
    rewrite Ha'. cbn [bind].
    split; [done|]. split; [done|]. split; [done|].
    intros i ai Hai.
    destruct (Rp i _ (with_pyfloat_rows _ _ _ _ Hai)) as (pi & Hpi & Hgp).
    destruct (Ra' i _ (with_pyfloat_rows _ _ _ _ Hgp)) as (ai' & Hai' & Hga).
    destruct (Ry i _ Hga) as (yi & Hyi & Hgy).
    exists yi. rewrite Hun, Hsub. cbn [bind]. rewrite Hpi. cbn [bind].
    rewrite Hai'. cbn [bind]. done.
  - destruct (np.is_integer dt); [|by apply rows_commute_pass].
    apply (rows_commute_intro _ n sh); [done|].
    destruct (ufunc2_rows_r xadd np.promote_types a low n sh)
      as (y & Hy & Hys & Py & Ry); [done..|].
    change (np.ufunc2 xadd np.promote_types) with np.add in *.
    exists y. rewrite Hun. split; [done|]. split; [done|]. split; [done|].
    intros i ai Hai. rewrite Hun. by apply Ry.
Qed.

Lemma normalize_map__rows n a s :
  batch_conforms n a s -> rows_commute normalize_map_ n a s.
Proof.
  intros [(Hn & Wa & Ba) Hs].
  destruct s as [low high sh dt| | | |];
    try (by apply rows_commute_pass).
  destruct Hs as (_ & Ha & Hl & Hh & Pl & Ph).
  assert (plain a) as Pa by done.
  assert (forall x, normalize_map_ x (Box low high sh dt)
            = if bool_decide (dt = np.float32)
                 || bool_decide (dt = np.float64)
              then
                let* m := np.subtract x low in
                let* d := np.subtract high low in
                let* q := np.true_divide
                            (np.with_pyfloat (fun x => xmul x (Fin 2)) m) d in
                Ok (np.with_pyfloat (fun x => xsub x (Fin 1)) q)
              else Ok x) as Hun by done.
  destruct (bool_decide (dt = np.float32) || bool_decide (dt = np.float64));
    [|by apply rows_commute_pass].
  apply (rows_commute_intro _ n sh); [done|].
  destruct (ufunc2_rows_l xsub np.promote_types a low n sh)
    as (m & Hm & Hms & Pm & Rm); [done..|].
  assert (np.subtract high low
          = Ok (np.NdArray sh
                  (np.promote_types (np.adtype high) (np.adtype low))
                  (zip_with xsub (np.data high) (np.data low)) false))
    as Hsub by (by apply ufunc2_plain).
  set (d := np.NdArray sh _ (zip_with xsub _ _) false) in Hsub.
  assert (np.shape d = sh) as Hd by done.
  assert (plain d) as Pd.
  { apply (plain_zip_with _ _ _ _ _ (np.numel sh)); [| |done].
    - destruct Ph as [W _]. unfold np.wf in W. by rewrite Hh in W.
    - destruct Pl as [W _]. unfold np.wf in W. by rewrite Hl in W. }
  destruct (ufunc2_rows_l xdiv np.divide_type
              (np.with_pyfloat (fun x => xmul x (Fin 2)) m) d n sh)
    as (q & Hq & Hqs & Pq & Rq);
    [by rewrite with_pyfloat_shape|done|by apply with_pyfloat_plain|done|].
  change (np.ufunc2 xsub np.promote_types) with np.subtract in *.
  change (np.ufunc2 xdiv np.divide_type) with np.true_divide in *.
  exists (np.with_pyfloat (fun x => xsub x (Fin 1)) q).
  rewrite Hun, Hm. cbn [bind]. rewrite Hsub. cbn [bind]. rewrite Hq.
  cbn [bind]. split; [done|].
  split; [by rewrite with_pyfloat_shape|].
  split; [by apply with_pyfloat_plain|].
  intros i ai Hai.
  destruct (Rm i ai Hai) as (mi & Hmi & Hgm).
  destruct (Rq i _ (with_pyfloat_rows _ _ _ _ Hgm)) as (qi & Hqi & Hgq).
  rewrite Hun, Hmi. cbn [bind]. rewrite Hsub. cbn [bind]. rewrite Hqi.
  cbn [bind]. eexists. split; [done|]. by apply with_pyfloat_rows.
Qed.

(** ** The action transforms on a batch and on its items *)

Lemma Forall2_exists_zip {A B C} (Q : A -> B -> C -> Prop) l k :
  Forall2 (fun a b => exists c, Q a b c) l k ->
  exists cs, Forall2 (fun p c => Q p.1 p.2 c) (zip l k) cs.
Proof.
  induction 1 as [|a b l k [c Hc] _ [cs IH]].
  - exists []. constructor.
  - exists (c :: cs). simpl. by constructor.
Qed.

Lemma unbatch_uniform (bs : struct np.ndarray) n :
  flatten bs <> [] ->
  Forall (fun a => hd_error (np.shape a) = Some n) (flatten bs) ->
  exists out, unbatch bs = Ok out /\ length out = n.
Proof.
  intros Hne Hall. destruct (flatten bs) as [|first rest] eqn:Hf; [done|].
  apply Forall_cons in Hall as [H0 Hrest].
  destruct (np.shape first) as [|n' sh] eqn:Hs; [done|].
  injection H0 as ->.
  apply (unbatch_long_leaves bs first rest n sh); [done..|].
  eapply Forall_impl; [exact Hrest|]. intros a. unfold leading_dim.
  destruct (np.shape a); [done|]. simpl. intros [= ->]. done.
Qed.

Lemma map_structure2_unbatch
    (f : np.ndarray -> Space -> result np.ndarray) (n : nat)
    (b : struct np.ndarray) (space : struct Space) :
  topology b = topology space -> flatten b <> [] ->
  Forall2 (rows_commute f n) (flatten b) (flatten space) ->
  exists items,
    (let* r := map_structure2 f b space in unbatch r) = Ok items
    /\ (let* out := unbatch b in
        mapM (fun item => map_structure2 f item space) out) = Ok items
    /\ length items = n.
Proof.
  intros Ht Hne Hall.
  assert (Forall (fun a => hd_error (np.shape a) = Some n) (flatten b))
    as Hlead.
  { clear -Hall. induction Hall as [|a s l k [Ha _] _ IH]; by constructor. }
  assert (Forall2 (fun a s => exists y,
            f a s = Ok y /\ hd_error (np.shape y) = Some n
            /\ forall i ai, np.getitem a i = Ok ai ->
                 exists yi, f ai s = Ok yi /\ np.getitem y i = Ok yi)
          (flatten b) (flatten space)) as Hall'.
  { eapply Forall2_impl; [exact Hall|]. by intros a s [_ H]. }
  apply Forall2_exists_zip in Hall' as [ys Hys].
  pose proof (Forall2_length _ _ _ Hall) as Hlen.
  (* the transform of the batch *)
  destruct (map_structure2_Ok f b space ys Ht) as (r & Hr & Hfr & Htr).
  { apply mapM_Ok. eapply Forall2_impl; [exact Hys|]. by intros p y [? _]. }
  rewrite Hr. cbn [bind].
  destruct (unbatch_uniform r n) as (outR & HoutR & HlenR).
  { rewrite Hfr. intros ->. apply Forall2_length in Hys.
    rewrite length_zip_with in Hys. destruct (flatten b); [done|].
    destruct (flatten space); simpl in *; lia. }
  { rewrite Hfr. clear -Hys.
    induction Hys as [|p y l k (_ & Hy & _) _ IH]; by constructor. }
  (* the items of the batch *)
  destruct (unbatch_uniform b n Hne Hlead) as (outB & HoutB & HlenB).
  rewrite HoutB. cbn [bind]. exists outR. split; [done|]. split; [|done].
  apply mapM_Ok, Forall2_same_length_lookup_2; [congruence|].
  intros i itemB itemR HiB HiR.
  destruct (flatten b) as [|a0 rest] eqn:Hfb; [done|].
  destruct (unbatch_Ok_inv b a0 rest outB Hfb HoutB) as [_ HB].
  destruct (HB i itemB HiB) as [HuB HgB]. rewrite Hfb in HgB.
  destruct (flatten r) as [|y0 yrest] eqn:Hfr'.
  { unfold unbatch in HoutR. by rewrite Hfr' in HoutR. }
  destruct (unbatch_Ok_inv r y0 yrest outR Hfr' HoutR) as [_ HR].
  destruct (HR i itemR HiR) as [HuR HgR]. rewrite Hfr' in HgR.
  apply unflatten_as_inv in HuB as (_ & HtB & _).
  apply unflatten_as_inv in HuR as (_ & HtR & _).
  apply mapM_Ok in HgB, HgR.
  destruct (map_structure2_Ok f itemB space (flatten itemR))
    as (r' & Hr' & Hfr'' & Htr'); [congruence| |].
  { apply mapM_Ok, Forall2_same_length_lookup_2.
    - rewrite length_zip_with.
      apply Forall2_length in HgB, HgR, Hys.
      rewrite length_zip_with in Hys. rewrite <- Hfr in Hys.
      rewrite ?Hfb in Hlen. cbn [length] in *. lia.
    - intros j [aij sj] yij Hz Hy.
      apply lookup_zip_with_Some in Hz as (x & s' & [= <- <-] & Hx & Hs').
      destruct (Forall2_lookup_r _ _ _ _ _ HgB Hx) as (aj & Haj & Hga).
      destruct (Forall2_lookup_r _ _ _ _ _ HgR Hy) as (yj & Hyj & Hgy).
      assert (zip (a0 :: rest) (flatten space) !! j = Some (aj, sj)) as Hzj.
      { apply lookup_zip_with_Some. eauto. }
      rewrite Hfr in Hyj.
      destruct (Forall2_lookup_l _ _ _ _ _ Hys Hzj) as (yj' & Hyj' & _ & _ & Hrows).
      assert (yj' = yj) as -> by congruence.
      destruct (Hrows i aij Hga) as (yi & Hyi & Hgyi). simpl in *.
      congruence. }
  rewrite Hr'. f_equal. apply struct_eq; congruence.
Qed.

(** X18.  The action transforms work row by row on a batch of actions.
    For a batch with at least one leaf whose leaves have [n] rows each
    (well formed, not marked as batched, rows of the shape of the [Box]
    for a [Box] descriptor, which has at least one axis): transforming
    the batch and then unbatching it gives the same [n] items as
    unbatching the batch and then transforming every item, for
    [clip_action], [normalize_action] and [unsquash_action]. *)
Theorem action_transforms_unbatch (n : nat)
    (action : struct np.ndarray) (action_space : struct Space) :
  topology action = topology action_space ->
  flatten action <> [] ->
  Forall2 (batch_conforms n) (flatten action) (flatten action_space) ->
  let commutes transform :=
    exists items,
      (let* r := transform action action_space in unbatch r) = Ok items
      /\ (let* out := unbatch action in
          mapM (fun item => transform item action_space) out) = Ok items
      /\ length items = n in
  commutes clip_action /\ commutes normalize_action
  /\ commutes unsquash_action.
Proof.
  intros Ht Hne Hall. simpl.
  unfold clip_action, normalize_action, unsquash_action.
  split; [|split]; (apply map_structure2_unbatch; [done|done|]);
    (eapply Forall2_impl; [exact Hall|]); intros a s Hc.
  - by apply clip_map__rows.
  - by apply normalize_map__rows.
  - by apply unsquash_map__rows.
Qed.

Lemma action_transforms_unbatch_witness :
  let action :=
    Leaf (np.NdArray [2; 2] np.float32
            [Fin (1 # 2); Fin (-1); Fin 3; Fin 0] false) in
  let action_space := Leaf (Box ex_low ex_high [2] np.float32) in
  let commutes transform :=
    exists items,
      (let* r := transform action action_space in unbatch r) = Ok items
      /\ (let* out := unbatch action in
          mapM (fun item => transform item action_space) out) = Ok items
      /\ length items = 2 in
  commutes clip_action /\ commutes normalize_action
  /\ commutes unsquash_action.
Proof.
  apply (action_transforms_unbatch 2
    (Leaf (np.NdArray [2; 2] np.float32
             [Fin (1 # 2); Fin (-1); Fin 3; Fin 0] false))
    (Leaf (Box ex_low ex_high [2] np.float32))).
  - reflexivity.
  - vm_compute. discriminate.
  - repeat constructor. discriminate.
Defined.

(** ** The environment [ParrotEnv] *)

Section ParrotEnvProofs.
Context (rng : Type) (sample : Space -> rng -> np.ndarray * rng).

Lemma ParrotEnv_step_spec self action g :
  let '(out, self1, _) := ParrotEnv_step rng sample self action g in
  episode_len self1 = (episode_len self + 1)%Z
  /\ forall obs reward terminated truncated,
       out = Ok (obs, reward, terminated, truncated) ->
       terminated = (10 <=? episode_len self + 1)%Z
       /\ truncated = terminated.
Proof.
  unfold ParrotEnv_step. cbn [cur_obs observation_space action_space].
  destruct (ParrotEnv_reward (cur_obs self) action) as [reward|e].
  - destruct (sample (observation_space self) g) as [obs g'].
    split; [done|]. intros ? ? ? ? [= <- <- <- <-]. done.
  - split; [done|]. done.
Qed.

Lemma ParrotEnv_steps_flags self actions g i obs reward terminated truncated :
  (ParrotEnv_steps rng sample self actions g).1.1 !! i
  = Some (Ok (obs, reward, terminated, truncated)) ->
  terminated = (10 <=? episode_len self + Z.of_nat i + 1)%Z
  /\ truncated = terminated.
Proof.
  revert self g i. induction actions as [|action rest IH]; intros self g i.
  - done.
  - cbn [ParrotEnv_steps].
    pose proof (ParrotEnv_step_spec self action g) as Hstep.
    destruct (ParrotEnv_step rng sample self action g) as [[out self1] g1].
    destruct Hstep as [Hlen Hout].
    specialize (IH self1 g1).
    destruct (ParrotEnv_steps rng sample self1 rest g1) as [[outs self2] g2].
    destruct i as [|i]; simpl.
    + intros [= ->]. rewrite Z.add_0_r. by eapply Hout.
    + intros Hi. destruct (IH i Hi) as [-> ->]. split; [|done].
      f_equal. lia.
Qed.

End ParrotEnvProofs.

(** X19.  In an episode of [ParrotEnv], a [reset] followed by calls of
    [step], the flags returned by the call number [i] (counted from 0)
    are both true exactly from the tenth call on: the environment counts
    every call, also one that raises, and never resets itself. *)
Theorem ParrotEnv_episode_flags (rng : Type)
    (sample : Space -> rng -> np.ndarray * rng) (self : ParrotEnv)
    (actions : list np.ndarray) (g : rng) (i : nat)
    (obs reward : np.ndarray) (terminated truncated : bool) :
  (ParrotEnv_episode rng sample self actions g).1.1 !! i
  = Some (Ok (obs, reward, terminated, truncated)) ->
  terminated = bool_decide (9 <= i) /\ truncated = terminated.
Proof.
  unfold ParrotEnv_episode, ParrotEnv_reset.
  destruct (sample (observation_space self) g) as [obs0 g1].
  intros H. apply ParrotEnv_steps_flags in H as [-> ->]. split; [|done].
  cbn [episode_len]. apply eq_true_iff_eq.
  rewrite Z.leb_le, bool_decide_eq_true. lia.
Qed.

Lemma ParrotEnv_episode_flags_witness :
  true = bool_decide (9 <= 9) /\ true = true.
Proof.
  apply (ParrotEnv_episode_flags unit ex_sample (ParrotEnv_init ∅)
    (replicate 10 (np.NdArray [1] np.float32 [Fin (1 # 2)] false)) tt 9
    (np.NdArray [1] np.float32 [Fin 0] false)
    (np.NdArray [] np.float32 [Fin (-1 # 2)] false) true true).
  vm_compute. reflexivity.
Defined.

(** ** The reward of [ParrotEnv] *)









